(** * Galaga: the enemy motion and game-state core of [videogame/scene.py]

    A shallow embedding of the classes [EnemyPath], [EnemySpawner], [Ship],
    [Bullet] and [GameScene], followed by the properties of the
    specification that concern them.

    Numbers are modelled as Python has them: [int] is [Z], [float] is IEEE-754
    binary64, taken from the Standard Library's executable [SpecFloat]
    (53 bits of precision, round to nearest even).  Exceptions are values of a
    small error monad.  Rendering and sound effects have no effect on the
    state described here and are left out; the images and the sound effects
    are taken to load. *)

From Stdlib Require Import ZArith List Bool Lia.
From Stdlib Require Import SpecFloat.
From Stdlib Require Import MSetPositive.
From Stdlib Require String.
Import ListNotations.
Local Open Scope Z_scope.

(* ================================================================= *)
(** ** Python values: exceptions, floats, integer/float conversions *)

Module Py.

Inductive exn : Set :=
| ZeroDivisionError
| OverflowError
| ValueError
| IndexError
| TypeError.

Inductive result (A : Type) : Type :=
| Ok (a : A)
| Raise (e : exn).
Arguments Ok {A} a.
Arguments Raise {A} e.

Definition bind {A B} (c : result A) (k : A -> result B) : result B :=
  match c with
  | Ok a => k a
  | Raise e => Raise e
  end.

Fixpoint mapM {A B} (f : A -> result B) (l : list A) : result (list B) :=
  match l with
  | [] => Ok []
  | a :: l' =>
      bind (f a) (fun b => bind (mapM f l') (fun bs => Ok (b :: bs)))
  end.

(** [range(n)] for an integer [n]; empty when [n <= 0]. *)
Definition range (n : Z) : list Z := map Z.of_nat (seq 0 (Z.to_nat n)).

(** Python's [float]: binary64. *)
Definition float : Set := spec_float.
Definition prec : Z := 53.
Definition emax : Z := 1024.

Definition fadd : float -> float -> float := SFadd prec emax.
Definition fsub : float -> float -> float := SFsub prec emax.
Definition fmul : float -> float -> float := SFmul prec emax.
Definition fopp : float -> float := SFopp.
Definition flt : float -> float -> bool := SFltb.
Definition feqb : float -> float -> bool := SFeqb.

(** The float nearest to an integer; used for integer literals and as the
    core of [float_of_int]. *)
Definition fz (n : Z) : float := binary_normalize prec emax n 0 false.

(** A decimal literal [n/d] (both small): the nearest float to the quotient. *)
Definition lit (n d : Z) : float := SFdiv prec emax (fz n) (fz d).

(** [math.pi] = 0x1.921fb54442d18p+1. *)
Definition pi : float := S754_finite false 7074237752028440 (-51).

(** Conversion of an [int] operand in mixed arithmetic; Python raises
    [OverflowError] when the integer is too large for a float. *)
Definition float_of_int (n : Z) : result float :=
  match fz n with
  | S754_infinity _ => Raise OverflowError
  | f => Ok f
  end.

(** [int(f)]: truncation toward zero; [ValueError] on NaN, [OverflowError]
    on an infinity. *)
Definition int_of_float (f : float) : result Z :=
  match f with
  | S754_zero _ => Ok 0
  | S754_finite s m e =>
      let a := match e with
               | Zneg k => Z.shiftr (Zpos m) (Zpos k)
               | _ => Z.shiftl (Zpos m) e
               end in
      Ok (if s then - a else a)
  | S754_infinity _ => Raise OverflowError
  | S754_nan => Raise ValueError
  end.

(** [a / b] on floats. *)
Definition float_truediv (a b : float) : result float :=
  if feqb b (fz 0) then Raise ZeroDivisionError
  else Ok (SFdiv prec emax a b).

(** [a / b] on ints: the correctly rounded quotient of the two integers. *)
Definition int_truediv (a b : Z) : result float :=
  if b =? 0 then Raise ZeroDivisionError
  else
    let neg := xorb (a <? 0) (b <? 0) in
    if a =? 0 then Ok (S754_zero neg)
    else
      let '(q, e, l) := SFdiv_core_binary prec emax (Z.abs a) 0 (Z.abs b) 0 in
      match binary_round_aux prec emax neg q e l with
      | S754_infinity _ => Raise OverflowError
      | f => Ok f
      end.

(** The C mathematical library behind [math.cos], [math.sin] and the power
    operator of floats is not part of the program; the model is
    parameterised by it. *)
Class Libm : Type := {
  cos : float -> float;
  sin : float -> float;
  pow : float -> float -> float
}.

(** [n ** 0.5] for an int [n >= 0]: the integer is converted to a float;
    [0.0 ** 0.5] is [0.0] and [1.0 ** 0.5] is [1.0] without a call of the
    library, every other value is the library's [pow(x, 0.5)], and an
    infinite result is an [OverflowError]. *)
Definition pow_half {libm : Libm} (n : Z) : result float :=
  bind (float_of_int n) (fun f =>
    if feqb f (fz 0) then Ok (fz 0)
    else if feqb f (fz 1) then Ok (fz 1)
    else match pow f (lit 5 10) with
         | S754_infinity _ => Raise OverflowError
         | r => Ok r
         end).

(** The value of a computation that is known to succeed. *)
Definition or_else {A} (c : result A) (d : A) : A :=
  match c with
  | Ok a => a
  | Raise _ => d
  end.

(** The computation does not end in a division by zero. *)
Definition no_zero_division {A} (c : result A) : Prop :=
  c <> Raise ZeroDivisionError.

End Py.

Import Py.

Notation "x <- c ;; k" := (Py.bind c (fun x => k))
  (at level 61, c at next level, right associativity).
Notation "' pat <- c ;; k" := (Py.bind c (fun x => match x with pat => k end))
  (at level 61, pat pattern, c at next level, right associativity).

(* ================================================================= *)
(** ** pygame: rectangles with integer coordinates *)

Module Rect.

(** A [pygame.Rect] holds four C integers.  Integers are assigned as they
    are: Python integers are unbounded and so is [Z], and the integers the
    game assigns stay far inside the range of the C integers. *)
Record t : Set := mk { x : Z; y : Z; w : Z; h : Z }.

Definition centerx (r : t) : Z := x r + Z.shiftr (w r) 1.
Definition centery (r : t) : Z := y r + Z.shiftr (h r) 1.
Definition center (r : t) : Z * Z := (centerx r, centery r).

Definition set_x (r : t) (v : Z) : t := mk v (y r) (w r) (h r).
Definition set_y (r : t) (v : Z) : t := mk (x r) v (w r) (h r).
Definition set_centerx (r : t) (v : Z) : t := set_x r (v - Z.shiftr (w r) 1).
Definition set_centery (r : t) (v : Z) : t := set_y r (v - Z.shiftr (h r) 1).
Definition set_center (r : t) (c : Z * Z) : t :=
  set_centery (set_centerx r (fst c)) (snd c).

(** Assigning a float to a coordinate stores the nearest integer, a tie
    going away from zero; a float that has no value among the C integers
    is refused with the [TypeError] "invalid rect assignment". *)
Definition int_min : Z := - 2 ^ 31.
Definition int_max : Z := 2 ^ 31 - 1.

Definition nearest (f : float) : option Z :=
  match f with
  | S754_zero _ => Some 0
  | S754_finite s m e =>
      let a := match e with
               | Zneg k =>
                   Z.shiftr (Zpos m + Z.shiftl 1 (Zpos k - 1)) (Zpos k)
               | _ => Z.shiftl (Zpos m) e
               end in
      Some (if s then - a else a)
  | S754_infinity _ | S754_nan => None
  end.

Definition of_float (f : float) : result Z :=
  match nearest f with
  | Some n =>
      if (int_min <=? n) && (n <=? int_max) then Ok n else Raise TypeError
  | None => Raise TypeError
  end.

(** [rect.centerx += v] and [rect.centery += v] for a float [v]. *)
Definition add_centerx (r : t) (v : float) : result t :=
  c <- float_of_int (centerx r) ;;
  n <- of_float (fadd c v) ;;
  Ok (set_centerx r n).
Definition add_centery (r : t) (v : float) : result t :=
  c <- float_of_int (centery r) ;;
  n <- of_float (fadd c v) ;;
  Ok (set_centery r n).

(** [colliderect] for rectangles of positive width and height. *)
Definition colliderect (a b : t) : bool :=
  (x a <? x b + w b) && (y a <? y b + h b) &&
  (x b <? x a + w a) && (y b <? y a + h a).

End Rect.

(* ================================================================= *)
(** ** EnemyPath: one enemy and its state machine *)

Module EnemyPath.

Inductive State : Set := entering | formation | diving.

Definition Path : Set := list (Z * Z).

Record t : Set := mk {
  rect : Rect.t;
  path : Path;
  current_point : nat;
  speed : float;
  formation_pos : Z * Z;
  state : State;
  dive_path : Path;
  dive_point : nat
}.

Section WithLibm.
Context {libm : Libm}.

Definition points_per_loop : Z := 40.
Definition spiral_radius : Z := 180.
Definition vertical_drop : Z := 350.
Definition steps : Z := 40.

(** One iteration of the first loop of [create_arc_path]. *)
Definition spiral_point (center_x center_y : Z) (flip : bool)
    (total_points i : Z) : result (Z * Z) :=
  q <- int_truediv i points_per_loop ;;
  let angle := fmul (fmul q (fz 2)) pi in
  let angle := if flip then fopp angle else angle in
  r <- int_truediv i total_points ;;
  let radius := fmul (fz spiral_radius) (fsub (fz 1) r) in
  cx <- float_of_int center_x ;;
  let x := fadd cx (fmul radius (cos angle)) in
  cy <- float_of_int center_y ;;
  d <- int_truediv (vertical_drop * i) total_points ;;
  let y := fadd (fadd cy (fmul radius (sin angle))) d in
  xi <- int_of_float x ;;
  yi <- int_of_float y ;;
  Ok (xi, yi).

(** One iteration of the second loop of [create_arc_path]. *)
Definition approach_point (final_x final_y : Z) (dx dy : float) (i : Z)
    : result (Z * Z) :=
  fi <- float_of_int i ;;
  fx <- float_of_int final_x ;;
  xi <- int_of_float (fadd fx (fmul dx fi)) ;;
  fy <- float_of_int final_y ;;
  yi <- int_of_float (fadd fy (fmul dy fi)) ;;
  Ok (xi, yi).

Definition create_arc_path (start_x start_y : Z) (flip : bool)
    (formation_pos : Z * Z) : result Path :=
  let lopps := lit 15 10 in
  total_points <- int_of_float (fmul lopps (fz points_per_loop)) ;;
  let center_x := start_x in
  let center_y := start_y + 100 in
  spiral <- mapM (spiral_point center_x center_y flip total_points)
                 (range total_points) ;;
  match rev spiral with
  | [] => Raise IndexError
  | (final_x, final_y) :: _ =>
      dx <- int_truediv (fst formation_pos - final_x) steps ;;
      dy <- int_truediv (snd formation_pos - final_y) steps ;;
      tail <- mapM (approach_point final_x final_y dx dy) (range steps) ;;
      Ok (spiral ++ tail)
  end.

(** [EnemyPath.__init__]: the sprite image is scaled to 70 by 70. *)
Definition init (start_x start_y : Z) (flip : bool) (formation_pos : Z * Z)
    (speed_multiplier : float) : result t :=
  p <- create_arc_path start_x start_y flip formation_pos ;;
  match p with
  | [] => Raise IndexError
  | p0 :: _ =>
      Ok {| rect := Rect.set_center (Rect.mk 0 0 70 70) p0;
            path := p;
            current_point := 0;
            speed := fmul (fz 4) speed_multiplier;
            formation_pos := formation_pos;
            state := entering;
            dive_path := [];
            dive_point := 0 |}
  end.

(** The distance from the rectangle's centre to a waypoint,
    [(dx**2 + dy**2) ** 0.5]. *)
Definition distance_to (r : Rect.t) (target : Z * Z) : result float :=
  let dx := fst target - Rect.centerx r in
  let dy := snd target - Rect.centery r in
  pow_half (dx ^ 2 + dy ^ 2).

(** The waypoint-following step shared, word for word, by the entering and
    the diving branch of [update]: the new rectangle, and whether the
    waypoint was reached (the index is then advanced by the caller). *)
Definition follow (r : Rect.t) (target : Z * Z) (speed : float)
    : result (Rect.t * bool) :=
  let dx := fst target - Rect.centerx r in
  let dy := snd target - Rect.centery r in
  distance <- distance_to r target ;;
  if flt distance speed then Ok (Rect.set_center r target, true)
  else
    fdx <- float_of_int dx ;;
    qx <- float_truediv fdx distance ;;
    r1 <- Rect.add_centerx r (fmul qx speed) ;;
    fdy <- float_of_int dy ;;
    qy <- float_truediv fdy distance ;;
    r2 <- Rect.add_centery r1 (fmul qy speed) ;;
    Ok (r2, false).

Definition set_rect (e : t) (r : Rect.t) : t :=
  mk r (path e) (current_point e) (speed e) (formation_pos e) (state e)
     (dive_path e) (dive_point e).
Definition set_current_point (e : t) (n : nat) : t :=
  mk (rect e) (path e) n (speed e) (formation_pos e) (state e)
     (dive_path e) (dive_point e).
Definition set_state (e : t) (s : State) : t :=
  mk (rect e) (path e) (current_point e) (speed e) (formation_pos e) s
     (dive_path e) (dive_point e).
Definition set_dive_path (e : t) (p : Path) : t :=
  mk (rect e) (path e) (current_point e) (speed e) (formation_pos e) (state e)
     p (dive_point e).
Definition set_dive_point (e : t) (n : nat) : t :=
  mk (rect e) (path e) (current_point e) (speed e) (formation_pos e) (state e)
     (dive_path e) n.

(** [EnemyPath.update]. *)
Definition update (e : t) : result t :=
  match state e with
  | entering =>
      if Z.of_nat (current_point e) <? Z.of_nat (length (path e)) - 1 then
        match nth_error (path e) (current_point e) with
        | None => Raise IndexError
        | Some target =>
            '(r, arrived) <- follow (rect e) target (speed e) ;;
            if arrived : bool
            then Ok (set_current_point (set_rect e r) (S (current_point e)))
            else Ok (set_rect e r)
        end
      else
        Ok (set_rect (set_state e formation)
                     (Rect.set_center (rect e) (formation_pos e)))
  | formation =>
      Ok (set_rect e (Rect.set_center (rect e) (formation_pos e)))
  | diving =>
      if Z.of_nat (dive_point e) <? Z.of_nat (length (dive_path e)) then
        match nth_error (dive_path e) (dive_point e) with
        | None => Raise IndexError
        | Some target =>
            '(r, arrived) <- follow (rect e) target (speed e) ;;
            if arrived : bool
            then Ok (set_dive_point (set_rect e r) (S (dive_point e)))
            else Ok (set_rect e r)
        end
      else
        Ok (set_rect (set_state e formation)
                     (Rect.set_center (rect e) (formation_pos e)))
  end.

(** [n] successive calls of [update]. *)
Fixpoint updates (n : nat) (e : t) : result t :=
  match n with
  | O => Ok e
  | S n' => e' <- update e ;; updates n' e'
  end.

End WithLibm.

(** The path is exhausted for the entering branch: the index has reached
    the last waypoint. *)
Definition exhausted (e : t) : Prop :=
  Z.of_nat (length (path e)) - 1 <= Z.of_nat (current_point e).

Definition positive_speed (e : t) : Prop := flt (fz 0) (speed e) = true.

(** In formation, exactly on the formation slot. *)
Definition settled (e : t) : Prop :=
  state e = formation /\ Rect.center (rect e) = formation_pos e.


Definition blank : t :=
  mk (Rect.mk 0 0 70 70) [] 0 (fz 0) (0, 0) entering [] 0.

End EnemyPath.

(* ================================================================= *)
(** ** Bullet and Ship *)

Module Bullet.

Record t : Set := mk { rect : Rect.t; vel_x : Z; vel_y : Z }.

Definition init : t := mk (Rect.mk 0 0 4 4) 0 (-8).

Definition update (b : t) : t :=
  let r := Rect.set_x (rect b) (Rect.x (rect b) + vel_x b) in
  let r := Rect.set_y r (Rect.y r + vel_y b) in
  mk r (vel_x b) (vel_y b).

End Bullet.

Module Ship.

(** [bullets] is the ship's own sprite group, in insertion order. *)
Record t : Set := mk {
  rect : Rect.t;
  bullets : list Bullet.t;
  vel_x : Z;
  vel_y : Z;
  speed : Z
}.

Definition set_rect (s : t) (r : Rect.t) : t :=
  mk r (bullets s) (vel_x s) (vel_y s) (speed s).
Definition set_bullets (s : t) (b : list Bullet.t) : t :=
  mk (rect s) b (vel_x s) (vel_y s) (speed s).
Definition set_vel_x (s : t) (v : Z) : t :=
  mk (rect s) (bullets s) v (vel_y s) (speed s).
Definition set_vel_y (s : t) (v : Z) : t :=
  mk (rect s) (bullets s) (vel_x s) v (speed s).

(** [Ship.__init__]: a 70 by 70 image placed at the bottom of the
    1100 by 1300 playfield. *)
Definition init : t :=
  let r := Rect.mk 0 0 70 70 in
  let r := Rect.set_x r (1100 / 2) in
  let r := Rect.set_y r (1300 - Rect.h r) in
  mk r [] 0 0 5.

(** [Ship.update]: move the bullets, drop those that left the top of the
    playfield, then move and clamp the ship. *)
Definition update (s : t) : t :=
  let bs := map Bullet.update (bullets s) in
  let bs := filter (fun b => negb (Rect.y (Bullet.rect b) <=? 0)) bs in
  let r := Rect.set_x (rect s) (Rect.x (rect s) + vel_x s) in
  let r := if Rect.x r <? 0 then Rect.set_x r 0
           else if 1100 - Rect.w r <=? Rect.x r
                then Rect.set_x r (1100 - Rect.w r)
                else r in
  let r := Rect.set_y r (Rect.y r + vel_y s) in
  mk r bs (vel_x s) (vel_y s) (speed s).

(** [Ship.shoot]: a bullet is created only when the ship owns none. *)
Definition shoot (s : t) : t :=
  if (length (bullets s) =? 0)%nat then
    let b := Bullet.init in
    let r := Rect.set_x (Bullet.rect b)
               (Rect.x (rect s) + Rect.w (rect s) / 2 - 3) in
    let r := Rect.set_y r (Rect.y (rect s)) in
    set_bullets s (bullets s ++ [Bullet.mk r (Bullet.vel_x b) (Bullet.vel_y b)])
  else s.

(** The single-shot rule for one ship. *)
Definition one_shot (s : t) : Prop := (length (bullets s) <= 1)%nat.

End Ship.

(* ================================================================= *)
(** ** EnemySpawner *)

Module EnemySpawner.

(** [enemy_group] is a sprite group in insertion order; an enemy belongs to
    no other group. *)
Record t : Set := mk {
  enemy_group : list EnemyPath.t;
  wave_size : Z;
  formation_y : Z;
  formation_spacing : Z
}.

Definition set_enemy_group (s : t) (g : list EnemyPath.t) : t :=
  mk g (wave_size s) (formation_y s) (formation_spacing s).
Definition set_wave_size (s : t) (n : Z) : t :=
  mk (enemy_group s) n (formation_y s) (formation_spacing s).

Definition init : t := mk [] 40 200 60.

Definition max_cols : Z := 5.
Definition rows : Z := 4.
Definition start_y : Z := 100.
Definition spacing_x : Z := 150.
Definition spacing_y : Z := 90.

Definition cols_of (wave_size : Z) : Z :=
  Z.min max_cols ((wave_size + rows - 1) / rows).
Definition start_x_of (cols : Z) : Z :=
  let formation_width := (cols - 1) * spacing_x in
  (1100 - formation_width) / 2.
Definition slot (start_x row col : Z) : Z * Z :=
  (start_x + col * spacing_x, start_y + row * spacing_y).

(** The cells of the formation, row by row. *)
Definition grid (cols : Z) : list (Z * Z) :=
  flat_map (fun row => map (slot (start_x_of cols) row) (range cols))
           (range rows).

Section WithLibm.
Context {libm : Libm}.

(** The enemy created for one cell of the grid. *)
Definition new_enemy (speed_multiplier : float) (formation_pos : Z * Z)
    : result EnemyPath.t :=
  EnemyPath.init (fst formation_pos) (-70) false formation_pos
                 speed_multiplier.

(** The inner loop over the columns of one row; [break] leaves it as soon as
    [count >= wave_size]. *)
Fixpoint spawn_cols (wave_size : Z) (speed_multiplier : float)
    (start_x row : Z) (cols : list Z) (group : list EnemyPath.t) (count : Z)
    : result (list EnemyPath.t * Z) :=
  match cols with
  | [] => Ok (group, count)
  | col :: cols' =>
      if wave_size <=? count then Ok (group, count)
      else
        e <- new_enemy speed_multiplier (slot start_x row col) ;;
        spawn_cols wave_size speed_multiplier start_x row cols'
                   (group ++ [e]) (count + 1)
  end.

(** The outer loop over the rows. *)
Fixpoint spawn_rows (wave_size : Z) (speed_multiplier : float)
    (start_x cols : Z) (rws : list Z) (group : list EnemyPath.t) (count : Z)
    : result (list EnemyPath.t) :=
  match rws with
  | [] => Ok group
  | row :: rws' =>
      '(group', count') <-
        spawn_cols wave_size speed_multiplier start_x row (range cols)
                   group count ;;
      spawn_rows wave_size speed_multiplier start_x cols rws' group' count'
  end.

(** [EnemySpawner.spawn_wave]; the new enemies are added to the group. *)
Definition spawn_wave (s : t) (speed_multiplier : float) : result t :=
  let cols := cols_of (wave_size s) in
  let start_x := start_x_of cols in
  g <- spawn_rows (wave_size s) speed_multiplier start_x cols (range rows)
                  (enemy_group s) 0 ;;
  Ok (set_enemy_group s g).

(** [EnemySpawner.update]. *)
Definition update (s : t) : result t :=
  g <- mapM EnemyPath.update (enemy_group s) ;;
  Ok (set_enemy_group s g).

End WithLibm.

End EnemySpawner.

(* ================================================================= *)
(** ** Sprite groups of ships

    The ships are shared between [lives_group], [intro_ships],
    [sprite_group], [player] and [intro_left_ship]: a ship is updated once
    for every group that holds it.  The model keeps the ship objects in a
    store and the groups as lists of references, in insertion order. *)

Module Store.

Definition ref : Set := nat.

Definition get (h : list Ship.t) (i : ref) : Ship.t := nth i h Ship.init.

Fixpoint modify (h : list Ship.t) (i : ref) (f : Ship.t -> Ship.t)
    : list Ship.t :=
  match h, i with
  | [], _ => []
  | s :: h', O => f s :: h'
  | s :: h', S i' => s :: modify h' i' f
  end.

(** A new object: its reference is the next free index. *)
Definition alloc (h : list Ship.t) (s : Ship.t) : list Ship.t * ref :=
  (h ++ [s], length h).

Definition mem (i : ref) (g : list ref) : bool := existsb (Nat.eqb i) g.
Definition add (i : ref) (g : list ref) : list ref :=
  if mem i g then g else g ++ [i].
Definition remove (i : ref) (g : list ref) : list ref :=
  filter (fun j => negb (Nat.eqb i j)) g.

(** [Group.update()] on a group of ships. *)
Definition update_group (g : list ref) (h : list Ship.t) : list Ship.t :=
  fold_left (fun h i => modify h i Ship.update) g h.

Definition bullets_ok (h : list Ship.t) : Prop := Forall Ship.one_shot h.

End Store.

(* ================================================================= *)
(** ** GameScene *)

Module GameScene.

Inductive Key : Set :=
| K_a | K_LEFT | K_d | K_RIGHT | K_RETURN | K_SPACE | K_r | K_other.

Inductive Event : Set :=
| KEYDOWN (key : Key)
| KEYUP (key : Key)
| OTHER.

Record t : Set := mk {
  lives : Z;
  lives_group : list nat;
  respawn_timer : Z;
  is_respawning : bool;
  intro_timer : Z;
  start_descent : bool;
  intro_tar_pos : Z * Z;
  intro_moving : bool;
  player_control_enable : bool;
  enemy_spawner : EnemySpawner.t;
  score : Z;
  level : Z;
  speed_multiplier : float;
  extra_life : Z;
  game_over : bool;
  intro_ships : list nat;
  intro_done : bool;
  intro_left_ship : nat;
  player : nat;
  sprite_group : list nat;
  ships : list Ship.t
}.

Definition set_lives (s : t) (v : Z) : t :=
  mk v (lives_group s) (respawn_timer s) (is_respawning s) (intro_timer s)
     (start_descent s) (intro_tar_pos s) (intro_moving s)
     (player_control_enable s) (enemy_spawner s) (score s) (level s)
     (speed_multiplier s) (extra_life s) (game_over s) (intro_ships s)
     (intro_done s) (intro_left_ship s) (player s) (sprite_group s) (ships s).
Definition set_lives_group (s : t) (v : list nat) : t :=
  mk (lives s) v (respawn_timer s) (is_respawning s) (intro_timer s)
     (start_descent s) (intro_tar_pos s) (intro_moving s)
     (player_control_enable s) (enemy_spawner s) (score s) (level s)
     (speed_multiplier s) (extra_life s) (game_over s) (intro_ships s)
     (intro_done s) (intro_left_ship s) (player s) (sprite_group s) (ships s).
Definition set_respawn_timer (s : t) (v : Z) : t :=
  mk (lives s) (lives_group s) v (is_respawning s) (intro_timer s)
     (start_descent s) (intro_tar_pos s) (intro_moving s)
     (player_control_enable s) (enemy_spawner s) (score s) (level s)
     (speed_multiplier s) (extra_life s) (game_over s) (intro_ships s)
     (intro_done s) (intro_left_ship s) (player s) (sprite_group s) (ships s).
Definition set_is_respawning (s : t) (v : bool) : t :=
  mk (lives s) (lives_group s) (respawn_timer s) v (intro_timer s)
     (start_descent s) (intro_tar_pos s) (intro_moving s)
     (player_control_enable s) (enemy_spawner s) (score s) (level s)
     (speed_multiplier s) (extra_life s) (game_over s) (intro_ships s)
     (intro_done s) (intro_left_ship s) (player s) (sprite_group s) (ships s).
Definition set_intro_timer (s : t) (v : Z) : t :=
  mk (lives s) (lives_group s) (respawn_timer s) (is_respawning s) v
     (start_descent s) (intro_tar_pos s) (intro_moving s)
     (player_control_enable s) (enemy_spawner s) (score s) (level s)
     (speed_multiplier s) (extra_life s) (game_over s) (intro_ships s)
     (intro_done s) (intro_left_ship s) (player s) (sprite_group s) (ships s).
Definition set_start_descent (s : t) (v : bool) : t :=
  mk (lives s) (lives_group s) (respawn_timer s) (is_respawning s)
     (intro_timer s) v (intro_tar_pos s) (intro_moving s)
     (player_control_enable s) (enemy_spawner s) (score s) (level s)
     (speed_multiplier s) (extra_life s) (game_over s) (intro_ships s)
     (intro_done s) (intro_left_ship s) (player s) (sprite_group s) (ships s).
Definition set_intro_moving (s : t) (v : bool) : t :=
  mk (lives s) (lives_group s) (respawn_timer s) (is_respawning s)
     (intro_timer s) (start_descent s) (intro_tar_pos s) v
     (player_control_enable s) (enemy_spawner s) (score s) (level s)
     (speed_multiplier s) (extra_life s) (game_over s) (intro_ships s)
     (intro_done s) (intro_left_ship s) (player s) (sprite_group s) (ships s).
Definition set_player_control_enable (s : t) (v : bool) : t :=
  mk (lives s) (lives_group s) (respawn_timer s) (is_respawning s)
     (intro_timer s) (start_descent s) (intro_tar_pos s) (intro_moving s) v
     (enemy_spawner s) (score s) (level s) (speed_multiplier s) (extra_life s)
     (game_over s) (intro_ships s) (intro_done s) (intro_left_ship s) (player
     s) (sprite_group s) (ships s).
Definition set_enemy_spawner (s : t) (v : EnemySpawner.t) : t :=
  mk (lives s) (lives_group s) (respawn_timer s) (is_respawning s)
     (intro_timer s) (start_descent s) (intro_tar_pos s) (intro_moving s)
     (player_control_enable s) v (score s) (level s) (speed_multiplier s)
     (extra_life s) (game_over s) (intro_ships s) (intro_done s)
     (intro_left_ship s) (player s) (sprite_group s) (ships s).
Definition set_score (s : t) (v : Z) : t :=
  mk (lives s) (lives_group s) (respawn_timer s) (is_respawning s)
     (intro_timer s) (start_descent s) (intro_tar_pos s) (intro_moving s)
     (player_control_enable s) (enemy_spawner s) v (level s) (speed_multiplier
     s) (extra_life s) (game_over s) (intro_ships s) (intro_done s)
     (intro_left_ship s) (player s) (sprite_group s) (ships s).
Definition set_level (s : t) (v : Z) : t :=
  mk (lives s) (lives_group s) (respawn_timer s) (is_respawning s)
     (intro_timer s) (start_descent s) (intro_tar_pos s) (intro_moving s)
     (player_control_enable s) (enemy_spawner s) (score s) v (speed_multiplier
     s) (extra_life s) (game_over s) (intro_ships s) (intro_done s)
     (intro_left_ship s) (player s) (sprite_group s) (ships s).
Definition set_speed_multiplier (s : t) (v : float) : t :=
  mk (lives s) (lives_group s) (respawn_timer s) (is_respawning s)
     (intro_timer s) (start_descent s) (intro_tar_pos s) (intro_moving s)
     (player_control_enable s) (enemy_spawner s) (score s) (level s) v
     (extra_life s) (game_over s) (intro_ships s) (intro_done s)
     (intro_left_ship s) (player s) (sprite_group s) (ships s).
Definition set_extra_life (s : t) (v : Z) : t :=
  mk (lives s) (lives_group s) (respawn_timer s) (is_respawning s)
     (intro_timer s) (start_descent s) (intro_tar_pos s) (intro_moving s)
     (player_control_enable s) (enemy_spawner s) (score s) (level s)
     (speed_multiplier s) v (game_over s) (intro_ships s) (intro_done s)
     (intro_left_ship s) (player s) (sprite_group s) (ships s).
Definition set_game_over (s : t) (v : bool) : t :=
  mk (lives s) (lives_group s) (respawn_timer s) (is_respawning s)
     (intro_timer s) (start_descent s) (intro_tar_pos s) (intro_moving s)
     (player_control_enable s) (enemy_spawner s) (score s) (level s)
     (speed_multiplier s) (extra_life s) v (intro_ships s) (intro_done s)
     (intro_left_ship s) (player s) (sprite_group s) (ships s).
Definition set_intro_ships (s : t) (v : list nat) : t :=
  mk (lives s) (lives_group s) (respawn_timer s) (is_respawning s)
     (intro_timer s) (start_descent s) (intro_tar_pos s) (intro_moving s)
     (player_control_enable s) (enemy_spawner s) (score s) (level s)
     (speed_multiplier s) (extra_life s) (game_over s) v (intro_done s)
     (intro_left_ship s) (player s) (sprite_group s) (ships s).
Definition set_intro_done (s : t) (v : bool) : t :=
  mk (lives s) (lives_group s) (respawn_timer s) (is_respawning s)
     (intro_timer s) (start_descent s) (intro_tar_pos s) (intro_moving s)
     (player_control_enable s) (enemy_spawner s) (score s) (level s)
     (speed_multiplier s) (extra_life s) (game_over s) (intro_ships s) v
     (intro_left_ship s) (player s) (sprite_group s) (ships s).
Definition set_intro_left_ship (s : t) (v : nat) : t :=
  mk (lives s) (lives_group s) (respawn_timer s) (is_respawning s)
     (intro_timer s) (start_descent s) (intro_tar_pos s) (intro_moving s)
     (player_control_enable s) (enemy_spawner s) (score s) (level s)
     (speed_multiplier s) (extra_life s) (game_over s) (intro_ships s)
     (intro_done s) v (player s) (sprite_group s) (ships s).
Definition set_player (s : t) (v : nat) : t :=
  mk (lives s) (lives_group s) (respawn_timer s) (is_respawning s)
     (intro_timer s) (start_descent s) (intro_tar_pos s) (intro_moving s)
     (player_control_enable s) (enemy_spawner s) (score s) (level s)
     (speed_multiplier s) (extra_life s) (game_over s) (intro_ships s)
     (intro_done s) (intro_left_ship s) v (sprite_group s) (ships s).
Definition set_sprite_group (s : t) (v : list nat) : t :=
  mk (lives s) (lives_group s) (respawn_timer s) (is_respawning s)
     (intro_timer s) (start_descent s) (intro_tar_pos s) (intro_moving s)
     (player_control_enable s) (enemy_spawner s) (score s) (level s)
     (speed_multiplier s) (extra_life s) (game_over s) (intro_ships s)
     (intro_done s) (intro_left_ship s) (player s) v (ships s).
Definition set_ships (s : t) (v : list Ship.t) : t :=
  mk (lives s) (lives_group s) (respawn_timer s) (is_respawning s)
     (intro_timer s) (start_descent s) (intro_tar_pos s) (intro_moving s)
     (player_control_enable s) (enemy_spawner s) (score s) (level s)
     (speed_multiplier s) (extra_life s) (game_over s) (intro_ships s)
     (intro_done s) (intro_left_ship s) (player s) (sprite_group s) v.

Definition enemies (s : t) : list EnemyPath.t :=
  EnemySpawner.enemy_group (enemy_spawner s).
Definition set_enemies (s : t) (g : list EnemyPath.t) : t :=
  set_enemy_spawner s (EnemySpawner.set_enemy_group (enemy_spawner s) g).
Definition the_player (s : t) : Ship.t := Store.get (ships s) (player s).
Definition modify_ship (s : t) (i : Store.ref) (f : Ship.t -> Ship.t) : t :=
  set_ships s (Store.modify (ships s) i f).

(** [create_dive_path]; [//] is floor division. *)
Definition create_dive_path (start target end_ : Z * Z) : EnemyPath.Path :=
  let mid_x := (fst start + fst target) / 2 in
  let mid_y := (snd start + snd target) / 2 + 200 in
  [(mid_x, mid_y); target; (mid_x, mid_y); end_].

(** [player_death]. *)
Definition player_death (s : t) : t :=
  let s := set_lives s (lives s - 1) in
  let s := set_level s (level s + 1) in
  let s := match rev (lives_group s) with
           | [] => s
           | ship_lost :: _ =>
               set_lives_group s (Store.remove ship_lost (lives_group s))
           end in
  let s := set_sprite_group s (Store.remove (player s) (sprite_group s)) in
  let s := set_intro_ships s (Store.remove (player s) (intro_ships s)) in
  let s := set_lives_group s (Store.remove (player s) (lives_group s)) in
  if 0 <? lives s
  then set_respawn_timer (set_is_respawning s true) 180
  else set_game_over s true.

Section WithLibm.
Context {libm : Libm}.

(** The first block of [update_scene]: every group is updated unless the
    scene is respawning.  The enemies are updated twice, once through the
    group and once through the spawner. *)
Definition update_sprites (s : t) : result t :=
  if is_respawning s then Ok s
  else
    g <- mapM EnemyPath.update (enemies s) ;;
    sp <- EnemySpawner.update (EnemySpawner.set_enemy_group (enemy_spawner s) g) ;;
    let s := set_enemy_spawner s sp in
    let s := set_ships s (Store.update_group (sprite_group s) (ships s)) in
    let s := set_ships s (Store.update_group (lives_group s) (ships s)) in
    let s := set_ships s (Store.update_group (intro_ships s) (ships s)) in
    Ok (modify_ship s (player s)
          (fun p => Ship.set_bullets p (map Bullet.update (Ship.bullets p)))).

(** The intro: the leftmost of three ships travels to the player's start
    position.  The statements of this part of [update_scene] are given one
    definition each, in the order of the source. *)

(** [if not self.intro_done: self.intro_timer += 1] *)
Definition intro_count (s : t) : t :=
  if intro_done s then s else set_intro_timer s (intro_timer s + 1).

(** [if self.intro_timer >= 180 and not self.start_descent: ...] *)
Definition intro_descent (s : t) : t :=
  if (180 <=? intro_timer s) && negb (start_descent s)
  then modify_ship (set_start_descent s true) (player s)
         (fun p => Ship.set_vel_y p 2)
  else s.

(** [self.intro_timer += 1] and [if self.intro_timer == 180: ...] *)
Definition intro_start (s : t) : t :=
  let s := set_intro_timer s (intro_timer s + 1) in
  if intro_timer s =? 180 then set_intro_moving s true else s.

(** [if not self.intro_done and self.intro_moving: ...rect.y += ...vel_y] *)
Definition intro_drift (s : t) : t :=
  if negb (intro_done s) && intro_moving s
  then modify_ship s (intro_left_ship s)
         (fun p => Ship.set_rect p
            (Rect.set_y (Ship.rect p) (Rect.y (Ship.rect p) + Ship.vel_y p)))
  else s.

(** [if self.intro_left_ship.rect.y >= 1200: ...] *)
Definition intro_floor (s : t) : t :=
  if 1200 <=? Rect.y (Ship.rect (Store.get (ships s) (intro_left_ship s)))
  then
    let s := modify_ship s (intro_left_ship s)
               (fun p => Ship.set_vel_y
                  (Ship.set_rect p (Rect.set_y (Ship.rect p) 1200)) 0) in
    set_player_control_enable (set_intro_done s true) true
  else s.

(** The arrival of the intro ship: it becomes the player. *)
Definition intro_arrive (s : t) (target : Z * Z) : t :=
  let ship := intro_left_ship s in
  let s := modify_ship s ship
             (fun p => Ship.set_rect p (Rect.set_center (Ship.rect p) target)) in
  let s := set_intro_moving s false in
  let s := set_intro_done s true in
  let s := set_player s ship in
  let s := set_sprite_group s (Store.add ship (sprite_group s)) in
  let s := modify_ship s (player s) (fun p => Ship.set_vel_y p 0) in
  let s := set_player_control_enable s true in
  set_intro_ships s (Store.remove ship (intro_ships s)).

(** [if self.intro_moving: ...] *)
Definition intro_travel (s : t) : result t :=
  if intro_moving s then
    let ship := intro_left_ship s in
    let r := Ship.rect (Store.get (ships s) ship) in
    let '(target_x, target_y) := intro_tar_pos s in
    let dx := target_x - Rect.centerx r in
    let dy := target_y - Rect.centery r in
    distance <- pow_half (dx ^ 2 + dy ^ 2) ;;
    let speed := 4 in
    if flt (fz speed) distance then
      fdx <- float_of_int dx ;;
      qx <- float_truediv fdx distance ;;
      mx <- int_of_float (fmul qx (fz speed)) ;;
      fdy <- float_of_int dy ;;
      qy <- float_truediv fdy distance ;;
      my <- int_of_float (fmul qy (fz speed)) ;;
      Ok (modify_ship s ship
            (fun p =>
               let r1 := Rect.set_centerx (Ship.rect p)
                           (Rect.centerx (Ship.rect p) + mx) in
               Ship.set_rect p (Rect.set_centery r1 (Rect.centery r1 + my))))
    else Ok (intro_arrive s (target_x, target_y))
  else Ok s.

Definition intro_sequence (s : t) : result t :=
  intro_travel
    (intro_floor (intro_drift (intro_start (intro_descent (intro_count s))))).

(** [pygame.sprite.groupcollide(enemies, bullets, True, True)]: the enemies
    are visited in group order; an enemy overlapping some bullet is killed
    together with every bullet it overlaps.  The result is the enemies hit,
    the enemies left and the bullets left. *)
Fixpoint groupcollide (es : list EnemyPath.t) (bs : list Bullet.t)
    : list EnemyPath.t * list EnemyPath.t * list Bullet.t :=
  match es with
  | [] => ([], [], bs)
  | e :: es' =>
      let hit b := Rect.colliderect (EnemyPath.rect e) (Bullet.rect b) in
      if existsb hit bs then
        let '(hits, rest, bs') :=
          groupcollide es' (filter (fun b => negb (hit b)) bs) in
        (e :: hits, rest, bs')
      else
        let '(hits, rest, bs') := groupcollide es' bs in
        (hits, e :: rest, bs')
  end.

(** The body of the loop [for enemy in hits]. *)
Definition score_hit (s : t) (enemy : EnemyPath.t) : t :=
  let s := match EnemyPath.state enemy with
           | EnemyPath.formation => set_score s (score s + 50)
           | EnemyPath.diving => set_score s (score s + 150)
           | EnemyPath.entering => s
           end in
  if extra_life s <=? score s
  then set_extra_life (set_lives s (lives s + 1)) (extra_life s + 10000)
  else s.

Definition handle_scoring (s : t) : t :=
  let '(hits, rest, bs) := groupcollide (enemies s) (Ship.bullets (the_player s)) in
  let s := set_enemies s rest in
  let s := modify_ship s (player s) (fun p => Ship.set_bullets p bs) in
  fold_left score_hit hits s.

(** The positions, in the group, of the enemies in formation. *)
Definition formation_enemies (g : list EnemyPath.t) : list nat :=
  filter (fun i => match nth_error g i with
                   | Some e => match EnemyPath.state e with
                               | EnemyPath.formation => true
                               | _ => false
                               end
                   | None => false
                   end)
         (seq 0 (length g)).

Fixpoint modify_enemy (g : list EnemyPath.t) (i : nat)
    (f : EnemyPath.t -> EnemyPath.t) : list EnemyPath.t :=
  match g, i with
  | [], _ => []
  | e :: g', O => f e :: g'
  | e :: g', S i' => e :: modify_enemy g' i' f
  end.

(** What the dive trigger does to the chosen enemy. *)
Definition start_dive (player_center : Z * Z) (diver : EnemyPath.t)
    : EnemyPath.t :=
  let diver := EnemyPath.set_state diver EnemyPath.diving in
  let diver := EnemyPath.set_dive_path diver
                 (create_dive_path (Rect.center (EnemyPath.rect diver))
                    player_center (EnemyPath.formation_pos diver)) in
  EnemyPath.set_dive_point diver 0.

(** The dive trigger.  [rnd] is the value of [random.random()] and [pick]
    decides [random.choice]. *)
Definition trigger_dive (s : t) (rnd : float) (pick : nat) : result t :=
  fl <- float_of_int (level s - 1) ;;
  let dive_chance := fadd (lit 1 100) (fmul (lit 2 1000) fl) in
  if intro_done s && flt rnd dive_chance then
    match formation_enemies (enemies s) with
    | [] => Ok s
    | i0 :: others =>
        let cands := i0 :: others in
        let diver := nth (pick mod length cands)%nat cands i0 in
        Ok (set_enemies s
              (modify_enemy (enemies s) diver
                 (start_dive (Rect.center (Ship.rect (the_player s))))))
    end
  else Ok s.

Definition wave_size (s : t) : Z := EnemySpawner.wave_size (enemy_spawner s).

(** The score is below the next extra-life threshold. *)
Definition threshold_ahead (s : t) : Prop := score s < extra_life s.

(** The invariant of the scene: the threshold is ahead of the score and
    no ship owns more than one bullet. *)
Definition Inv (s : t) : Prop :=
  threshold_ahead s /\ Store.bullets_ok (ships s).


(** [pygame.sprite.spritecollideany(player, enemies)], as a truth value. *)
Definition spritecollideany (p : Ship.t) (g : list EnemyPath.t) : bool :=
  existsb (fun e => Rect.colliderect (Ship.rect p) (EnemyPath.rect e)) g.

(** The block "check for collision". *)
Definition check_collision (s : t) : result t :=
  if intro_done s && spritecollideany (the_player s) (enemies s) then
    let s := player_death s in
    let s := set_enemies s [] in
    let sp := EnemySpawner.set_wave_size (enemy_spawner s)
                (Z.min (EnemySpawner.wave_size (enemy_spawner s) + 15) 80) in
    sp <- EnemySpawner.spawn_wave sp (speed_multiplier s) ;;
    let s := set_enemy_spawner s sp in
    Ok (set_respawn_timer (set_is_respawning s true) 180)
  else Ok s.

(** The first block [if self.is_respawning]: the countdown, and a fresh
    player ship on every respawning tick. *)
Definition respawn_player (s : t) : result t :=
  if is_respawning s then
    let s := set_respawn_timer s (respawn_timer s - 1) in
    s <- (if respawn_timer s <=? 0 then
            sp <- EnemySpawner.spawn_wave (enemy_spawner s) (lit 1 1) ;;
            Ok (set_enemy_spawner (set_is_respawning s false) sp)
          else Ok s) ;;
    let s := set_sprite_group s (Store.remove (player s) (sprite_group s)) in
    let s := set_intro_ships s (Store.remove (player s) (intro_ships s)) in
    let new_player :=
      let p := Ship.init in
      let r := Rect.set_centerx (Ship.rect p) (1100 / 2) in
      Ship.set_rect p (Rect.set_y r 1200) in
    let '(h, i) := Store.alloc (ships s) new_player in
    let s := set_player (set_ships s h) i in
    let s := set_sprite_group s (Store.add (player s) (sprite_group s)) in
    Ok (modify_ship s (player s) (fun p => Ship.set_bullets p []))
  else Ok s.

(** The block "add level progression". *)
Definition level_progression (s : t) : result t :=
  if intro_done s && negb (is_respawning s)
     && (length (enemies s) =? 0)%nat then
    let s := set_level s (level s + 1) in
    let s := set_enemy_spawner s
               (EnemySpawner.set_wave_size (enemy_spawner s)
                  (Z.min (40 + level s * 5) 80)) in
    fl <- float_of_int (level s - 1) ;;
    let s := set_speed_multiplier s (fadd (lit 1 1) (fmul fl (lit 15 100))) in
    Ok (set_respawn_timer (set_is_respawning s true) 120)
  else Ok s.

(** The second block [if self.is_respawning]. *)
Definition respawn_countdown (s : t) : result t :=
  if is_respawning s then
    let s := set_respawn_timer s (respawn_timer s - 1) in
    if respawn_timer s <=? 0 then
      sp <- EnemySpawner.spawn_wave (enemy_spawner s) (lit 1 1) ;;
      Ok (set_enemy_spawner (set_is_respawning s false) sp)
    else Ok s
  else Ok s.

(** The state in which [update_scene] reaches its player-enemy collision
    check. *)
Definition before_collision (s : t) (rnd : float) (pick : nat) : result t :=
  s <- update_sprites s ;;
  s <- intro_sequence s ;;
  trigger_dive (handle_scoring s) rnd pick.

(** [update_scene].  The final [if self.game_over: return] is the last
    statement of the method and changes nothing. *)
Definition update_scene (s : t) (rnd : float) (pick : nat) : result t :=
  s <- before_collision s rnd pick ;;
  s <- check_collision s ;;
  s <- respawn_player s ;;
  s <- level_progression s ;;
  respawn_countdown s.

(** [GameScene.__init__]. *)
Definition init : result t :=
  let spawner := EnemySpawner.set_wave_size EnemySpawner.init 40 in
  spawner <- EnemySpawner.spawn_wave spawner (lit 1 1) ;;
  let intro_ship (i : Z) : Ship.t :=
    let p := Ship.init in
    let r := Rect.set_centery (Ship.rect p) 650 in
    let r := Rect.set_centerx r (950 + (i - 1) * 90) in
    Ship.set_vel_y (Ship.set_rect p r) 0 in
  let lives := 3 in
  Ok {| lives := lives;
        lives_group := [0; 1; 2]%nat;
        respawn_timer := if 0 <? lives then 180 else 0;
        is_respawning := 0 <? lives;
        intro_timer := 0;
        start_descent := false;
        intro_tar_pos := (1100 / 2, 1300 - 100);
        intro_moving := false;
        player_control_enable := true;
        enemy_spawner := spawner;
        score := 0;
        level := 1;
        speed_multiplier := lit 1 1;
        extra_life := 10000;
        game_over := negb (0 <? lives);
        intro_ships := [0; 1; 2]%nat;
        intro_done := false;
        intro_left_ship := 0%nat;
        player := 0%nat;
        sprite_group := [];
        ships := map intro_ship (range 3) |}.

(** [handle_event]. *)
Definition handle_event (s : t) (event : Event) : result t :=
  if game_over s then
    match event with
    | KEYDOWN K_r => init
    | _ => Ok s
    end
  else if negb (player_control_enable s) then Ok s
  else
    let p := player s in
    match event with
    | KEYDOWN (K_a | K_LEFT) =>
        Ok (modify_ship s p (fun sh => Ship.set_vel_x sh (- Ship.speed sh)))
    | KEYDOWN (K_d | K_RIGHT) =>
        Ok (modify_ship s p (fun sh => Ship.set_vel_x sh (Ship.speed sh)))
    | KEYDOWN (K_RETURN | K_SPACE) => Ok (modify_ship s p Ship.shoot)
    | KEYUP (K_a | K_LEFT | K_d | K_RIGHT) =>
        Ok (modify_ship s p (fun sh => Ship.set_vel_x sh 0))
    | _ => Ok s
    end.

(** The scenes the game can be in: [__init__], then any sequence of
    [update_scene] and [handle_event] calls. *)
Inductive reachable : t -> Prop :=
| reach_init s : init = Ok s -> reachable s
| reach_update s rnd pick s' :
    reachable s -> update_scene s rnd pick = Ok s' -> reachable s'
| reach_event s ev s' :
    reachable s -> handle_event s ev = Ok s' -> reachable s'.

End WithLibm.

Definition blank : t :=
  {| lives := 0; lives_group := []; respawn_timer := 0; is_respawning := false;
     intro_timer := 0; start_descent := false; intro_tar_pos := (0, 0);
     intro_moving := false; player_control_enable := false;
     enemy_spawner := EnemySpawner.init; score := 0; level := 0;
     speed_multiplier := fz 0; extra_life := 0; game_over := false;
     intro_ships := []; intro_done := false; intro_left_ship := 0%nat;
     player := 0%nat; sprite_group := []; ships := [] |}.

End GameScene.

(* ================================================================= *)
(** ** The main loop of [VideoGame.run], once the game scene is shown:
    the pending event is handed to the scene, then the scene is updated. *)

Module Play.

Record input : Set := mk_input {
  event : GameScene.Event;
  rnd : float;
  pick : nat
}.

Section WithLibm.
Context {libm : Libm}.

Definition frame (s : GameScene.t) (i : input) : result GameScene.t :=
  s <- GameScene.handle_event s (event i) ;;
  GameScene.update_scene s (rnd i) (pick i).

Fixpoint play (s : GameScene.t) (l : list input) : result GameScene.t :=
  match l with
  | [] => Ok s
  | i :: l' => s' <- frame s i ;; play s' l'
  end.

End WithLibm.

End Play.

(* ================================================================= *)
(** ** A reference mathematical library

    The values of the GNU C library, for running the model on concrete
    inputs; the general theorems hold for every library.

    [create_arc_path] evaluates [math.cos] and [math.sin] at sixty fixed
    angles only, [(i / 40) * 2 * math.pi] for [i < 60], whatever its
    arguments.  The table gives, for each of these angles, the library's
    cosine and sine. *)

Module Reference.

Definition table : list (float * (float * float)) := [
    (S754_zero false,
      (S754_finite false 4503599627370496 (-52), S754_zero false));
    (S754_finite false 5659390201622752 (-55),
      (S754_finite false 8896305685324892 (-53), S754_finite false 5636145587704693 (-55)));
    (S754_finite false 5659390201622752 (-54),
      (S754_finite false 8566355544790271 (-53), S754_finite false 5566755282872655 (-54)));
    (S754_finite false 8489085302434128 (-54),
      (S754_finite false 8025473300638829 (-53), S754_finite false 8178365781827072 (-54)));
    (S754_finite false 5659390201622752 (-53),
      (S754_finite false 7286977268806824 (-53), S754_finite false 5294298886396510 (-53)));
    (S754_finite false 7074237752028440 (-53),
      (S754_finite false 6369051672525773 (-53), S754_finite false 6369051672525772 (-53)));
    (S754_finite false 8489085302434128 (-53),
      (S754_finite false 5294298886396510 (-53), S754_finite false 7286977268806824 (-53)));
    (S754_finite false 4951966426419908 (-52),
      (S754_finite false 8178365781827073 (-54), S754_finite false 8025473300638828 (-53)));
    (S754_finite false 5659390201622752 (-52),
      (S754_finite false 5566755282872656 (-54), S754_finite false 8566355544790271 (-53)));
    (S754_finite false 6366813976825596 (-52),
      (S754_finite false 5636145587704695 (-55), S754_finite false 8896305685324892 (-53)));
    (S754_finite false 7074237752028440 (-52),
      (S754_finite false 4967757600021511 (-106), S754_finite false 4503599627370496 (-52)));
    (S754_finite false 7781661527231285 (-52),
      (S754_finite true 5636145587704699 (-55), S754_finite false 8896305685324891 (-53)));
    (S754_finite false 8489085302434128 (-52),
      (S754_finite true 5566755282872654 (-54), S754_finite false 8566355544790272 (-53)));
    (S754_finite false 4598254538818486 (-51),
      (S754_finite true 8178365781827071 (-54), S754_finite false 8025473300638829 (-53)));
    (S754_finite false 4951966426419908 (-51),
      (S754_finite true 5294298886396509 (-53), S754_finite false 7286977268806824 (-53)));
    (S754_finite false 5305678314021330 (-51),
      (S754_finite true 6369051672525772 (-53), S754_finite false 6369051672525773 (-53)));
    (S754_finite false 5659390201622752 (-51),
      (S754_finite true 7286977268806823 (-53), S754_finite false 5294298886396511 (-53)));
    (S754_finite false 6013102089224174 (-51),
      (S754_finite true 8025473300638828 (-53), S754_finite false 8178365781827074 (-54)));
    (S754_finite false 6366813976825596 (-51),
      (S754_finite true 8566355544790271 (-53), S754_finite false 5566755282872657 (-54)));
    (S754_finite false 6720525864427018 (-51),
      (S754_finite true 8896305685324891 (-53), S754_finite false 5636145587704697 (-55)));
    (S754_finite false 7074237752028440 (-51),
      (S754_finite true 4503599627370496 (-52), S754_finite false 4967757600021511 (-105)));
    (S754_finite false 7427949639629862 (-51),
      (S754_finite true 8896305685324892 (-53), S754_finite true 5636145587704688 (-55)));
    (S754_finite false 7781661527231285 (-51),
      (S754_finite true 8566355544790271 (-53), S754_finite true 5566755282872661 (-54)));
    (S754_finite false 8135373414832705 (-51),
      (S754_finite true 8025473300638831 (-53), S754_finite true 8178365781827063 (-54)));
    (S754_finite false 8489085302434128 (-51),
      (S754_finite true 7286977268806825 (-53), S754_finite true 5294298886396509 (-53)));
    (S754_finite false 8842797190035550 (-51),
      (S754_finite true 6369051672525774 (-53), S754_finite true 6369051672525772 (-53)));
    (S754_finite false 4598254538818486 (-50),
      (S754_finite true 5294298886396511 (-53), S754_finite true 7286977268806823 (-53)));
    (S754_finite false 4775110482619197 (-50),
      (S754_finite true 8178365781827075 (-54), S754_finite true 8025473300638828 (-53)));
    (S754_finite false 4951966426419908 (-50),
      (S754_finite true 5566755282872658 (-54), S754_finite true 8566355544790271 (-53)));
    (S754_finite false 5128822370220619 (-50),
      (S754_finite true 5636145587704699 (-55), S754_finite true 8896305685324891 (-53)));
    (S754_finite false 5305678314021330 (-50),
      (S754_finite true 7451636400032266 (-105), S754_finite true 4503599627370496 (-52)));
    (S754_finite false 5482534257822041 (-50),
      (S754_finite false 5636145587704686 (-55), S754_finite true 8896305685324892 (-53)));
    (S754_finite false 5659390201622752 (-50),
      (S754_finite false 5566755282872652 (-54), S754_finite true 8566355544790272 (-53)));
    (S754_finite false 5836246145423463 (-50),
      (S754_finite false 8178365781827070 (-54), S754_finite true 8025473300638830 (-53)));
    (S754_finite false 6013102089224174 (-50),
      (S754_finite false 5294298886396508 (-53), S754_finite true 7286977268806825 (-53)));
    (S754_finite false 6189958033024885 (-50),
      (S754_finite false 6369051672525771 (-53), S754_finite true 6369051672525774 (-53)));
    (S754_finite false 6366813976825596 (-50),
      (S754_finite false 7286977268806823 (-53), S754_finite true 5294298886396512 (-53)));
    (S754_finite false 6543669920626307 (-50),
      (S754_finite false 8025473300638828 (-53), S754_finite true 8178365781827076 (-54)));
    (S754_finite false 6720525864427018 (-50),
      (S754_finite false 8566355544790271 (-53), S754_finite true 5566755282872659 (-54)));
    (S754_finite false 6897381808227729 (-50),
      (S754_finite false 8896305685324891 (-53), S754_finite true 5636145587704702 (-55)));
    (S754_finite false 7074237752028440 (-50),
      (S754_finite false 4503599627370496 (-52), S754_finite true 4967757600021511 (-104)));
    (S754_finite false 7251093695829150 (-50),
      (S754_finite false 8896305685324893 (-53), S754_finite false 5636145587704652 (-55)));
    (S754_finite false 7427949639629862 (-50),
      (S754_finite false 8566355544790272 (-53), S754_finite false 5566755282872651 (-54)));
    (S754_finite false 7604805583430573 (-50),
      (S754_finite false 8025473300638830 (-53), S754_finite false 8178365781827069 (-54)));
    (S754_finite false 7781661527231285 (-50),
      (S754_finite false 7286977268806820 (-53), S754_finite false 5294298886396514 (-53)));
    (S754_finite false 7958517471031995 (-50),
      (S754_finite false 6369051672525774 (-53), S754_finite false 6369051672525771 (-53)));
    (S754_finite false 8135373414832705 (-50),
      (S754_finite false 5294298886396518 (-53), S754_finite false 7286977268806818 (-53)));
    (S754_finite false 8312229358633417 (-50),
      (S754_finite false 8178365781827077 (-54), S754_finite false 8025473300638827 (-53)));
    (S754_finite false 8489085302434128 (-50),
      (S754_finite false 5566755282872661 (-54), S754_finite false 8566355544790271 (-53)));
    (S754_finite false 8665941246234840 (-50),
      (S754_finite false 5636145587704672 (-55), S754_finite false 8896305685324892 (-53)));
    (S754_finite false 8842797190035550 (-50),
      (S754_finite false 6209697000026889 (-104), S754_finite false 4503599627370496 (-52)));
    (S754_finite false 4509826566918130 (-49),
      (S754_finite true 5636145587704650 (-55), S754_finite false 8896305685324893 (-53)));
    (S754_finite false 4598254538818486 (-49),
      (S754_finite true 5566755282872650 (-54), S754_finite false 8566355544790272 (-53)));
    (S754_finite false 4686682510718841 (-49),
      (S754_finite true 8178365781827053 (-54), S754_finite false 8025473300638834 (-53)));
    (S754_finite false 4775110482619197 (-49),
      (S754_finite true 5294298886396508 (-53), S754_finite false 7286977268806826 (-53)));
    (S754_finite false 4863538454519552 (-49),
      (S754_finite true 6369051672525765 (-53), S754_finite false 6369051672525780 (-53)));
    (S754_finite false 4951966426419908 (-49),
      (S754_finite true 7286977268806822 (-53), S754_finite false 5294298886396512 (-53)));
    (S754_finite false 5040394398320264 (-49),
      (S754_finite true 8025473300638831 (-53), S754_finite false 8178365781827064 (-54)));
    (S754_finite false 5128822370220619 (-49),
      (S754_finite true 8566355544790270 (-53), S754_finite false 5566755282872662 (-54)));
    (S754_finite false 5217250342120975 (-49),
      (S754_finite true 8896305685324892 (-53), S754_finite false 5636145587704674 (-55)))
].

Fixpoint lookup (a : float) (l : list (float * (float * float)))
    : option (float * float) :=
  match l with
  | [] => None
  | (k, v) :: l' => if feqb a k then Some v else lookup a l'
  end.

(** The cosine is even and the sine odd; outside the table the reference is
    undefined (NaN). *)
Definition ref_cos (a : float) : float :=
  match lookup (SFabs a) table with
  | Some (c, _) => c
  | None => S754_nan
  end.
Definition ref_sin (a : float) : float :=
  match lookup (SFabs a) table with
  | Some (_, s) => if flt a (fz 0) then fopp s else s
  | None => S754_nan
  end.

(** The power operator is used for [n ** 0.5] only, [n] being the sum of
    the squares of two coordinate differences.  The library's [pow(n, 0.5)]
    is the correctly rounded square root of [n], except for the integers
    listed below, where it is the float next above or next below the
    rounded root.  The lists are complete up to [bound], which covers every
    pair of points of the playfield; beyond it, and for every other
    exponent, the reference is undefined (NaN). *)
Definition bound : Z := 4000000.

Definition above : list positive := [
  3541; 8414; 8415; 12855; 13823; 14317; 19125; 22810; 23653; 23965; 29203;
  30949; 31237; 33258; 33289; 33635; 33656; 33660; 37525; 45162; 48697;
  54054; 55238; 55292; 61106; 63707; 63853; 65733; 76500; 82453; 83682;
  91491; 94266; 94442; 94612; 97373; 100637; 100831; 103694; 103971; 105135;
  115849; 116812; 116825; 117030; 117370; 118803; 121813; 123796; 125357;
  126230; 128685; 129251; 130261; 133156; 134540; 134579; 134624; 134640;
  137446; 140677; 140821; 142262; 143607; 145271; 150100; 151653; 151663;
  153878; 158741; 160028; 161718; 170509; 178041; 178189; 179010; 179083;
  179991; 180648; 184280; 186522; 192301; 193917; 194788; 196651; 200823;
  202978; 203081; 203130; 205680; 207727; 207801; 212669; 214499; 214525;
  216199; 216216; 216591; 217198; 218955; 219122; 219163; 220662; 220952;
  221168; 223785; 223997; 229072; 231109; 231382; 231921; 237251; 238327;
  241625; 244393; 244424; 244709; 247251; 247869; 249359; 249476; 249690;
  249873; 254801; 254828; 255337; 255412; 262932; 264154; 270958; 275306;
  277653; 281535; 288342; 291389; 292751; 293428; 296940; 299867; 306303;
  306693; 313369; 316421; 318077; 318209; 323389; 329812; 331266; 334622;
  334630; 334638; 334728; 339149; 351683; 353047; 356984; 364960; 365257;
  365964; 369730; 377064; 377768; 378448; 385291; 388915; 389365; 389492;
  391765; 392359; 393311; 401626; 402548; 403324; 406918; 410590; 410822;
  415882; 415884; 419261; 420540; 423793; 426437; 428910; 429274; 429390;
  430174; 434535; 445145; 448526; 452345; 461849; 462609; 463396; 467242;
  467248; 467300; 467781; 468334; 469480; 477382; 477758; 479103; 479229;
  483951; 487252; 488980; 489120; 489322; 493893; 499792; 501428; 504463;
  505006; 505523; 509518; 510550; 514740; 515298; 515457; 516527; 517004;
  520845; 520854; 521044; 521057; 524975; 525175; 529453; 530587; 532128;
  532624; 532714; 533653; 538160; 538496; 538560; 545530; 549009; 549784;
  549965; 552870; 554927; 556210; 562370; 562708; 562753; 562867; 564222;
  566697; 567511; 568757; 569048; 574406; 574428; 574689; 585963; 586670;
  586701; 589815; 589833; 599822; 600114; 600400; 600506; 600569; 600923;
  601145; 605303; 606463; 606612; 606652; 606695; 611095; 613029; 614033;
  614073; 615512; 620237; 621323; 624883; 627890; 631789; 634625; 635475;
  644933; 645155; 646872; 647177; 647481; 648494; 650347; 656322; 662530;
  666877; 667525; 667961; 668837; 670969; 673937; 674738; 677295; 682036;
  690072; 691017; 691030; 691105; 693680; 699243; 710849; 711146; 712143;
  712164; 712756; 714586; 716040; 716332; 719249; 719964; 722592; 736690;
  737045; 737171; 737265; 737414; 737711; 737885; 738440; 738901; 746331;
  750666; 760898; 761148; 764366; 769204; 769369; 770097; 770252; 775668;
  777517; 779029; 779152; 779530; 779661; 785553; 785630; 785883; 786001;
  786163; 786235; 786267; 786357; 786604; 788829; 789971; 795669; 796158;
  801022; 803133; 803292; 803954; 812324; 812520; 813930; 814273; 822887;
  830908; 831106; 831199; 839546; 840153; 847923; 850676; 857996; 860886;
  864796; 864849; 864864; 864905; 865210; 866364; 868742; 868792; 875757;
  875759; 875820; 876488; 876609; 876652; 877740; 878053; 878647; 880453;
  882648; 883808; 884587; 884672; 884675; 887126; 887129; 887247; 887294;
  887449; 887838; 894174; 895007; 895140; 895422; 895907; 895988; 898954;
  905477; 914950; 915124; 923723; 924367; 924781; 925087; 925528; 927684;
  931717; 933089; 935250; 943341; 953308; 955501; 957304; 957486; 962450;
  963367; 965628; 965942; 966341; 966500; 973915; 974873; 974951; 977425;
  977572; 977696; 978381; 978470; 978613; 978836; 979838; 988851; 989045;
  989146; 989539; 991476; 996007; 998760; 999315; 999475; 999492; 999596;
  999844; 1000030; 1002410; 1007477; 1008615; 1008766; 1008839; 1008945;
  1009804; 1010687; 1011005; 1019204; 1019312; 1019997; 1020470; 1021214;
  1021348; 1021648; 1031155; 1032474; 1032633; 1032635; 1032808; 1033160;
  1036019; 1040675; 1041355; 1043426; 1044495; 1045208; 1051728; 1052441;
  1054279; 1054877; 1055149; 1056616; 1069354; 1072614; 1077162; 1083832;
  1089990; 1089994; 1090129; 1090911; 1092199; 1092274; 1092773; 1101901;
  1110612; 1111761; 1113245; 1113988; 1115476; 1123823; 1124099; 1127169;
  1134233; 1149319; 1150913; 1151163; 1151237; 1151273; 1151413; 1151913;
  1152574; 1153368; 1160714; 1160874; 1162630; 1165556; 1165607; 1171004;
  1173997; 1174086; 1179331; 1183883; 1196719; 1197601; 1197642; 1197980;
  1198721; 1199681; 1201179; 1212207; 1212363; 1212634; 1213417; 1218343;
  1221975; 1223431; 1225212; 1226165; 1227419; 1230154; 1230190; 1240833;
  1241146; 1241786; 1241923; 1241999; 1242007; 1248044; 1252357; 1252449;
  1252514; 1252586; 1252834; 1253101; 1253246; 1253476; 1262618; 1268732;
  1268773; 1272308; 1272836; 1281112; 1293750; 1293793; 1296309; 1296771;
  1297677; 1299342; 1299719; 1300650; 1318382; 1318527; 1318766; 1319248;
  1320554; 1321189; 1321267; 1325064; 1337050; 1338488; 1338520; 1338552;
  1338912; 1339935; 1347058; 1350959; 1351926; 1352109; 1356596; 1388106;
  1405685; 1406393; 1406543; 1406732; 1409695; 1409954; 1409998; 1412188;
  1412630; 1412958; 1413051; 1425796; 1426579; 1426638; 1426984; 1427332;
  1434257; 1438631; 1445204; 1445755; 1446790; 1450390; 1457507; 1460934;
  1461435; 1462739; 1463174; 1463856; 1478920; 1480467; 1484455; 1486177;
  1489917; 1491851; 1493001; 1508256; 1511072; 1511313; 1513792; 1524553;
  1533760; 1539084; 1551399; 1554822; 1555965; 1556238; 1557460; 1557968;
  1566180; 1567060; 1569034; 1569223; 1569436; 1570458; 1570805; 1571621;
  1572033; 1573244; 1577559; 1580195; 1585787; 1588977; 1602487; 1606504;
  1607204; 1607732; 1608141; 1608165; 1608266; 1610097; 1610115; 1610192;
  1611733; 1613296; 1624376; 1637564; 1638767; 1640035; 1641131; 1644717;
  1645185; 1645818; 1659104; 1659349; 1660122; 1660203; 1663536; 1666865;
  1673053; 1677044; 1678491; 1679758; 1680454; 1682160; 1683498; 1685338;
  1695178; 1695457; 1695709; 1696237; 1697070; 1697852; 1698906; 1701519;
  1704635; 1705748; 1717096; 1717560; 1717675; 1718857; 1720521; 1720547;
  1720696; 1722255; 1726004; 1731467; 1735139; 1735177; 1736786; 1737362;
  1738140; 1752133; 1753268; 1756022; 1764729; 1764948; 1770457; 1771658;
  1773195; 1773237; 1773572; 1773847; 1773886; 1773948; 1774883; 1775062;
  1777309; 1777343; 1778626; 1780580; 1784617; 1785669; 1786229; 1788563;
  1791144; 1794104; 1794469; 1798935; 1806822; 1808589; 1809603; 1811211;
  1811539; 1811563; 1811663; 1811695; 1823430; 1827662; 1827871; 1828006;
  1828286; 1829167; 1829704; 1830071; 1830507; 1830731; 1830735; 1830902;
  1831253; 1831670; 1832245; 1834278; 1847396; 1847491; 1847501; 1849773;
  1850187; 1850436; 1850951; 1853579; 1853584; 1866042; 1868992; 1869200;
  1869437; 1872197; 1872747; 1873336; 1873439; 1873678; 1873769; 1874143;
  1874379; 1877920; 1891468; 1891785; 1892907; 1908750; 1909528; 1913154;
  1913534; 1914306; 1916412; 1916916; 1938167; 1938755; 1949008; 1952567;
  1955703; 1955921; 1956057; 1957045; 1959445; 1960490; 1964147; 1970975;
  1975485; 1975572; 1976808; 1977633; 1984115; 1993831; 1996084; 1996178;
  1996794; 1997033; 1998054; 1999289; 2005712; 2010754; 2016187; 2016650;
  2019074; 2019680; 2020024; 2022092; 2023183; 2037413; 2038072; 2039811;
  2039848; 2042247; 2058129; 2058960; 2061614; 2061828; 2061915; 2061945;
  2063713; 2064403; 2065085; 2066108; 2066191; 2068016; 2070933; 2082719;
  2083380; 2083416; 2084176; 2084228; 2084754; 2085643; 2087874; 2099900;
  2100700; 2104985; 2105225; 2107590; 2109855; 2117812; 2130496; 2130856;
  2131585; 2132202; 2132671; 2133121; 2133707; 2134207; 2134563; 2134612;
  2151682; 2152640; 2153079; 2153119; 2153263; 2153264; 2153532; 2153639;
  2153984; 2154240; 2155117; 2173036; 2173172; 2174295; 2175282; 2175666;
  2176227; 2176779; 2177403; 2178090; 2180223; 2180414; 2180573; 2182538;
  2183863; 2185238; 2185418; 2194477; 2196036; 2196239; 2196754; 2197459;
  2199136; 2199158; 2199860; 2200443; 2201657; 2206459; 2208438; 2211480;
  2212586; 2216398; 2217581; 2219159; 2219708; 2220674; 2221163; 2221387;
  2226299; 2228510; 2229051; 2229211; 2239649; 2245623; 2246477; 2247395;
  2247459; 2247838; 2249027; 2249426; 2249480; 2249622; 2250390; 2250463;
  2250565; 2250832; 2251012; 2251415; 2251468; 2252097; 2253136; 2253985;
  2256731; 2256888; 2266788; 2270044; 2272527; 2272714; 2273585; 2274714;
  2275685; 2276192; 2277674; 2286050; 2289323; 2290819; 2298331; 2298810;
  2299221; 2300424; 2301557; 2301807; 2302746; 2303393; 2303398; 2303942;
  2305185; 2305776; 2307515; 2328502; 2342329; 2343852; 2345826; 2346804;
  2351130; 2359260; 2359332; 2366987; 2367107; 2369413; 2374177; 2375663;
  2376107; 2377097; 2377562; 2378271; 2378478; 2391405; 2392018; 2392243;
  2397894; 2398636; 2398905; 2399288; 2399731; 2399786; 2400456; 2400511;
  2400746; 2401157; 2401600; 2402276; 2403855; 2419914; 2421212; 2425078;
  2425852; 2426448; 2426538; 2426608; 2426831; 2430216; 2441158; 2444098;
  2444380; 2447151; 2448001; 2448069; 2448419; 2450433; 2450941; 2452098;
  2452116; 2459915; 2460053; 2460126; 2460966; 2462048; 2462252; 2473304;
  2474212; 2479355; 2480543; 2480762; 2480786; 2480948; 2481491; 2481869;
  2482071; 2482417; 2482841; 2483647; 2484129; 2485226; 2485292; 2485503;
  2486046; 2486509; 2486758; 2488206; 2490991; 2498826; 2499532; 2501671;
  2502025; 2509174; 2512898; 2516115; 2520033; 2527156; 2529358; 2530793;
  2530958; 2535750; 2536286; 2536657; 2537451; 2538289; 2538500; 2539741;
  2541900; 2553998; 2554089; 2560448; 2561025; 2564241; 2579019; 2580620;
  2586628; 2587488; 2588629; 2588708; 2589542; 2589907; 2589924; 2590001;
  2597065; 2601019; 2601388; 2605414; 2616346; 2618532; 2618571; 2618677;
  2618753; 2620647; 2621379; 2622042; 2622558; 2622674; 2622848; 2623070;
  2624178; 2624799; 2625188; 2625288; 2627285; 2638612; 2639171; 2639419;
  2640187; 2640678; 2640695; 2641106; 2641386; 2641641; 2641843; 2642439;
  2642980; 2643061; 2643751; 2643772; 2644798; 2645643; 2654615; 2662756;
  2667508; 2668383; 2670100; 2670270; 2671570; 2671617; 2671844; 2675348;
  2677053; 2677204; 2677818; 2679121; 2683876; 2689691; 2695748; 2696018;
  2696347; 2698185; 2698952; 2699863; 2701510; 2701690; 2702330; 2702427;
  2702822; 2704003; 2705799; 2706635; 2727301; 2728144; 2734666; 2735295;
  2735866; 2736421; 2738018; 2738674; 2740595; 2742133; 2756571; 2758875;
  2759083; 2761043; 2761150; 2763114; 2764420; 2764715; 2765198; 2765199;
  2765541; 2766998; 2767267; 2767995; 2768365; 2774720; 2776143; 2780317;
  2784299; 2790380; 2791118; 2791755; 2792185; 2793762; 2793811; 2804257;
  2804527; 2805829; 2806737; 2806818; 2815063; 2820415; 2827234; 2843396;
  2844703; 2848572; 2848656; 2850734; 2851024; 2852882; 2852986; 2853695;
  2854650; 2859602; 2860915; 2864160; 2864562; 2865328; 2866146; 2866811;
  2873891; 2876996; 2877227; 2879856; 2879945; 2886599; 2887183; 2887878;
  2888143; 2888506; 2889823; 2889839; 2890115; 2890368; 2890621; 2897514;
  2898835; 2899091; 2914171; 2914491; 2914825; 2915315; 2916109; 2916196;
  2918505; 2919197; 2919358; 2919845; 2920442; 2921259; 2921614; 2921694;
  2921969; 2922204; 2922251; 2940366; 2942347; 2942707; 2945741; 2946121;
  2946237; 2946760; 2946817; 2947489; 2947702; 2948101; 2948180; 2948439;
  2948480; 2948504; 2948684; 2949051; 2949060; 2949237; 2949656; 2949699;
  2953381; 2955604; 2961795; 2962622; 2964571; 2969387; 2983961; 2984352;
  2984419; 2984451; 2985069; 2985324; 3002664; 3003047; 3003562; 3014092;
  3014193; 3016939; 3023363; 3024037; 3041162; 3042811; 3043592; 3049002;
  3050199; 3051050; 3057179; 3057464; 3064649; 3070419; 3070589; 3072735;
  3072781; 3074286; 3074730; 3074775; 3075567; 3076219; 3076553; 3076792;
  3076816; 3077395; 3077476; 3077825; 3078617; 3079108; 3079286; 3080087;
  3080388; 3082841; 3092598; 3102672; 3104638; 3115678; 3116243; 3116608;
  3116681; 3118120; 3141105; 3141625; 3142212; 3142520; 3143358; 3143594;
  3143650; 3144089; 3144219; 3144652; 3145922; 3146416; 3146858; 3147017;
  3147397; 3148262; 3149262; 3149729; 3150926; 3155316; 3159884; 3164342;
  3166531; 3170909; 3177365; 3178532; 3179371; 3180899; 3203330; 3204088;
  3213168; 3214411; 3216793; 3217466; 3217541; 3218419; 3218474; 3219094;
  3219146; 3220833; 3221077; 3224441; 3224809; 3244175; 3245710; 3245749;
  3247610; 3247648; 3248621; 3248727; 3249296; 3249672; 3249963; 3250080;
  3250590; 3251955; 3252765; 3254411; 3254545; 3255266; 3255843; 3256025;
  3256163; 3256646; 3257092; 3259442; 3262526; 3264602; 3279486; 3287510;
  3287674; 3287945; 3288086; 3289994; 3290197; 3290880; 3290925; 3291548;
  3291941; 3292563; 3292827; 3295506; 3295702; 3299379; 3313530; 3318376;
  3318818; 3318993; 3319102; 3319207; 3319863; 3320046; 3321132; 3322203;
  3322504; 3323366; 3323632; 3324167; 3324315; 3324424; 3324489; 3324636;
  3324796; 3324816; 3326197; 3326530; 3326966; 3327177; 3331423; 3332879;
  3349654; 3350249; 3351402; 3351425; 3353401; 3356383; 3356835; 3356839;
  3357762; 3357894; 3358184; 3358751; 3366850; 3370345; 3370570; 3373672;
  3381395; 3382405; 3384770; 3384802; 3387450; 3397545; 3399046; 3400222;
  3402704; 3407943; 3424737; 3427741; 3428767; 3429735; 3430435; 3431081;
  3431259; 3431984; 3432094; 3432400; 3441050; 3441577; 3443544; 3443669;
  3443803; 3444099; 3459184; 3459387; 3459396; 3459456; 3459538; 3459620;
  3460547; 3460840; 3461187; 3462406; 3463242; 3464522; 3465150; 3465456;
  3470575; 3472030; 3472345; 3474562; 3474968; 3475027; 3475168; 3493439;
  3496134; 3501286; 3502342; 3502649; 3502790; 3503028; 3503036; 3503073;
  3503156; 3503229; 3503280; 3503404; 3503757; 3504129; 3504323; 3504473;
  3505561; 3505833; 3505952; 3506063; 3506436; 3506608; 3510893; 3513994;
  3514155; 3514588; 3516526; 3521812; 3525114; 3530592; 3533906; 3534631;
  3535146; 3535232; 3537214; 3537898; 3538348; 3538688; 3538700; 3538735;
  3540757; 3546406; 3546621; 3547397; 3548229; 3548504; 3548988; 3549796;
  3549990; 3550934; 3568730; 3575446; 3576696; 3579513; 3580355; 3580560;
  3580730; 3581688; 3583628; 3583952; 3584321; 3585470; 3585637; 3588855;
  3589301; 3592279; 3594914; 3595816; 3595825; 3598362; 3599302; 3599443;
  3607939; 3619529; 3620550; 3621908; 3624421; 3626590; 3626967; 3627829;
  3628230; 3636533; 3636683; 3637698; 3648569; 3648665; 3657806; 3662241;
  3664626; 3664926; 3665152; 3665411; 3665695; 3667185; 3667298; 3667462;
  3667959; 3668093; 3668172; 3675847; 3694892; 3697468; 3697744; 3698532;
  3698751; 3699124; 3699382; 3699903; 3700348; 3700734; 3701181; 3701321;
  3701405; 3701886; 3702112; 3702325; 3702683; 3708991; 3710736; 3714187;
  3719445; 3726868; 3730539; 3732356; 3732402; 3732477; 3732507; 3734699;
  3735059; 3736791; 3737646; 3746766; 3748471; 3751031; 3752893; 3752906;
  3755894; 3757166; 3772766; 3773364; 3779359; 3784278; 3784345; 3784642;
  3785882; 3786268; 3786414; 3786710; 3786881; 3786971; 3787322; 3790189;
  3790954; 3791147; 3796814; 3802670; 3813232; 3819955; 3821855; 3822004;
  3823141; 3824529; 3835111; 3841626; 3841695; 3842270; 3849800; 3852406;
  3853023; 3853237; 3853468; 3855425; 3857271; 3861301; 3861894; 3862753;
  3863533; 3863768; 3864633; 3865034; 3865431; 3866000; 3866350; 3870670;
  3895660; 3897161; 3897201; 3899492; 3900493; 3900762; 3903725; 3904361;
  3904633; 3904790; 3906194; 3907500; 3907880; 3908842; 3909427; 3909700;
  3910288; 3910784; 3912237; 3913524; 3913558; 3915344; 3918259; 3918591;
  3918873; 3919352; 3919958; 3922473; 3924198; 3925325; 3952925; 3952958;
  3953430; 3954142; 3954215; 3954620; 3954820; 3955404; 3955667; 3956016;
  3956180; 3956584; 3956604; 3956867; 3957137; 3957403; 3958156; 3958437;
  3965198; 3965767; 3965835; 3965904; 3966439; 3967355; 3984028; 3989218;
  3989355; 3989744; 3989917; 3990381; 3991616; 3991883; 3993655; 3995040;
  3995122; 3995806; 3995850; 3997063; 3997174; 3997818; 3997900; 3997968;
  3998373
]%positive.

Definition below : list positive := [
  2921; 5579; 7827; 11271; 11684; 13614; 14170; 16049; 17745; 20481; 22316;
  24143; 24405; 31308; 31626; 34085; 45077; 45541; 46603; 46617; 46736;
  48765; 49509; 50569; 50666; 54456; 57311; 57386; 60462; 60638; 64196;
  70789; 70980; 71877; 72633; 75181; 77663; 80169; 80193; 80302; 81924;
  85678; 89264; 94188; 94329; 96572; 101670; 107175; 107229; 108715; 112325;
  115745; 115961; 118527; 123351; 125232; 126504; 128029; 130397; 130813;
  137622; 138003; 144785; 152170; 153442; 162331; 165493; 169782; 170901;
  172644; 174693; 176734; 177031; 178701; 180308; 180336; 186412; 186468;
  186944; 188667; 189763; 190369; 191239; 192793; 195033; 195060; 198036;
  199313; 199386; 202276; 204763; 204865; 211745; 217824; 221658; 225858;
  226720; 229111; 229544; 232254; 233698; 234094; 234161; 236466; 237339;
  238486; 238750; 238991; 239874; 241318; 241690; 241848; 242391; 242552;
  246154; 246733; 246747; 253137; 254423; 256784; 259929; 262694; 265261;
  266751; 278366; 278937; 282463; 283156; 283920; 287207; 290532; 295973;
  300724; 302381; 303966; 304102; 307077; 310652; 311170; 319301; 320073;
  320676; 320772; 321208; 324225; 327694; 327696; 340457; 341529; 341627;
  342712; 345476; 346127; 349489; 350134; 356507; 357056; 359794; 368767;
  377337; 377935; 380377; 380718; 386042; 386288; 387998; 389353; 390898;
  398099; 398182; 398851; 402362; 405970; 406930; 408015; 414070; 414135;
  414790; 417002; 428105; 434377; 434860; 437749; 439209; 447926; 449300;
  451666; 452059; 453222; 463835; 463844; 467091; 467182; 471635; 472267;
  482279; 482683; 484695; 493067; 494969; 499001; 500359; 500871; 500928;
  504975; 505245; 505561; 506016; 512116; 521588; 523252; 530709; 544708;
  544974; 545360; 551125; 552012; 557269; 557639; 566173; 575643; 578554;
  579140; 579209; 580061; 580280; 580411; 580418; 580669; 587758; 587930;
  588316; 595014; 596181; 601919; 606901; 606985; 607034; 607653; 608680;
  608738; 610443; 611633; 618881; 619095; 619790; 619894; 625755; 626129;
  626251; 627673; 627980; 633835; 633880; 638850; 648994; 649324; 655304;
  655500; 655592; 655927; 656503; 656597; 656861; 657183; 659717; 660054;
  662107; 669930; 678487; 679128; 683604; 691265; 691581; 691635; 692515;
  692595; 697449; 706418; 706627; 706936; 708124; 709495; 714670; 720394;
  720727; 721232; 722335; 728656; 728733; 729467; 729981; 730797; 731051;
  731879; 741874; 743741; 744197; 745074; 745648; 745789; 745872; 746500;
  747601; 747776; 748019; 748884; 753262; 753917; 753975; 757177; 759030;
  759052; 761454; 764956; 766779; 771172; 778399; 780132; 780240; 781725;
  787349; 789108; 792144; 794651; 794797; 795427; 795694; 795802; 795994;
  797252; 797266; 797544; 804375; 804395; 804596; 809104; 817749; 818702;
  819052; 819460; 820694; 821213; 822744; 829017; 829717; 830199; 839833;
  841177; 846980; 847830; 848739; 850265; 850714; 851239; 856030; 858578;
  858811; 859147; 868060; 868785; 871296; 873555; 885562; 885673; 888350;
  888925; 894107; 894170; 894195; 894601; 896697; 897352; 903432; 903443;
  904819; 905124; 905253; 905437; 916444; 916865; 916976; 918009; 918176;
  923711; 925902; 926735; 926845; 927086; 928265; 929016; 932289; 936376;
  936644; 936669; 937048; 937069; 937098; 941055; 943073; 944716; 944734;
  944749; 944927; 945022; 945576; 945624; 945809; 945864; 949356; 949680;
  951510; 953944; 954798; 955000; 955129; 955964; 956089; 957906; 958149;
  959496; 961954; 965272; 966763; 967110; 967290; 967392; 967607; 969564;
  970208; 986932; 986988; 997500; 998422; 998487; 1004761; 1008983; 1009474;
  1011802; 1012473; 1012548; 1012995; 1017111; 1017692; 1018307; 1021499;
  1022455; 1023947; 1023962; 1024303; 1027136; 1027554; 1027761; 1030293;
  1031132; 1031259; 1031427; 1034202; 1035145; 1038541; 1039452; 1039716;
  1043783; 1052763; 1061044; 1064791; 1066761; 1067004; 1067212; 1067578;
  1076370; 1077335; 1077614; 1086673; 1098713; 1099046; 1099902; 1100434;
  1105237; 1113464; 1114455; 1125374; 1129852; 1132624; 1132966; 1133799;
  1135680; 1136521; 1136684; 1148828; 1149385; 1149519; 1153802; 1171421;
  1183892; 1184781; 1185755; 1188462; 1188574; 1188619; 1188957; 1202896;
  1203573; 1204199; 1208841; 1209524; 1215864; 1216408; 1217373; 1223951;
  1226098; 1234004; 1239719; 1242608; 1243211; 1244014; 1244503; 1244680;
  1257743; 1264112; 1271449; 1277204; 1277598; 1278173; 1279081; 1279830;
  1280292; 1280337; 1281970; 1282133; 1282399; 1282465; 1282704; 1282823;
  1282922; 1283088; 1284832; 1293835; 1294023; 1295223; 1296895; 1307435;
  1307698; 1307719; 1308059; 1308378; 1308411; 1309079; 1309394; 1309602;
  1310271; 1310381; 1310776; 1310784; 1315434; 1323125; 1326387; 1328613;
  1336230; 1349182; 1353403; 1356513; 1361828; 1362481; 1363891; 1364276;
  1366030; 1366116; 1366291; 1366508; 1366901; 1370848; 1372942; 1384508;
  1385639; 1392527; 1393930; 1399414; 1400309; 1400345; 1400377; 1400536;
  1407557; 1417675; 1422394; 1422589; 1427893; 1428224; 1439176; 1439491;
  1441271; 1446762; 1447479; 1458122; 1459013; 1459757; 1461049; 1472113;
  1472983; 1473730; 1474390; 1474484; 1475068; 1476203; 1479733; 1486925;
  1487997; 1490103; 1491192; 1491554; 1502819; 1505621; 1506014; 1507008;
  1507955; 1509264; 1509348; 1511740; 1518962; 1519557; 1521493; 1521508;
  1521665; 1521797; 1522687; 1522872; 1524062; 1537513; 1540251; 1540883;
  1543499; 1543849; 1544168; 1545152; 1546861; 1551992; 1554565; 1557412;
  1563592; 1563617; 1573973; 1574252; 1574925; 1580797; 1588926; 1589330;
  1591635; 1592728; 1592821; 1593547; 1595246; 1595404; 1596307; 1598334;
  1608939; 1610443; 1623880; 1625429; 1625907; 1625954; 1626137; 1626720;
  1627087; 1627458; 1627720; 1629075; 1631469; 1640450; 1641222; 1642639;
  1648039; 1656280; 1656540; 1657039; 1657538; 1658335; 1659546; 1662186;
  1667213; 1668008; 1679842; 1687402; 1697703; 1698042; 1702918; 1710731;
  1711303; 1712399; 1712420; 1712447; 1712699; 1712819; 1713265; 1714205;
  1714209; 1714407; 1714800; 1715613; 1715664; 1727747; 1728506; 1733044;
  1733905; 1733927; 1739440; 1750996; 1755351; 1755797; 1756836; 1767386;
  1769082; 1771267; 1789793; 1790139; 1792424; 1792759; 1792949; 1793275;
  1793384; 1795507; 1795651; 1796343; 1796397; 1796417; 1797200; 1806236;
  1806664; 1808236; 1808638; 1815814; 1815822; 1817973; 1818910; 1826934;
  1838174; 1847246; 1851920; 1854809; 1855340; 1855376; 1856262; 1856811;
  1857133; 1857691; 1857979; 1865531; 1866030; 1866558; 1868364; 1868728;
  1876463; 1876647; 1886186; 1886540; 1886946; 1887334; 1887381; 1887741;
  1888714; 1888931; 1889068; 1892867; 1893698; 1893988; 1897006; 1909273;
  1910093; 1910426; 1910478; 1911883; 1915211; 1920467; 1926534; 1928815;
  1929116; 1930125; 1930732; 1930750; 1933158; 1933339; 1934987; 1936152;
  1938780; 1940942; 1947861; 1950506; 1953430; 1953478; 1966887; 1966898;
  1968233; 1969117; 1971625; 1971778; 1972268; 1972353; 1972705; 1973271;
  1973616; 1974634; 1975777; 1976951; 1977029; 1978273; 1979876; 1979990;
  1982726; 1990454; 1996019; 1997825; 1998058; 2000187; 2000695; 2001436;
  2003484; 2003712; 2005385; 2013691; 2022244; 2022897; 2023025; 2024064;
  2025817; 2036819; 2042598; 2043480; 2044418; 2048464; 2070249; 2076935;
  2079814; 2085513; 2091717; 2092253; 2093008; 2111422; 2117458; 2122836;
  2126767; 2131333; 2136038; 2137106; 2137973; 2138257; 2138425; 2139370;
  2139477; 2146527; 2147217; 2147737; 2147869; 2149498; 2159191; 2159318;
  2162798; 2165137; 2168667; 2186939; 2201952; 2202149; 2202173; 2202482;
  2202543; 2202633; 2202677; 2203250; 2203877; 2203977; 2204500; 2204943;
  2204963; 2208048; 2224823; 2224825; 2224933; 2225682; 2230556; 2232835;
  2233126; 2264692; 2264817; 2268947; 2269465; 2270838; 2272477; 2273057;
  2273523; 2275404; 2275738; 2276488; 2279505; 2281485; 2291885; 2293917;
  2294725; 2296390; 2300369; 2314216; 2319497; 2320244; 2320499; 2321644;
  2321672; 2322195; 2322676; 2327306; 2347432; 2348154; 2348499; 2349032;
  2349967; 2350211; 2351230; 2351279; 2351434; 2351719; 2351720; 2351915;
  2352167; 2352671; 2352741; 2353146; 2354450; 2355483; 2366146; 2371745;
  2371999; 2372954; 2373082; 2378982; 2379551; 2379783; 2379842; 2379871;
  2380056; 2381671; 2382038; 2382266; 2384724; 2401314; 2406106; 2406261;
  2406547; 2407676; 2410142; 2415459; 2418347; 2419349; 2421005; 2427604;
  2427785; 2428515; 2428518; 2430612; 2431338; 2431874; 2432065; 2432994;
  2433867; 2434720; 2434952; 2435079; 2436406; 2436467; 2441772; 2446532;
  2453809; 2454307; 2455072; 2457132; 2470799; 2475524; 2477405; 2477497;
  2477858; 2478239; 2478303; 2478332; 2478473; 2479160; 2479271; 2479507;
  2479576; 2479603; 2479951; 2490339; 2500683; 2503020; 2505004; 2506373;
  2507896; 2508235; 2509985; 2510692; 2511920; 2513789; 2519250; 2525682;
  2531383; 2531569; 2531837; 2532338; 2533186; 2536398; 2539915; 2546737;
  2554333; 2555400; 2566414; 2566797; 2567498; 2567535; 2567554; 2568634;
  2569225; 2569593; 2570146; 2581684; 2590321; 2590917; 2592058; 2593347;
  2593837; 2594946; 2595055; 2595976; 2596558; 2597296; 2598130; 2598343;
  2598570; 2611013; 2613274; 2614716; 2615489; 2615705; 2615970; 2616567;
  2617769; 2628114; 2628732; 2629507; 2636758; 2647828; 2647888; 2648271;
  2648428; 2648651; 2648657; 2649284; 2649487; 2650868; 2658238; 2682750;
  2684987; 2693598; 2696702; 2713948; 2716512; 2717122; 2718054; 2724417;
  2728898; 2733370; 2735453; 2738397; 2741983; 2753138; 2753622; 2755337;
  2760669; 2762060; 2762304; 2764937; 2768839; 2770060; 2770378; 2770380;
  2770995; 2772114; 2772291; 2784938; 2789796; 2794503; 2795088; 2795608;
  2795653; 2796242; 2807961; 2812082; 2815563; 2816518; 2818749; 2821203;
  2821262; 2821453; 2822260; 2822695; 2823094; 2824127; 2824196; 2825607;
  2825672; 2826529; 2827744; 2829254; 2829791; 2831703; 2832496; 2833886;
  2856523; 2856847; 2858074; 2858534; 2858680; 2859216; 2865397; 2873058;
  2876931; 2879423; 2881576; 2882891; 2882908; 2883207; 2883899; 2884110;
  2884241; 2884686; 2884928; 2885376; 2885436; 2885489; 2885524; 2886490;
  2892101; 2895057; 2895381; 2908001; 2910007; 2910471; 2911203; 2914658;
  2917614; 2923188; 2924204; 2927516; 2927589; 2928887; 2929755; 2937931;
  2944654; 2950708; 2951436; 2951777; 2952645; 2953046; 2967496; 2968599;
  2971715; 2971949; 2974094; 2974964; 2976788; 2977919; 2977997; 2978090;
  2978101; 2979071; 2980296; 2980779; 2981049; 2981215; 2981793; 2981909;
  2982199; 2982592; 2983156; 2983488; 2986366; 2986969; 2988447; 2988587;
  2988827; 2988830; 2989242; 2990404; 2990898; 2991104; 2991491; 2992076;
  2995536; 3005903; 3008045; 3013048; 3014482; 3014518; 3014758; 3014950;
  3015553; 3015668; 3015900; 3016605; 3016802; 3018672; 3018918; 3018938;
  3025389; 3026070; 3026409; 3027277; 3035711; 3036120; 3036208; 3036638;
  3042708; 3043159; 3043192; 3043242; 3043847; 3045658; 3045816; 3045904;
  3046007; 3047927; 3050141; 3051391; 3054429; 3055038; 3058329; 3059824;
  3067116; 3081690; 3082587; 3082837; 3083027; 3083749; 3083753; 3083895;
  3084307; 3084366; 3084527; 3084688; 3084919; 3085393; 3087130; 3089459;
  3109277; 3109604; 3109655; 3111673; 3111716; 3112098; 3113289; 3113596;
  3114716; 3114948; 3116285; 3120247; 3120357; 3120528; 3120769; 3120942;
  3120960; 3121618; 3122350; 3122617; 3124178; 3126900; 3126944; 3130545;
  3136447; 3145548; 3149396; 3149839; 3150990; 3151998; 3154663; 3156432;
  3168576; 3171261; 3172058; 3176505; 3178604; 3178629; 3181708; 3182776;
  3183208; 3183242; 3183738; 3183976; 3184023; 3184146; 3185526; 3186215;
  3186346; 3186467; 3186481; 3186979; 3187535; 3187877; 3188590; 3189008;
  3189064; 3189555; 3189563; 3190176; 3191650; 3193205; 3194853; 3206581;
  3206641; 3210442; 3221005; 3230193; 3230785; 3238037; 3238153; 3238177;
  3238761; 3238855; 3251593; 3252153; 3259893; 3270996; 3274808; 3276208;
  3277840; 3277971; 3281345; 3282776; 3282990; 3284565; 3284651; 3284852;
  3294725; 3309706; 3310421; 3313027; 3313057; 3314353; 3316068; 3335526;
  3335999; 3349643; 3359332; 3359381; 3360412; 3362193; 3362833; 3363881;
  3364230; 3364389; 3364708; 3367401; 3368883; 3370063; 3386148; 3387920;
  3387938; 3391320; 3391531; 3392728; 3393057; 3393970; 3394079; 3394298;
  3394956; 3395091; 3395382; 3401060; 3401786; 3402856; 3404956; 3405509;
  3406327; 3407021; 3408819; 3419045; 3419534; 3424120; 3426142; 3428387;
  3433097; 3433718; 3433741; 3433842; 3433913; 3434312; 3434363; 3434483;
  3434771; 3434987; 3435244; 3435922; 3436159; 3436399; 3436484; 3436526;
  3436588; 3436637; 3436697; 3436995; 3437637; 3437769; 3442425; 3445354;
  3445611; 3447717; 3450558; 3456605; 3465207; 3466093; 3468294; 3468337;
  3468510; 3470497; 3471425; 3475785; 3477090; 3480409; 3494220; 3499461;
  3508090; 3508570; 3508573; 3508687; 3508987; 3509046; 3509215; 3509400;
  3510831; 3510859; 3511839; 3512365; 3512441; 3513114; 3531109; 3532387;
  3541148; 3541447; 3541574; 3542095; 3542203; 3542248; 3542359; 3542581;
  3542692; 3543306; 3543638; 3543878; 3544171; 3544956; 3545206; 3545637;
  3545687; 3546528; 3550821; 3551348; 3552745; 3553349; 3553400; 3553430;
  3553765; 3553809; 3555299; 3555421; 3555700; 3556983; 3557362; 3557950;
  3560583; 3563243; 3572858; 3573547; 3573665; 3573701; 3574815; 3576023;
  3576428; 3576680; 3576780; 3577402; 3577874; 3578404; 3581348; 3582355;
  3588797; 3595030; 3611486; 3612101; 3612253; 3612901; 3613694; 3613728;
  3613772; 3616415; 3616762; 3617789; 3618977; 3621012; 3621748; 3622046;
  3622279; 3623105; 3623697; 3626107; 3627520; 3629419; 3631355; 3631939;
  3634459; 3635989; 3636041; 3645541; 3648133; 3648783; 3651135; 3652610;
  3653395; 3660468; 3661754; 3661770; 3662709; 3662823; 3665776; 3671791;
  3672036; 3672295; 3672704; 3677055; 3678543; 3685686; 3694844; 3703135;
  3703608; 3703651; 3703758; 3704436; 3704600; 3705159; 3705611; 3706425;
  3706477; 3706743; 3706940; 3706949; 3707380; 3708299; 3708344; 3713060;
  3713182; 3716064; 3716590; 3737841; 3737870; 3738958; 3739168; 3739494;
  3739657; 3739674; 3739941; 3740530; 3740805; 3741448; 3741502; 3743413;
  3744117; 3745354; 3745504; 3746439; 3746576; 3746676; 3747063; 3748026;
  3748061; 3748276; 3748392; 3749866; 3756142; 3764220; 3766926; 3772292;
  3773702; 3775873; 3778239; 3778718; 3778775; 3778936; 3779190; 3779708;
  3779865; 3780088; 3780718; 3780885; 3780955; 3781291; 3781370; 3782582;
  3783236; 3783456; 3792561; 3797424; 3798720; 3799986; 3800738; 3806040;
  3808585; 3809307; 3811530; 3812635; 3814241; 3814511; 3815525; 3815776;
  3816162; 3816452; 3817135; 3817155; 3817157; 3819192; 3823856; 3824356;
  3825938; 3826010; 3826374; 3827171; 3827223; 3827227; 3827377; 3827771;
  3828335; 3828399; 3829123; 3829162; 3830073; 3830735; 3831237; 3831437;
  3831624; 3832216; 3832596; 3832897; 3836113; 3836194; 3836613; 3837984;
  3846710; 3847816; 3856662; 3856701; 3861088; 3866401; 3867015; 3867040;
  3867052; 3868422; 3868440; 3868823; 3869160; 3869343; 3869568; 3870428;
  3870501; 3872189; 3872398; 3872966; 3875051; 3875531; 3878256; 3878699;
  3879755; 3880832; 3880846; 3893908; 3908162; 3912571; 3914667; 3914808;
  3926752; 3933096; 3933534; 3933921; 3936302; 3937314; 3940646; 3943638;
  3946170; 3946247; 3946257; 3947656; 3947728; 3947952; 3948321; 3948800;
  3949667; 3950926; 3951373; 3951486; 3951690; 3963144; 3963149; 3963519;
  3964181; 3965405; 3976109; 3981090; 3984539; 3986954; 3987203; 3987728;
  3988254; 3988919; 3989706; 3993948; 3996194; 3998181; 3998243; 3998368;
  3999100
]%positive.

Definition above_set : PositiveSet.t :=
  Eval vm_compute in fold_right PositiveSet.add PositiveSet.empty above.
Definition below_set : PositiveSet.t :=
  Eval vm_compute in fold_right PositiveSet.add PositiveSet.empty below.

Definition ref_pow (x y : float) : float :=
  if feqb y (lit 5 10) then
    match int_of_float x with
    | Ok (Zpos n) =>
        if feqb (fz (Zpos n)) x && (Zpos n <=? bound) then
          let r := SFsqrt prec emax x in
          if PositiveSet.mem n above_set then SFsucc prec emax r
          else if PositiveSet.mem n below_set then SFpred prec emax r
          else r
        else S754_nan
    | _ => S754_nan
    end
  else S754_nan.

Definition libm : Libm :=
  {| cos := ref_cos; sin := ref_sin; pow := ref_pow |}.

End Reference.

(* ================================================================= *)
(** ** Concrete inputs

    The runs below are computed with the reference library.  They start
    from [GameScene.__init__] and feed the main loop with key events and
    with values for the random draws. *)

Module Scenario.

Import GameScene Play.

#[local] Existing Instance Reference.libm.

(** The first enemy of every wave: column 0, row 0 of the formation. *)
Definition first_enemy (speed_multiplier : float) : result EnemyPath.t :=
  EnemyPath.init 250 (-70) false (250, 100) speed_multiplier.

Definition first_path : EnemyPath.Path :=
  Eval vm_compute in
    or_else (EnemyPath.create_arc_path 250 (-70) false (250, 100)) [].

(** Speed 4 * 1.0, the speed of the game's first wave. *)
Definition usual_enemy : EnemyPath.t :=
  Eval vm_compute in or_else (first_enemy (lit 1 1)) EnemyPath.blank.



Definition first_wave : EnemySpawner.t :=
  Eval vm_compute in
    or_else (EnemySpawner.spawn_wave EnemySpawner.init (lit 1 1))
            EnemySpawner.init.

(** Inputs of one frame.  A draw of 0.99 triggers no dive at the levels
    reached here; a draw of 0.0 triggers one. *)
Definition idle : input := mk_input OTHER (lit 99 100) 0.
Definition dive (k : nat) : input := mk_input OTHER (fz 0) k.
Definition fire : input := mk_input (KEYDOWN K_SPACE) (lit 99 100) 0.
Definition left : input := mk_input (KEYDOWN K_LEFT) (lit 99 100) 0.
Definition right : input := mk_input (KEYDOWN K_RIGHT) (lit 99 100) 0.
Definition stop_left : input := mk_input (KEYUP K_LEFT) (lit 99 100) 0.
Definition stop_right : input := mk_input (KEYUP K_RIGHT) (lit 99 100) 0.

(** The scene as [__init__] leaves it. *)
Definition opening : GameScene.t := Eval vm_compute in or_else init blank.

(** 400 frames later the intro is over and the enemies are in formation. *)
Definition formed : GameScene.t :=
  Eval vm_compute in or_else (play opening (repeat idle 400)) blank.


(** The player shoots every enemy, column after column. *)
Definition clear_trace : list input :=
  repeat fire 302
  ++ repeat left 15 ++ [stop_left] ++ repeat fire 302
  ++ repeat left 15 ++ [stop_left] ++ repeat fire 302
  ++ repeat right 45 ++ [stop_right] ++ repeat fire 302
  ++ repeat right 15 ++ [stop_right] ++ repeat fire 301.
Definition before_clear : GameScene.t :=
  Eval vm_compute in or_else (play formed clear_trace) blank.
Definition cleared : GameScene.t :=
  Eval vm_compute in or_else (frame before_clear fire) blank.
Definition next_wave : GameScene.t :=
  Eval vm_compute in or_else (play cleared (repeat idle 60)) blank.

(** The state in which [update_scene] reaches its scoring block during the
    frame [i] played from [s]. *)
Definition at_scoring (s : GameScene.t) (i : input) : result GameScene.t :=
  s <- handle_event s (event i) ;;
  s <- update_sprites s ;;
  intro_sequence s.

(** A bullet about to hit an enemy in formation, and one about to hit an
    enemy still entering. *)
Definition formation_kill : GameScene.t :=
  Eval vm_compute in
    or_else (s <- play formed (repeat fire 31) ;; at_scoring s fire) blank.
Definition entering_kill : GameScene.t :=
  Eval vm_compute in
    or_else (s <- play opening (repeat fire 153) ;; at_scoring s fire) blank.

(** The enemies hit in these two states, and the enemies left. *)
Definition formation_victim : EnemyPath.t :=
  Eval vm_compute in
    hd EnemyPath.blank
       (fst (fst (groupcollide (enemies formation_kill)
                    (Ship.bullets (the_player formation_kill))))).
Definition formation_rest : list EnemyPath.t :=
  Eval vm_compute in
    snd (fst (groupcollide (enemies formation_kill)
                (Ship.bullets (the_player formation_kill)))).
Definition entering_victim : EnemyPath.t :=
  Eval vm_compute in
    hd EnemyPath.blank
       (fst (fst (groupcollide (enemies entering_kill)
                    (Ship.bullets (the_player entering_kill))))).
Definition entering_rest : list EnemyPath.t :=
  Eval vm_compute in
    snd (fst (groupcollide (enemies entering_kill)
                (Ship.bullets (the_player entering_kill)))).

(** The state in which the dive trigger of the frame [dive 0] played from
    [formed] is reached, and the state it leaves. *)
Definition at_dive : GameScene.t :=
  Eval vm_compute in
    or_else (s <- at_scoring formed (dive 0) ;; Ok (handle_scoring s)) blank.
Definition after_dive : GameScene.t :=
  Eval vm_compute in or_else (trigger_dive at_dive (fz 0) 0) blank.

(** The scene after that frame, in which the first enemy dives; the player
    then starts to move left, and the scene in which the next
    [update_scene] begins. *)
Definition dived : GameScene.t :=
  Eval vm_compute in or_else (frame formed (dive 0)) blank.
Definition chased : GameScene.t :=
  Eval vm_compute in or_else (handle_event dived (KEYDOWN K_LEFT)) blank.
Definition escaped : GameScene.t :=
  Eval vm_compute in or_else (update_scene chased (lit 99 100) 0) blank.

End Scenario.

(* ================================================================= *)
(** ** pygame events, as the scenes and the main loop read them *)

Module Pygame.

Inductive Key : Set :=
| K_a | K_LEFT | K_d | K_RIGHT | K_RETURN | K_SPACE | K_r
| K_1 | K_KP1 | K_ESCAPE | K_other.

Inductive Event : Set :=
| QUIT
| KEYDOWN (key : Key)
| KEYUP (key : Key)
| OTHER.

(** [GameScene.handle_event] compares the type of the event with [KEYDOWN]
    and [KEYUP] and its key with seven constants; this is the event as that
    method reads it. *)
Definition game_key (k : Key) : GameScene.Key :=
  match k with
  | K_a => GameScene.K_a
  | K_LEFT => GameScene.K_LEFT
  | K_d => GameScene.K_d
  | K_RIGHT => GameScene.K_RIGHT
  | K_RETURN => GameScene.K_RETURN
  | K_SPACE => GameScene.K_SPACE
  | K_r => GameScene.K_r
  | K_1 | K_KP1 | K_ESCAPE | K_other => GameScene.K_other
  end.

Definition game_event (e : Event) : GameScene.Event :=
  match e with
  | KEYDOWN k => GameScene.KEYDOWN (game_key k)
  | KEYUP k => GameScene.KEYUP (game_key k)
  | QUIT | OTHER => GameScene.OTHER
  end.

End Pygame.

(* ================================================================= *)
(** ** Scene and PressAnyKeyToExitScene

    Of the attributes set by [Scene.__init__], the frame rate and the
    validity flag are state; the screen, the background surface and the
    soundtrack belong to rendering and sound. *)

Module Scene.

Record t : Set := mk { frame_rate : Z; is_valid : bool }.

Definition init : t := mk 60 true.

Definition set_is_valid (s : t) (v : bool) : t := mk (frame_rate s) v.

(** [Scene.process_event]: two independent [if] statements. *)
Definition process_event (s : t) (event : Pygame.Event) : t :=
  let s := match event with
           | Pygame.QUIT => set_is_valid s false
           | _ => s
           end in
  match event with
  | Pygame.KEYDOWN Pygame.K_ESCAPE => set_is_valid s false
  | _ => s
  end.

End Scene.

Module PressAnyKeyToExitScene.

(** [PressAnyKeyToExitScene.process_event]: the base method, then every
    key press invalidates the scene. *)
Definition process_event (s : Scene.t) (event : Pygame.Event) : Scene.t :=
  let s := Scene.process_event s event in
  match event with
  | Pygame.KEYDOWN _ => Scene.set_is_valid s false
  | _ => s
  end.

End PressAnyKeyToExitScene.

(* ================================================================= *)
(** ** Star and Background

    The values of [random.randrange] are inputs of the model. *)

Module Star.

Record t : Set := mk { rect : Rect.t; vel_x : Z; vel_y : Z }.

(** The draws of [Star.__init__]: [randrange(2, 4)], [randrange(0, 1100)]
    and [randrange(1, 20)]. *)
Record draw : Set := mk_draw { width : Z; x : Z; fall : Z }.

Definition in_range (d : draw) : Prop :=
  2 <= width d < 4 /\ 0 <= x d < 1100 /\ 1 <= fall d < 20.

(** [Star.__init__]: a square surface whose rectangle starts at the top. *)
Definition init (d : draw) : t :=
  let r := Rect.mk 0 0 (width d) (width d) in
  mk (Rect.set_x r (x d)) 0 (fall d).

Definition update (s : t) : t :=
  let r := Rect.set_x (rect s) (Rect.x (rect s) + vel_x s) in
  let r := Rect.set_y r (Rect.y r + vel_y s) in
  mk r (vel_x s) (vel_y s).

End Star.

Module Background.

(** [stars] is a sprite group, in insertion order. *)
Record t : Set := mk { stars : list Star.t; timer : Z }.

(** The draws one call of [update] may consume: those of a new star and
    [randrange(1, 10)] for the timer. *)
Record draws : Set := mk_draws { star : Star.draw; next_timer : Z }.

Definition in_range (d : draws) : Prop :=
  Star.in_range (star d) /\ 1 <= next_timer d < 10.

(** [Background.__init__]; [timer0] is the value of [randrange(1, 10)]. *)
Definition init (timer0 : Z) : t := mk [] timer0.

(** [Background.update]: the stars below the playfield are removed, the
    others fall, and a star is added when the timer has run out. *)
Definition update (b : t) (d : draws) : t :=
  let st := filter (fun s => negb (1300 <=? Rect.y (Star.rect s))) (stars b) in
  let st := map Star.update st in
  let '(st, tm) := if timer b =? 0
                   then (st ++ [Star.init (star d)], next_timer d)
                   else (st, timer b) in
  mk st (tm - 1).

Fixpoint updates (b : t) (ds : list draws) : t :=
  match ds with
  | [] => b
  | d :: ds' => updates (update b d) ds'
  end.

End Background.

(* ================================================================= *)
(** ** TitleScene *)

Module TitleScene.

(** The message, its colour and its size are only drawn. *)
Record t : Set := mk {
  blinker_timer : Z;
  blink_visible : bool;
  background : Background.t
}.

Definition init (timer0 : Z) : t := mk 0 true (Background.init timer0).

(** [TitleScene.update_scene]. *)
Definition update_scene (s : t) (d : Background.draws) : t :=
  let tm := blinker_timer s + 1 in
  let '(tm, visible) := if 30 <=? tm
                        then (0, negb (blink_visible s))
                        else (tm, blink_visible s) in
  mk tm visible (Background.update (background s) d).

Fixpoint updates (s : t) (ds : list Background.draws) : t :=
  match ds with
  | [] => s
  | d :: ds' => updates (update_scene s d) ds'
  end.

(** The value ["START_1P"]. *)
Inductive Action : Set := START_1P.

(** [TitleScene.handle_event]; the scene itself is not changed. *)
Definition handle_event (s : t) (event : Pygame.Event) : option Action :=
  match event with
  | Pygame.KEYDOWN (Pygame.K_KP1 | Pygame.K_1 | Pygame.K_RETURN) =>
      Some START_1P
  | _ => None
  end.

End TitleScene.

(* ================================================================= *)
(** ** VideoGame: the main loop of [videogame/game.py] *)

Module VideoGame.

Import String.

Inductive AnyScene : Set :=
| Title (s : TitleScene.t)
| Game (s : GameScene.t).

(** The state of [run]: the current scene and the local variable [event],
    which is unbound until the first event has been received. *)
Record t : Set := mk { scene : AnyScene; event : option Pygame.Event }.

(** How the program can end: a [SystemExit] with its argument, the use of
    the unbound variable [event], or an exception of the scene. *)
Inductive stop : Set :=
| SystemExit (arg : option string)
| UnboundLocalError
| SceneError (e : Py.exn).

(** [sys.exit()] in [run], and [raise SystemExit("broken!!")] in
    [Scene.start_scene]. *)
Definition sys_exit : stop := SystemExit None.
Definition broken : stop := SystemExit (Some "broken!!"%string).

Inductive outcome (A : Type) : Type :=
| Running (a : A)
| Stopped (why : stop).
Arguments Running {A} a.
Arguments Stopped {A} why.

Definition lift {A} (c : result A) : outcome A :=
  match c with
  | Ok a => Running a
  | Raise e => Stopped (SceneError e)
  end.

(** The inputs of one iteration: the events returned by
    [pygame.event.get()], the random draws of the scene, and whether the
    soundtrack of a scene started in this iteration can be loaded. *)
Record input : Set := mk_input {
  events : list Pygame.Event;
  rnd : float;
  pick : nat;
  sky : Background.draws;
  music : bool
}.

(** [Scene.start_scene] for a scene with a soundtrack, which the title
    scene and the game scene have: when [pygame.mixer.music.load] fails
    the method raises [SystemExit("broken!!")]; playing the soundtrack is
    taken to succeed.  [Scene.end_scene] only fades the music out. *)
Definition start_scene (loads : bool) : outcome unit :=
  if loads then Running tt else Stopped broken.

(** [VideoGame.__init__] shows the title scene and starts it. *)
Definition init (timer0 : Z) (loads : bool) : outcome t :=
  match start_scene loads with
  | Stopped why => Stopped why
  | Running _ => Running (mk (Title (TitleScene.init timer0)) None)
  end.

(** The loop [for event in pygame.event.get()]: the variable [event] is
    assigned every event in turn, and a [QUIT] event exits at once. *)
Fixpoint poll (evs : list Pygame.Event) (event : option Pygame.Event)
    : outcome (option Pygame.Event) :=
  match evs with
  | [] => Running event
  | e :: evs' =>
      match e with
      | Pygame.QUIT => Stopped sys_exit
      | _ => poll evs' (Some e)
      end
  end.

Section WithLibm.
Context {libm : Libm}.

(** [self.scene.handle_event(event)] and the change of scene: on
    ["START_1P"] the title scene is ended, a [GameScene] is created and
    started.  Both scenes have a method [handle_event], and
    [GameScene.handle_event] returns [None] on every path. *)
Definition handle (sc : AnyScene) (ev : Pygame.Event) (loads : bool)
    : outcome AnyScene :=
  match sc with
  | Title ts =>
      match TitleScene.handle_event ts ev with
      | Some TitleScene.START_1P =>
          match GameScene.init with
          | Raise e => Stopped (SceneError e)
          | Ok g =>
              match start_scene loads with
              | Stopped why => Stopped why
              | Running _ => Running (Game g)
              end
          end
      | None => Running sc
      end
  | Game g =>
      lift (g' <- GameScene.handle_event g (Pygame.game_event ev) ;;
            Ok (Game g'))
  end.

(** The event [ev] makes the title scene start the game, and the game
    scene can be created. *)
Definition starts (sc : AnyScene) (ev : Pygame.Event) : Prop :=
  exists ts g,
    sc = Title ts /\
    TitleScene.handle_event ts ev = Some TitleScene.START_1P /\
    GameScene.init = Ok g.

(** [self.scene.update_scene()]. *)
Definition update (sc : AnyScene) (i : input) : outcome AnyScene :=
  match sc with
  | Title ts => Running (Title (TitleScene.update_scene ts (sky i)))
  | Game g =>
      lift (g' <- GameScene.update_scene g (rnd i) (pick i) ;; Ok (Game g'))
  end.

(** One iteration of [while run]. *)
Definition frame (st : t) (i : input) : outcome t :=
  match poll (events i) (event st) with
  | Stopped why => Stopped why
  | Running None => Stopped UnboundLocalError
  | Running (Some ev) =>
      match handle (scene st) ev (music i) with
      | Stopped why => Stopped why
      | Running sc =>
          match update sc i with
          | Stopped why => Stopped why
          | Running sc' => Running (mk sc' (Some ev))
          end
      end
  end.

(** The iterations of the loop for the given inputs.  The loop has no
    other exit than the ones of [frame]: [run] is set to [False] only on
    the way to [sys.exit()]. *)
Fixpoint run (st : t) (l : list input) : outcome t :=
  match l with
  | [] => Running st
  | i :: l' =>
      match frame st i with
      | Stopped why => Stopped why
      | Running st' => run st' l'
      end
  end.

End WithLibm.

Definition in_game (st : t) : bool :=
  match scene st with
  | Game _ => true
  | Title _ => false
  end.

End VideoGame.

(* ================================================================= *)
(** ** The exceptions a computation can raise *)

Module Raises.

(** Every exception the computation can raise satisfies [P]. *)
Definition only {A} (P : exn -> Prop) (c : result A) : Prop :=
  forall e, c = Raise e -> P e.

(** The exceptions of float arithmetic, of the conversions between [int]
    and [float] and of the assignment of a float to a rectangle. *)
Definition numeric (e : exn) : Prop :=
  e = OverflowError \/ e = ValueError \/ e = TypeError.

Definition arithmetic (e : exn) : Prop :=
  numeric e \/ e = ZeroDivisionError.

End Raises.

(* ================================================================= *)
(** ** Invariants of runs *)

Module Diving.

(** What a run of updates keeps of a diving enemy [e0]: it is still
    diving, or it is back on its slot with the dive path used up. *)
Definition on_dive (e0 e : EnemyPath.t) : Prop :=
  EnemyPath.dive_path e = EnemyPath.dive_path e0 /\
  EnemyPath.formation_pos e = EnemyPath.formation_pos e0 /\
  (EnemyPath.state e = EnemyPath.diving \/
   EnemyPath.settled e /\
   (length (EnemyPath.dive_path e) <= EnemyPath.dive_point e)%nat).

(** [survivors R l l']: the list [l'] is the list [l] with some elements
    removed and every other element replaced by one that [R] relates to
    it, in order. *)
Inductive survivors {A : Type} (R : A -> A -> Prop)
    : list A -> list A -> Prop :=
| survivors_nil : survivors R [] []
| survivors_keep a a' l l' :
    R a a' -> survivors R l l' -> survivors R (a :: l) (a' :: l')
| survivors_drop a l l' : survivors R l l' -> survivors R (a :: l) l'.

(** An enemy as [EnemyPath.__init__] creates it. *)
Definition fresh (e : EnemyPath.t) : Prop :=
  EnemyPath.state e = EnemyPath.entering /\
  EnemyPath.dive_path e = [] /\ EnemyPath.dive_point e = 0%nat.

Section WithLibm.
Context {libm : Libm}.

(** What a tick of the game makes of an enemy [e] that it does not
    remove: the enemy is updated [k] times; if it is in formation then,
    the dive trigger may send it diving, along the path computed from its
    position and from the position [p] of the player at that moment. *)
Definition ticked (k : nat) (p : Z * Z) (e e' : EnemyPath.t) : Prop :=
  exists e1,
    EnemyPath.updates k e = Ok e1 /\
    (e' = e1 \/
     EnemyPath.state e1 = EnemyPath.formation /\
     e' = GameScene.start_dive p e1).

(** The state in which [update_scene] reaches its dive trigger. *)
Definition at_trigger (s : GameScene.t) : result GameScene.t :=
  s <- GameScene.update_sprites s ;;
  s <- GameScene.intro_sequence s ;;
  Ok (GameScene.handle_scoring s).

End WithLibm.

End Diving.

Module Tally.

Import GameScene.

(** The tally of a scene: input is enabled, the level and the wave size
    are in range, the score is a non-negative multiple of 50 and the
    extra-life threshold is the next multiple of 10000 above the score. *)
Definition Inv (s : GameScene.t) : Prop :=
  player_control_enable s = true /\
  1 <= level s /\ 40 <= wave_size s <= 80 /\
  0 <= score s /\ score s mod 50 = 0 /\
  extra_life s = 10000 * (score s / 10000 + 1).

(** What the blocks that neither score nor end a round keep of it. *)
Definition kept (s s' : GameScene.t) : Prop :=
  (player_control_enable s = true -> player_control_enable s' = true) /\
  level s' = level s /\ wave_size s' = wave_size s /\
  score s' = score s /\ extra_life s' = extra_life s.

End Tally.

Module Sky.

(** A star as [Star.__init__] and [Star.update] leave it: it falls
    straight down, inside the width of the playfield, and is at most one
    step below the bottom edge. *)
Definition tidy_star (st : Star.t) : Prop :=
  Star.vel_x st = 0 /\ 1 <= Star.vel_y st < 20 /\
  0 <= Rect.x (Star.rect st) < 1100 /\
  0 <= Rect.y (Star.rect st) < 1300 + Star.vel_y st /\
  2 <= Rect.w (Star.rect st) < 4 /\
  Rect.h (Star.rect st) = Rect.w (Star.rect st).

Definition tidy (b : Background.t) : Prop :=
  Forall tidy_star (Background.stars b).

(** The background once its first star is out: the timer is in range and
    some star is still near the top. *)
Definition lit (b : Background.t) : Prop :=
  0 <= Background.timer b <= 8 /\
  exists st, In st (Background.stars b) /\
             0 <= Star.vel_y st <= 19 /\
             Rect.y (Star.rect st) <= 19 * (8 - Background.timer b).

End Sky.

(* ================================================================= *)
(** ** Further concrete inputs *)

Module Examples.

Import GameScene.

#[local] Existing Instance Reference.libm.

(** A wave of three enemies. *)
Definition small_spawner : EnemySpawner.t :=
  EnemySpawner.set_wave_size EnemySpawner.init 3.
Definition small_wave : EnemySpawner.t :=
  Eval vm_compute in
    or_else (EnemySpawner.spawn_wave small_spawner (lit 1 1))
            EnemySpawner.init.

(** The first enemy of the game after one update, and a diving enemy at
    the end of its dive path. *)
Definition stepped_enemy : EnemyPath.t :=
  Eval vm_compute in
    or_else (EnemyPath.update Scenario.usual_enemy) EnemyPath.blank.
Definition returning_enemy : EnemyPath.t :=
  EnemyPath.set_dive_point
    (EnemyPath.set_dive_path
       (EnemyPath.set_state Scenario.usual_enemy EnemyPath.diving)
       (create_dive_path (430, 30) (550, 1235) (250, 100)))
    4.

(** A ship moving right at its speed, two pixels from the right border. *)
Definition edge_ship : Ship.t :=
  Ship.set_rect (Ship.set_vel_x Ship.init 5)
                (Rect.set_x (Ship.rect Ship.init) 1028).

(** The scene [Scenario.formed] after the first block of [update_scene]. *)
Definition formed_moved : GameScene.t :=
  Eval vm_compute in or_else (update_sprites Scenario.formed) blank.

(** The player moves left: the scene after the frame [Scenario.left]
    played from [Scenario.formed], and after the first block of the next
    [update_scene]. *)
Definition formed_left : GameScene.t :=
  Eval vm_compute in or_else (Play.frame Scenario.formed Scenario.left) blank.
Definition formed_left_moved : GameScene.t :=
  Eval vm_compute in or_else (update_sprites formed_left) blank.

(** The frame [Scenario.fire] played from [Scenario.formed]. *)
Definition formed_fired : GameScene.t :=
  Eval vm_compute in or_else (Play.frame Scenario.formed Scenario.fire) blank.

Definition calm : Background.draws :=
  Background.mk_draws (Star.mk_draw 2 100 7) 3.

(** A frame in which the soundtrack loads, and one in which it does
    not. *)
Definition still (evs : list Pygame.Event) : VideoGame.input :=
  VideoGame.mk_input evs (lit 99 100) 0 calm true.
Definition silent (evs : list Pygame.Event) : VideoGame.input :=
  VideoGame.mk_input evs (lit 99 100) 0 calm false.

(** The main loop as [VideoGame.__init__] leaves it, and after a first
    frame in which Return was pressed. *)
Definition fresh : VideoGame.t :=
  VideoGame.mk (VideoGame.Title (TitleScene.init 3)) None.
Definition started : VideoGame.t :=
  Eval vm_compute in
    match VideoGame.frame fresh (still [Pygame.KEYDOWN Pygame.K_RETURN]) with
    | VideoGame.Running st => st
    | VideoGame.Stopped _ => fresh
    end.

End Examples.

(* ================================================================= *)
(** * Properties *)

(** ** The error monad *)

Lemma bind_ok {A B} (c : result A) (k : A -> result B) (b : B) :
  bind c k = Ok b -> exists a, c = Ok a /\ k a = Ok b.
Proof. destruct c as [a|e]; cbn; [eauto|discriminate]. Qed.

(** One step through a successful computation. *)
Ltac step_ok :=
  match goal with
  | H : bind ?c _ = Ok _ |- _ =>
      let a := fresh "a" in
      let Ha := fresh "Ha" in
      apply bind_ok in H as (a & Ha & H)
  | H : Ok _ = Ok _ |- _ => injection H as <-
  | H : Raise _ = Ok _ |- _ => discriminate H
  | H : (if ?b then _ else _) = Ok _ |- _ => destruct b eqn:?
  | H : match ?x with _ => _ end = Ok _ |- _ => destruct x eqn:?
  end.

Lemma mapM_length {A B} (f : A -> result B) (l : list A) : forall l',
  mapM f l = Ok l' -> length l' = length l.
Proof.
  induction l as [|a l IH]; cbn; intros l' H.
  - now injection H as <-.
  - apply bind_ok in H as (b & _ & H). apply bind_ok in H as (bs & Hbs & H).
    injection H as <-. cbn. f_equal. now apply IH.
Qed.

Lemma mapM_app {A B} (f : A -> result B) (l1 l2 : list A) (r1 r2 : list B) :
  mapM f l1 = Ok r1 -> mapM f l2 = Ok r2 -> mapM f (l1 ++ l2) = Ok (r1 ++ r2).
Proof.
  revert r1. induction l1 as [|a l1 IH]; cbn; intros r1 H1 H2.
  - injection H1 as <-. exact H2.
  - apply bind_ok in H1 as (b & Hb & H1). apply bind_ok in H1 as (bs & Hbs & H1).
    injection H1 as <-. rewrite Hb. cbn. rewrite (IH bs Hbs H2). reflexivity.
Qed.

Lemma mapM_Forall2 {A B} (f : A -> result B) (P : A -> B -> Prop) :
  (forall a b, f a = Ok b -> P a b) ->
  forall l l', mapM f l = Ok l' -> Forall2 P l l'.
Proof.
  intros Hf. induction l as [|a l IH]; cbn; intros l' H.
  - injection H as <-. constructor.
  - apply bind_ok in H as (b & Hb & H). apply bind_ok in H as (bs & Hbs & H).
    injection H as <-. constructor; auto.
Qed.

Lemma no_zdiv_bind {A B} (c : result A) (k : A -> result B) :
  no_zero_division c -> (forall a, c = Ok a -> no_zero_division (k a)) ->
  no_zero_division (bind c k).
Proof.
  unfold no_zero_division. intros Hc Hk. destruct c as [a|e]; cbn.
  - now apply Hk.
  - intro H. apply Hc. injection H as ->. reflexivity.
Qed.

Lemma no_zdiv_ok {A} (a : A) : no_zero_division (Ok a).
Proof. discriminate. Qed.

Lemma no_zdiv_float_of_int n : no_zero_division (float_of_int n).
Proof. unfold float_of_int. destruct (fz n); discriminate. Qed.

Lemma no_zdiv_int_of_float f : no_zero_division (int_of_float f).
Proof. destruct f; discriminate. Qed.

Lemma no_zdiv_pow_half {libm : Libm} n : no_zero_division (pow_half n).
Proof.
  unfold pow_half. apply no_zdiv_bind; [apply no_zdiv_float_of_int|].
  intros f _. destruct (feqb f (fz 0)); [apply no_zdiv_ok|].
  destruct (feqb f (fz 1)); [apply no_zdiv_ok|].
  destruct (pow f (lit 5 10)); discriminate.
Qed.

(** ** Floats: comparisons with zero *)

Lemma float_eq_zero (d : float) :
  feqb d (fz 0) = true -> exists s, d = S754_zero s.
Proof.
  destruct d as [s|s| |s m e]; cbn; try discriminate.
  - eauto.
  - destruct s; discriminate.
  - destruct s; discriminate.
Qed.

Lemma flt_zero_sign (s : bool) (v : float) :
  flt (S754_zero s) v = flt (fz 0) v.
Proof. destruct v as [s'|s'| |s' m e]; reflexivity. Qed.

(** A distance that is not below a positive speed is not zero. *)
Lemma nonzero_beyond_speed (d speed : float) :
  flt (fz 0) speed = true -> flt d speed = false -> feqb d (fz 0) = false.
Proof.
  intros Hs Hd. destruct (feqb d (fz 0)) eqn:E; [|reflexivity].
  apply float_eq_zero in E as [s ->]. rewrite flt_zero_sign in Hd. congruence.
Qed.

Lemma no_zdiv_truediv a d :
  feqb d (fz 0) = false -> no_zero_division (float_truediv a d).
Proof. unfold float_truediv. intros ->. discriminate. Qed.

(** ** Rectangles *)

Lemma center_set_center r c : Rect.center (Rect.set_center r c) = c.
Proof.
  destruct c as [a b].
  unfold Rect.center, Rect.set_center, Rect.centerx, Rect.centery,
    Rect.set_centerx, Rect.set_centery, Rect.set_x, Rect.set_y.
  cbn. f_equal; lia.
Qed.

Lemma no_zdiv_of_float f : no_zero_division (Rect.of_float f).
Proof.
  unfold Rect.of_float. destruct (Rect.nearest f) as [n|]; [|discriminate].
  destruct (_ && _); discriminate.
Qed.

Lemma no_zdiv_add_centerx r v : no_zero_division (Rect.add_centerx r v).
Proof.
  unfold Rect.add_centerx.
  apply no_zdiv_bind; [apply no_zdiv_float_of_int|]. intros c _.
  apply no_zdiv_bind; [apply no_zdiv_of_float|]. intros; apply no_zdiv_ok.
Qed.

Lemma no_zdiv_add_centery r v : no_zero_division (Rect.add_centery r v).
Proof.
  unfold Rect.add_centery.
  apply no_zdiv_bind; [apply no_zdiv_float_of_int|]. intros c _.
  apply no_zdiv_bind; [apply no_zdiv_of_float|]. intros; apply no_zdiv_ok.
Qed.

(* ================================================================= *)
(** ** The enemy state machine *)

Section EnemyPathFacts.
Context {libm : Libm}.
Import EnemyPath.

Lemma follow_no_zdiv r target speed :
  flt (fz 0) speed = true -> no_zero_division (follow r target speed).
Proof.
  intros Hs. unfold follow, distance_to.
  apply no_zdiv_bind; [apply no_zdiv_pow_half|]. intros d _.
  destruct (flt d speed) eqn:Hd; [apply no_zdiv_ok|].
  pose proof (nonzero_beyond_speed d speed Hs Hd) as Hnz.
  apply no_zdiv_bind; [apply no_zdiv_float_of_int|]. intros fdx _.
  apply no_zdiv_bind; [now apply no_zdiv_truediv|]. intros qx _.
  apply no_zdiv_bind; [apply no_zdiv_add_centerx|]. intros r1 _.
  apply no_zdiv_bind; [apply no_zdiv_float_of_int|]. intros fdy _.
  apply no_zdiv_bind; [now apply no_zdiv_truediv|]. intros qy _.
  apply no_zdiv_bind; [apply no_zdiv_add_centery|]. intros r2 _.
  apply no_zdiv_ok.
Qed.

(** A distance of zero counts as an arrival. *)
Lemma follow_zero_distance r target speed d :
  flt (fz 0) speed = true ->
  distance_to r target = Ok d -> feqb d (fz 0) = true ->
  follow r target speed = Ok (Rect.set_center r target, true).
Proof.
  intros Hs Hd Hz. unfold follow. rewrite Hd. cbn [bind].
  apply float_eq_zero in Hz as [s ->]. now rewrite flt_zero_sign, Hs.
Qed.

Lemma update_no_zdiv e : positive_speed e -> no_zero_division (update e).
Proof.
  intros Hs. unfold update. destruct (state e).
  - destruct (_ <? _); [|apply no_zdiv_ok].
    destruct (nth_error _ _); [|discriminate].
    apply no_zdiv_bind; [now apply follow_no_zdiv|].
    intros [r [|]] _; apply no_zdiv_ok.
  - apply no_zdiv_ok.
  - destruct (_ <? _); [|apply no_zdiv_ok].
    destruct (nth_error _ _); [|discriminate].
    apply no_zdiv_bind; [now apply follow_no_zdiv|].
    intros [r [|]] _; apply no_zdiv_ok.
Qed.

(** C9.  With a positive speed, [update] never divides by zero, in the
    entering and in the diving state alike: a distance of zero to the
    current waypoint is below the speed, so the enemy is snapped to the
    waypoint and the index advanced; and a distance for which the direction
    is normalised is not zero. *)
Theorem update_never_divides_by_zero (e : EnemyPath.t) :
  positive_speed e ->
  update e <> Raise ZeroDivisionError /\
  (forall target d,
      distance_to (rect e) target = Ok d ->
      (flt d (speed e) = false -> feqb d (fz 0) = false) /\
      (feqb d (fz 0) = true ->
       follow (rect e) target (speed e)
       = Ok (Rect.set_center (rect e) target, true)) /\
      (feqb d (fz 0) = true -> state e = entering -> ~ exhausted e ->
       nth_error (path e) (current_point e) = Some target ->
       update e = Ok (set_current_point
                        (set_rect e (Rect.set_center (rect e) target))
                        (S (current_point e)))) /\
      (feqb d (fz 0) = true -> state e = diving ->
       nth_error (dive_path e) (dive_point e) = Some target ->
       update e = Ok (set_dive_point
                        (set_rect e (Rect.set_center (rect e) target))
                        (S (dive_point e))))).
Proof.
  intros Hs. split; [now apply update_no_zdiv|].
  intros target d Hd.
  split; [now apply nonzero_beyond_speed|].
  split; [now apply follow_zero_distance|].
  split.
  - intros Hz Hst Hex Hn. unfold update. rewrite Hst.
    unfold exhausted in Hex.
    destruct (Z.ltb_spec (Z.of_nat (current_point e))
                (Z.of_nat (length (path e)) - 1)); [|lia].
    rewrite Hn, (follow_zero_distance _ _ _ d Hs Hd Hz). reflexivity.
  - intros Hz Hst Hn. unfold update. rewrite Hst.
    assert (Hlt : (dive_point e < length (dive_path e))%nat).
    { apply nth_error_Some. congruence. }
    destruct (Z.ltb_spec (Z.of_nat (dive_point e))
                (Z.of_nat (length (dive_path e)))); [|lia].
    rewrite Hn, (follow_zero_distance _ _ _ d Hs Hd Hz). reflexivity.
Qed.

(** *** From entering to formation *)


Lemma update_formation e :
  state e = formation ->
  update e = Ok (set_rect e (Rect.set_center (rect e) (formation_pos e))).
Proof. unfold update. now intros ->. Qed.





Lemma updates_add n : forall m e,
  updates (n + m) e = bind (updates n e) (updates m).
Proof.
  induction n as [|n IH]; intros m e; cbn; [reflexivity|].
  destruct (update e) as [e1|]; cbn; [apply IH|reflexivity].
Qed.


(** A settled enemy stays settled. *)
Lemma updates_settled m : forall e,
  settled e ->
  exists e', updates m e = Ok e' /\ settled e' /\
             formation_pos e' = formation_pos e.
Proof.
  induction m as [|m IH]; intros e [Hst Hc]; cbn.
  - exists e. repeat split; auto.
  - rewrite (update_formation e Hst). cbn.
    destruct (IH (set_rect e (Rect.set_center (rect e) (formation_pos e))))
      as (e' & H1 & H2 & H3).
    + split; [exact Hst|]. cbn. apply center_set_center.
    + cbn in H3. exists e'. repeat split; auto; apply H2.
Qed.



End EnemyPathFacts.

(* ================================================================= *)
(** ** The entrance path *)

Lemma mapM_app_inv {A B} (f : A -> result B) (l1 l2 : list A) : forall r,
  mapM f (l1 ++ l2) = Ok r ->
  exists r1 r2, r = r1 ++ r2 /\ mapM f l1 = Ok r1 /\ mapM f l2 = Ok r2.
Proof.
  induction l1 as [|a l1 IH]; cbn; intros r H.
  - exists [], r. auto.
  - apply bind_ok in H as (b & Hb & H). apply bind_ok in H as (bs & Hbs & H).
    injection H as <-. apply IH in Hbs as (r1 & r2 & -> & H1 & H2).
    exists (b :: r1), r2. rewrite Hb, H1. cbn. auto.
Qed.

(** The shape of every entrance path, whatever the mathematical library:
    sixty spiral points followed by forty points of the straight segment,
    the last of which is the point of index 39, one step short of the
    formation slot. *)
Lemma create_arc_path_shape {libm : Libm} (start_x start_y : Z) (flip : bool)
    (formation_pos : Z * Z) (p : EnemyPath.Path) :
  EnemyPath.create_arc_path start_x start_y flip formation_pos = Ok p ->
  exists spiral tail final_x final_y dx dy,
    p = spiral ++ tail /\ length spiral = 60%nat /\ length tail = 40%nat /\
    last spiral (0, 0) = (final_x, final_y) /\
    int_truediv (fst formation_pos - final_x) 40 = Ok dx /\
    int_truediv (snd formation_pos - final_y) 40 = Ok dy /\
    EnemyPath.approach_point final_x final_y dx dy 39 = Ok (last p (0, 0)).
Proof.
  unfold EnemyPath.create_arc_path. intros H.
  change (int_of_float (fmul (lit 15 10) (fz EnemyPath.points_per_loop)))
    with (@Ok Z 60) in H.
  cbn [bind] in H. apply bind_ok in H as (spiral & Hsp & H).
  destruct (rev spiral) as [|[final_x final_y] r] eqn:Er; [discriminate|].
  apply bind_ok in H as (dx & Hdx & H). apply bind_ok in H as (dy & Hdy & H).
  apply bind_ok in H as (tail & Htl & H). injection H as <-.
  pose proof (mapM_length _ _ _ Hsp) as Ls.
  pose proof (mapM_length _ _ _ Htl) as Lt.
  change (range EnemyPath.steps) with (range 39 ++ [39]) in Htl.
  apply mapM_app_inv in Htl as (r1 & r2 & -> & H1 & H2).
  cbn in H2. apply bind_ok in H2 as (b & Hb & H2). injection H2 as <-.
  exists spiral, (r1 ++ [b]), final_x, final_y, dx, dy.
  assert (Es : spiral = rev r ++ [(final_x, final_y)]).
  { rewrite <- (rev_involutive spiral), Er. reflexivity. }
  repeat split; auto.
  - rewrite Es. apply last_last.
  - rewrite app_assoc, last_last. exact Hb.
Qed.

(** C2.  The code at the failing input, the first enemy of every wave: the
    path has 100 waypoints and ends at (249, 106), not at the formation slot
    (250, 100).  The straight segment starts on the last spiral point, which
    it repeats, and stops one step before the slot. *)
Theorem arc_path_misses_target :
  @EnemyPath.create_arc_path Reference.libm 250 (-70) false (250, 100)
  = Ok Scenario.first_path /\
  length Scenario.first_path = 100%nat /\
  nth 59 Scenario.first_path (0, 0) = (247, 374) /\
  nth 60 Scenario.first_path (0, 0) = (247, 374) /\
  last Scenario.first_path (0, 0) = (249, 106) /\
  last Scenario.first_path (0, 0) <> (250, 100).
Proof.
  split; [vm_compute; reflexivity|]. repeat split. discriminate.
Qed.

(** *** Runs of the first enemy *)

Section FirstEnemy.
Import EnemyPath Scenario.
#[local] Existing Instance Reference.libm.


(** The game's first 400 frames without input. *)
Lemma formed_played : Play.play opening (repeat idle 400) = Ok formed.
Proof. vm_compute. reflexivity. Qed.



Lemma update_never_divides_by_zero_witness :
  positive_speed usual_enemy /\
  update usual_enemy <> Raise ZeroDivisionError.
Proof.
  split; [reflexivity|].
  exact (proj1 (update_never_divides_by_zero usual_enemy eq_refl)).
Defined.

End FirstEnemy.

(* ================================================================= *)
(** ** The wave spawner *)

Section EnemySpawnerFacts.
Context {libm : Libm}.
Import EnemySpawner.

Lemma spawn_cols_spec ws sm sx row cols : forall g c g' c',
  spawn_cols ws sm sx row cols g c = Ok (g', c') ->
  exists wave, g' = g ++ wave /\ c' = c + Z.of_nat (length wave) /\
    mapM (new_enemy sm)
         (firstn (Z.to_nat (ws - c)) (map (slot sx row) cols)) = Ok wave.
Proof.
  induction cols as [|col cols IH]; cbn [spawn_cols]; intros g c g' c' H.
  - injection H as <- <-. exists []. rewrite app_nil_r, firstn_nil. cbn.
    repeat split; auto; lia.
  - destruct (Z.leb_spec ws c) as [Hle|Hgt].
    + injection H as <- <-. exists []. rewrite app_nil_r.
      replace (Z.to_nat (ws - c)) with 0%nat by lia. cbn.
      repeat split; auto; lia.
    + apply bind_ok in H as (e & He & H).
      apply IH in H as (wave & -> & -> & Hw).
      exists (e :: wave). rewrite <- app_assoc. cbn [app length].
      split; [reflexivity|]. split; [lia|].
      replace (Z.to_nat (ws - c)) with (S (Z.to_nat (ws - (c + 1)))) by lia.
      cbn. rewrite He. cbn. rewrite Hw. reflexivity.
Qed.

Lemma spawn_rows_spec ws sm sx cols rws : forall g c g',
  spawn_rows ws sm sx cols rws g c = Ok g' ->
  exists wave, g' = g ++ wave /\
    mapM (new_enemy sm)
      (firstn (Z.to_nat (ws - c))
         (flat_map (fun row => map (slot sx row) (range cols)) rws)) = Ok wave.
Proof.
  induction rws as [|row rws IH]; cbn [spawn_rows]; intros g c g' H.
  - injection H as <-. exists []. rewrite app_nil_r. cbn.
    rewrite firstn_nil. auto.
  - apply bind_ok in H as ([g1 c1] & H1 & H).
    apply spawn_cols_spec in H1 as (w1 & -> & -> & Hw1).
    apply IH in H as (w2 & -> & Hw2).
    exists (w1 ++ w2). rewrite app_assoc. split; [reflexivity|].
    cbn [flat_map]. rewrite firstn_app.
    apply mapM_app; [exact Hw1|].
    pose proof (mapM_length _ _ _ Hw1) as Hlen. rewrite length_firstn in Hlen.
    replace (Z.to_nat (ws - c)
             - length (map (slot sx row) (range cols)))%nat
      with (Z.to_nat (ws - (c + Z.of_nat (length w1)))) by lia.
    exact Hw2.
Qed.

Lemma new_enemy_spec sm pos e :
  new_enemy sm pos = Ok e ->
  EnemyPath.formation_pos e = pos /\
  EnemyPath.state e = EnemyPath.entering /\
  EnemyPath.speed e = fmul (fz 4) sm.
Proof.
  unfold new_enemy, EnemyPath.init. intros H.
  apply bind_ok in H as (p & Hp & H). destruct p as [|p0 p]; [discriminate|].
  injection H as <-. cbn. repeat split; auto.
Qed.

Lemma slots_of_wave sm cells wave :
  mapM (new_enemy sm) cells = Ok wave ->
  map EnemyPath.formation_pos wave = cells /\
  Forall (fun e => EnemyPath.state e = EnemyPath.entering /\
                   EnemyPath.speed e = fmul (fz 4) sm) wave.
Proof.
  intros H.
  apply (mapM_Forall2 _ (fun pos e =>
            EnemyPath.formation_pos e = pos /\
            EnemyPath.state e = EnemyPath.entering /\
            EnemyPath.speed e = fmul (fz 4) sm)) in H.
  - induction H as [|pos e cells wave (H1 & H2 & H3) _ [IH1 IH2]]; cbn.
    + split; constructor.
    + split; [congruence|]. constructor; auto.
  - intros pos e He. now apply new_enemy_spec in He.
Qed.

(** Every column and its mirror image are symmetric about x = 550, the
    middle of the playfield of width 1100. *)
Lemma start_x_centred cols row col :
  fst (slot (start_x_of cols) row col)
  + fst (slot (start_x_of cols) row (cols - 1 - col)) = 1100.
Proof.
  unfold slot, start_x_of, spacing_x. cbn [fst].
  assert (H : 2 * ((1100 - (cols - 1) * 150) / 2) = 1100 - (cols - 1) * 150).
  { replace (1100 - (cols - 1) * 150) with ((550 - (cols - 1) * 75) * 2)
      by lia.
    rewrite Z.div_mul by lia. lia. }
  lia.
Qed.

(** What [spawn_wave] adds to the group. *)
Lemma spawn_wave_spec (sp sp' : EnemySpawner.t) (sm : float) :
  spawn_wave sp sm = Ok sp' ->
  wave_size sp' = wave_size sp /\
  exists wave,
    enemy_group sp' = enemy_group sp ++ wave /\
    map EnemyPath.formation_pos wave
    = firstn (Z.to_nat (wave_size sp)) (grid (cols_of (wave_size sp))) /\
    Forall (fun e => EnemyPath.state e = EnemyPath.entering /\
                     EnemyPath.speed e = fmul (fz 4) sm) wave.
Proof.
  unfold spawn_wave. intros H.
  apply bind_ok in H as (g & Hg & H). injection H as <-.
  split; [reflexivity|].
  apply spawn_rows_spec in Hg as (wave & -> & Hw).
  rewrite Z.sub_0_r in Hw. apply slots_of_wave in Hw as [Hs Hf].
  exists wave. cbn [enemy_group set_enemy_group]. auto.
Qed.

Lemma full_grid ws : 20 <= ws -> length (firstn (Z.to_nat ws) (grid (cols_of ws))) = 20%nat.
Proof.
  intros H.
  assert (Hc : cols_of ws = 5).
  { unfold cols_of, max_cols, rows. apply Z.min_l.
    apply Z.div_le_lower_bound; lia. }
  rewrite Hc, length_firstn. change (length (grid 5)) with 20%nat. lia.
Qed.

(** C1, as amended.  [spawn_wave] adds one enemy per cell of the grid, row
    by row, and stops once [wave_size] enemies are placed; the grid has at
    most 5 columns and 4 rows and is centred horizontally.  With
    [wave_size = 40] the grid is full before the count is reached: exactly
    20 enemies are created, in 5 columns and 4 rows. *)
Theorem spawn_wave_layout (sp sp' : EnemySpawner.t) (sm : float) :
  spawn_wave sp sm = Ok sp' ->
  exists wave,
    enemy_group sp' = enemy_group sp ++ wave /\
    map EnemyPath.formation_pos wave
    = firstn (Z.to_nat (wave_size sp)) (grid (cols_of (wave_size sp))) /\
    Forall (fun e => EnemyPath.state e = EnemyPath.entering) wave /\
    cols_of (wave_size sp) <= 5 /\
    (forall row col,
        fst (slot (start_x_of (cols_of (wave_size sp))) row col)
        + fst (slot (start_x_of (cols_of (wave_size sp))) row
                 (cols_of (wave_size sp) - 1 - col)) = 1100) /\
    (wave_size sp = 40 ->
     length wave = 20%nat /\
     map EnemyPath.formation_pos wave
     = [(250, 100); (400, 100); (550, 100); (700, 100); (850, 100);
        (250, 190); (400, 190); (550, 190); (700, 190); (850, 190);
        (250, 280); (400, 280); (550, 280); (700, 280); (850, 280);
        (250, 370); (400, 370); (550, 370); (700, 370); (850, 370)]).
Proof.
  intros H. apply spawn_wave_spec in H as (_ & wave & H1 & H2 & H3).
  exists wave. split; [exact H1|]. split; [exact H2|].
  split; [eapply Forall_impl; [|exact H3]; now intros e [He _]|].
  split; [unfold cols_of, max_cols; lia|].
  split; [intros row col; apply start_x_centred|].
  intros H40. rewrite H40 in H2.
  split; [|rewrite H2; reflexivity].
  rewrite <- (length_map EnemyPath.formation_pos), H2. reflexivity.
Qed.

End EnemySpawnerFacts.

(** C1, as stated, fails: the spawner of a new game has [wave_size = 40]
    and an empty group, and [spawn_wave] leaves 20 enemies in it. *)
Lemma wave_of_40_has_20 :
  @EnemySpawner.spawn_wave Reference.libm EnemySpawner.init (lit 1 1)
  = Ok Scenario.first_wave /\
  EnemySpawner.wave_size EnemySpawner.init = 40 /\
  EnemySpawner.enemy_group EnemySpawner.init = [] /\
  length (EnemySpawner.enemy_group Scenario.first_wave) = 20%nat /\
  length (EnemySpawner.enemy_group Scenario.first_wave) <> 40%nat.
Proof.
  split; [vm_compute; reflexivity|]. repeat split. discriminate.
Qed.

Lemma spawn_wave_layout_witness :
  @EnemySpawner.spawn_wave Reference.libm EnemySpawner.init (lit 1 1)
  = Ok Scenario.first_wave /\
  exists wave,
    EnemySpawner.enemy_group Scenario.first_wave = wave /\
    length wave = 20%nat.
Proof.
  assert (H : @EnemySpawner.spawn_wave Reference.libm EnemySpawner.init
                (lit 1 1) = Ok Scenario.first_wave)
    by (vm_compute; reflexivity).
  split; [exact H|].
  destruct (@spawn_wave_layout Reference.libm EnemySpawner.init
              Scenario.first_wave (lit 1 1) H)
    as (wave & H1 & _ & _ & _ & _ & H5).
  exists wave. split; [exact H1|]. apply H5. reflexivity.
Defined.

(* ================================================================= *)
(** ** Ships and their bullets *)

Lemma one_shot_update sh : Ship.one_shot sh -> Ship.one_shot (Ship.update sh).
Proof.
  unfold Ship.one_shot, Ship.update. cbn. intros H.
  eapply Nat.le_trans; [apply filter_length_le|]. now rewrite length_map.
Qed.

Lemma one_shot_shoot sh : Ship.one_shot sh -> Ship.one_shot (Ship.shoot sh).
Proof.
  unfold Ship.one_shot, Ship.shoot. intros H.
  destruct (Nat.eqb_spec (length (Ship.bullets sh)) 0) as [E|E]; [|exact H].
  cbn. rewrite length_app, E. cbn. lia.
Qed.

Lemma one_shot_init : Ship.one_shot Ship.init.
Proof. unfold Ship.one_shot. cbn. lia. Qed.

Lemma same_bullets_ok sh sh' :
  Ship.bullets sh' = Ship.bullets sh -> Ship.one_shot sh -> Ship.one_shot sh'.
Proof. unfold Ship.one_shot. now intros ->. Qed.

Ltac same_bullets := intros ?sh; apply same_bullets_ok; reflexivity.

Lemma shoot_loaded sh : Ship.bullets sh <> [] -> Ship.shoot sh = sh.
Proof.
  unfold Ship.shoot. destruct (Ship.bullets sh); [congruence|reflexivity].
Qed.

Lemma shoot_empty sh :
  Ship.bullets sh = [] ->
  Ship.bullets (Ship.shoot sh)
  = [Bullet.mk
       (Rect.mk (Rect.x (Ship.rect sh) + Rect.w (Ship.rect sh) / 2 - 3)
                (Rect.y (Ship.rect sh)) 4 4) 0 (-8)].
Proof. unfold Ship.shoot. intros ->. reflexivity. Qed.

Lemma modify_ok h : forall i f,
  (forall sh, Ship.one_shot sh -> Ship.one_shot (f sh)) ->
  Store.bullets_ok h -> Store.bullets_ok (Store.modify h i f).
Proof.
  unfold Store.bullets_ok. induction h as [|sh h IH]; intros i f Hf H; cbn.
  - destruct i; constructor.
  - inversion H; subst. destruct i; constructor; auto.
Qed.

Lemma update_group_ok g : forall h,
  Store.bullets_ok h -> Store.bullets_ok (Store.update_group g h).
Proof.
  unfold Store.update_group.
  induction g as [|i g IH]; cbn; intros h H; [exact H|].
  apply IH. apply modify_ok; [apply one_shot_update|exact H].
Qed.

Lemma get_ok h i : Store.bullets_ok h -> Ship.one_shot (Store.get h i).
Proof.
  unfold Store.get, Store.bullets_ok. intros H.
  destruct (nth_in_or_default i h Ship.init) as [Hin| ->];
    [|apply one_shot_init].
  rewrite Forall_forall in H. now apply H.
Qed.

(* ================================================================= *)
(** ** The game scene *)

Import GameScene.

(** Projections of explicit records and setters. *)
Ltac fields :=
  cbn [GameScene.lives GameScene.lives_group GameScene.respawn_timer
       GameScene.is_respawning GameScene.intro_timer GameScene.start_descent
       GameScene.intro_tar_pos GameScene.intro_moving
       GameScene.player_control_enable GameScene.enemy_spawner GameScene.score
       GameScene.level GameScene.speed_multiplier GameScene.extra_life
       GameScene.game_over GameScene.intro_ships GameScene.intro_done
       GameScene.intro_left_ship GameScene.player GameScene.sprite_group
       GameScene.ships
       set_lives set_lives_group set_respawn_timer set_is_respawning
       set_intro_timer set_start_descent set_intro_moving
       set_player_control_enable set_enemy_spawner set_score set_level
       set_speed_multiplier set_extra_life set_game_over set_intro_ships
       set_intro_done set_player set_sprite_group set_ships
       set_enemies enemies modify_ship
       EnemySpawner.set_wave_size EnemySpawner.set_enemy_group
       EnemySpawner.enemy_group EnemySpawner.wave_size
       EnemySpawner.formation_y EnemySpawner.formation_spacing].


Section GameSceneFacts.
Context {libm : Libm}.

(** *** Bullets and enemies after [groupcollide] *)

Lemma filter_hit_shorter {A} (f : A -> bool) (l : list A) :
  existsb f l = true ->
  (length (filter (fun b => negb (f b)) l) < length l)%nat.
Proof.
  induction l as [|a l IH]; cbn; [discriminate|].
  destruct (f a) eqn:E; cbn.
  - intros _. pose proof (filter_length_le (fun b => negb (f b)) l). lia.
  - intros H. apply IH in H. lia.
Qed.

(** Every enemy hit uses up a bullet. *)
Lemma groupcollide_hits es : forall bs hits rest bs',
  groupcollide es bs = (hits, rest, bs') ->
  (length hits + length bs' <= length bs)%nat.
Proof.
  induction es as [|e es IH]; cbn; intros bs hits rest bs' H.
  - injection H as <- <- <-. cbn. lia.
  - destruct (existsb _ bs) eqn:Ex.
    + destruct (groupcollide es _) as [[h r] b] eqn:E.
      injection H as <- <- <-.
      apply IH in E. apply filter_hit_shorter in Ex. cbn. lia.
    + destruct (groupcollide es bs) as [[h r] b] eqn:E.
      injection H as <- <- <-. now apply IH in E.
Qed.

(** *** The invariant through the blocks of [update_scene] *)

Lemma Inv_frame s s' :
  score s' = score s -> extra_life s' = extra_life s ->
  (Store.bullets_ok (ships s) -> Store.bullets_ok (ships s')) ->
  Inv s -> Inv s'.
Proof. unfold Inv, threshold_ahead. intros -> -> H [H1 H2]. auto. Qed.

Lemma Inv_modify s i f :
  (forall sh, Ship.one_shot sh -> Ship.one_shot (f sh)) ->
  Inv s -> Inv (modify_ship s i f).
Proof.
  intros Hf. apply Inv_frame; try reflexivity. cbn. now apply modify_ok.
Qed.

(** The scoring of one enemy hit. *)
Lemma score_hit_rule (s : GameScene.t) (enemy : EnemyPath.t) :
  threshold_ahead s ->
  (EnemyPath.state enemy = EnemyPath.entering ->
   score (score_hit s enemy) = score s) /\
  (EnemyPath.state enemy = EnemyPath.formation ->
   score (score_hit s enemy) = score s + 50) /\
  (EnemyPath.state enemy = EnemyPath.diving ->
   score (score_hit s enemy) = score s + 150) /\
  (extra_life s <= score (score_hit s enemy) ->
   lives (score_hit s enemy) = lives s + 1 /\
   extra_life (score_hit s enemy) = extra_life s + 10000) /\
  (score (score_hit s enemy) < extra_life s ->
   lives (score_hit s enemy) = lives s /\
   extra_life (score_hit s enemy) = extra_life s) /\
  threshold_ahead (score_hit s enemy).
Proof.
  unfold threshold_ahead, score_hit. intros H.
  destruct (EnemyPath.state enemy); cbn;
    match goal with |- context [if ?b then _ else _] => destruct b eqn:E end;
    cbn; try (apply Z.leb_le in E); try (apply Z.leb_gt in E); cbn in *;
    repeat split; intros; try discriminate; try lia.
Qed.

Lemma score_hit_agree (s0 s : GameScene.t) (enemy : EnemyPath.t) :
  score s0 = score s -> extra_life s0 = extra_life s -> lives s0 = lives s ->
  score (score_hit s0 enemy) = score (score_hit s enemy) /\
  extra_life (score_hit s0 enemy) = extra_life (score_hit s enemy) /\
  lives (score_hit s0 enemy) = lives (score_hit s enemy) /\
  enemies (score_hit s0 enemy) = enemies s0 /\
  ships (score_hit s0 enemy) = ships s0.
Proof.
  unfold score_hit. intros E1 E2 E3.
  destruct (EnemyPath.state enemy); cbn; rewrite ?E1, ?E2, ?E3;
    match goal with |- context [if ?b then _ else _] => destruct b end; cbn;
    rewrite ?E1, ?E2, ?E3; repeat split.
Qed.

Lemma score_hit_Inv s e : Inv s -> Inv (score_hit s e).
Proof.
  intros [H1 H2]. split; [now apply score_hit_rule|].
  destruct (score_hit_agree s s e eq_refl eq_refl eq_refl)
    as (_ & _ & _ & _ & ->).
  exact H2.
Qed.

Lemma fold_score_hit_Inv hits : forall s,
  Inv s -> Inv (fold_left score_hit hits s).
Proof.
  induction hits as [|e hits IH]; cbn; intros s H; [exact H|].
  apply IH. now apply score_hit_Inv.
Qed.

Lemma handle_scoring_Inv s : Inv s -> Inv (handle_scoring s).
Proof.
  unfold handle_scoring. intros H.
  destruct (groupcollide _ _) as [[hits rest] bs] eqn:E.
  apply fold_score_hit_Inv. apply Inv_modify.
  - intros sh _. unfold Ship.one_shot. cbn.
    apply groupcollide_hits in E.
    pose proof (get_ok (ships s) (player s) (proj2 H)) as Hp.
    unfold Ship.one_shot, the_player in *. lia.
  - revert H. apply Inv_frame; auto.
Qed.

Lemma update_sprites_Inv s s' : update_sprites s = Ok s' -> Inv s -> Inv s'.
Proof.
  unfold update_sprites. intros H. repeat step_ok; auto.
  apply Inv_frame; try reflexivity. cbn. intros Hb.
  apply modify_ok.
  - intros sh. unfold Ship.one_shot. cbn. now rewrite length_map.
  - now do 3 apply update_group_ok.
Qed.

Lemma intro_count_Inv s : Inv s -> Inv (intro_count s).
Proof. unfold intro_count. destruct (intro_done s); auto. Qed.

Lemma intro_descent_Inv s : Inv s -> Inv (intro_descent s).
Proof.
  unfold intro_descent. destruct (_ && _); auto. intros H.
  apply Inv_modify; [same_bullets|]. exact H.
Qed.

Lemma intro_start_Inv s : Inv s -> Inv (intro_start s).
Proof. unfold intro_start. cbn. destruct (_ =? _); auto. Qed.

Lemma intro_drift_Inv s : Inv s -> Inv (intro_drift s).
Proof.
  unfold intro_drift. destruct (_ && _); auto. intros H.
  apply Inv_modify; [same_bullets|]. exact H.
Qed.

Lemma intro_floor_Inv s : Inv s -> Inv (intro_floor s).
Proof.
  unfold intro_floor. destruct (_ <=? _); auto. intros H. cbv zeta.
  match goal with
  | |- context [modify_ship ?a ?i ?f] =>
      exact (Inv_modify a i f ltac:(same_bullets) H)
  end.
Qed.

Lemma intro_arrive_Inv s target : Inv s -> Inv (intro_arrive s target).
Proof.
  intros [H1 H2]. split; [exact H1|].
  change (ships (intro_arrive s target))
    with (Store.modify
            (Store.modify (ships s) (intro_left_ship s)
               (fun p => Ship.set_rect p
                           (Rect.set_center (Ship.rect p) target)))
            (intro_left_ship s) (fun p => Ship.set_vel_y p 0)).
  apply modify_ok; [same_bullets|]. apply modify_ok; [same_bullets|].
  exact H2.
Qed.

Lemma intro_travel_Inv s s' : intro_travel s = Ok s' -> Inv s -> Inv s'.
Proof.
  unfold intro_travel. intros H Hi. repeat step_ok; auto.
  - apply Inv_modify; [same_bullets|exact Hi].
  - now apply intro_arrive_Inv.
Qed.

Lemma intro_sequence_Inv s s' : intro_sequence s = Ok s' -> Inv s -> Inv s'.
Proof.
  unfold intro_sequence. intros H Hi. eapply intro_travel_Inv; [exact H|].
  now apply intro_floor_Inv, intro_drift_Inv, intro_start_Inv,
    intro_descent_Inv, intro_count_Inv.
Qed.

(** *** The dive trigger *)

Lemma modify_enemy_nth g : forall k f i,
  nth_error (modify_enemy g k f) i
  = if (i =? k)%nat then option_map f (nth_error g i) else nth_error g i.
Proof.
  induction g as [|e g IH]; intros k f i; cbn.
  - destruct i, k; cbn; try reflexivity; now destruct (i =? k)%nat.
  - destruct k, i; cbn; try reflexivity. apply IH.
Qed.

Lemma formation_enemies_spec g k :
  In k (formation_enemies g) ->
  exists e, nth_error g k = Some e /\
            EnemyPath.state e = EnemyPath.formation.
Proof.
  unfold formation_enemies. rewrite filter_In. intros [_ H].
  destruct (nth_error g k) as [e|]; [|discriminate].
  exists e. split; [reflexivity|]. destruct (EnemyPath.state e); congruence.
Qed.

(** The trigger changes nothing, or starts the dive of one enemy that is in
    formation. *)
Lemma trigger_dive_spec s rnd pick s' :
  trigger_dive s rnd pick = Ok s' ->
  s' = s \/
  exists k, In k (formation_enemies (enemies s)) /\
    s' = set_enemies s
           (modify_enemy (enemies s) k
              (start_dive (Rect.center (Ship.rect (the_player s))))).
Proof.
  unfold trigger_dive. intros H. apply bind_ok in H as (fl & _ & H).
  destruct (_ && _); [|injection H as <-; now left].
  destruct (formation_enemies (enemies s)) as [|i0 others];
    [injection H as <-; now left|].
  right. exists (nth (pick mod length (i0 :: others))%nat (i0 :: others) i0).
  split.
  - apply nth_In. apply Nat.mod_upper_bound. discriminate.
  - injection H as Hs. symmetry. exact Hs.
Qed.

Lemma trigger_dive_Inv s rnd pick s' :
  trigger_dive s rnd pick = Ok s' -> Inv s -> Inv s'.
Proof.
  intros H. apply trigger_dive_spec in H as [->|(k & _ & ->)]; auto.
Qed.

Lemma update_keeps_dive_path e e' :
  EnemyPath.update e = Ok e' ->
  EnemyPath.dive_path e' = EnemyPath.dive_path e.
Proof.
  unfold EnemyPath.update. intros H.
  destruct (EnemyPath.state e).
  - destruct (_ <? _); [|now injection H as <-].
    destruct (nth_error _ _); [|discriminate].
    destruct (EnemyPath.follow _ _ _) as [[r [|]]|]; cbn in H;
      try discriminate; now injection H as <-.
  - now injection H as <-.
  - destruct (_ <? _); [|now injection H as <-].
    destruct (nth_error _ _); [|discriminate].
    destruct (EnemyPath.follow _ _ _) as [[r [|]]|]; cbn in H;
      try discriminate; now injection H as <-.
Qed.

(** *** The death of the player *)

Lemma player_death_frame s :
  score (player_death s) = score s /\
  extra_life (player_death s) = extra_life s /\
  ships (player_death s) = ships s.
Proof.
  destruct s. unfold player_death. cbv zeta. fields.
  destruct (rev _); fields; destruct (0 <? _); repeat split.
Qed.

Lemma player_death_Inv s : Inv s -> Inv (player_death s).
Proof.
  destruct (player_death_frame s) as (E1 & E2 & E3).
  apply Inv_frame; auto. now rewrite E3.
Qed.

(** *** The attributes of the round *)









(** *** The invariant, continued *)

Lemma check_collision_Inv s s' : check_collision s = Ok s' -> Inv s -> Inv s'.
Proof.
  unfold check_collision. intros H Hi.
  destruct (_ && _); [|now injection H as <-].
  apply player_death_Inv in Hi. cbv zeta in H.
  generalize dependent (player_death s). intros s1 H Hi.
  apply bind_ok in H as (sp & _ & H). injection H as <-. exact Hi.
Qed.

Lemma respawn_player_Inv s s' : respawn_player s = Ok s' -> Inv s -> Inv s'.
Proof.
  unfold respawn_player. intros H Hi.
  destruct (is_respawning s); [|now injection H as <-].
  cbv zeta in H. apply bind_ok in H as (s1 & H1 & H).
  assert (Hi1 : Inv s1) by (repeat step_ok; auto).
  cbn in H. injection H as <-.
  apply Inv_modify; [intros sh _; unfold Ship.one_shot; cbn; lia|].
  revert Hi1. apply Inv_frame; try reflexivity. cbn. intros Hb.
  apply Forall_app. split; [exact Hb|]. repeat constructor.
Qed.

Lemma level_progression_Inv s s' :
  level_progression s = Ok s' -> Inv s -> Inv s'.
Proof. unfold level_progression. intros H Hi. repeat step_ok; auto. Qed.

Lemma respawn_countdown_Inv s s' :
  respawn_countdown s = Ok s' -> Inv s -> Inv s'.
Proof. unfold respawn_countdown. intros H Hi. repeat step_ok; auto. Qed.

Lemma update_scene_Inv s rnd pick s' :
  update_scene s rnd pick = Ok s' -> Inv s -> Inv s'.
Proof.
  unfold update_scene, before_collision. intros H Hi. repeat step_ok.
  eapply respawn_countdown_Inv; [eassumption|].
  eapply level_progression_Inv; [eassumption|].
  eapply respawn_player_Inv; [eassumption|].
  eapply check_collision_Inv; [eassumption|].
  eapply trigger_dive_Inv; [eassumption|].
  apply handle_scoring_Inv.
  eapply intro_sequence_Inv; [eassumption|].
  eapply update_sprites_Inv; eassumption.
Qed.

Lemma init_Inv s : init = Ok s -> Inv s.
Proof.
  unfold init. intros H. repeat step_ok. split.
  - unfold threshold_ahead. cbn. lia.
  - cbn. repeat constructor.
Qed.

Lemma handle_event_Inv s ev s' : handle_event s ev = Ok s' -> Inv s -> Inv s'.
Proof.
  unfold handle_event. intros H Hi.
  destruct (game_over s).
  - destruct ev as [[| | | | | | |]| |]; try (now injection H as <-).
    now apply init_Inv.
  - destruct (negb _); [now injection H as <-|].
    destruct ev as [[| | | | | | |]|[| | | | | | |]|]; injection H as <-; auto;
      (apply Inv_modify; [|exact Hi]); try same_bullets;
      apply one_shot_shoot.
Qed.

(** In every scene the game can reach, the score is below the extra-life
    threshold and no ship owns more than one bullet. *)
Lemma reachable_Inv s : reachable s -> Inv s.
Proof.
  induction 1 as [s H|s rnd pick s' _ IH H|s ev s' _ IH H].
  - now apply init_Inv.
  - eapply update_scene_Inv; eauto.
  - eapply handle_event_Inv; eauto.
Qed.

Lemma play_reachable l : forall s s',
  reachable s -> Play.play s l = Ok s' -> reachable s'.
Proof.
  induction l as [|i l IH]; cbn; intros s s' Hr H.
  - now injection H as <-.
  - apply bind_ok in H as (s1 & H1 & H). unfold Play.frame in H1.
    apply bind_ok in H1 as (s0 & H0 & H1).
    eapply IH; [|exact H]. eapply reach_update; [|exact H1].
    eapply reach_event; eauto.
Qed.

Lemma play_app l1 : forall l2 s,
  Play.play s (l1 ++ l2) = bind (Play.play s l1) (fun s' => Play.play s' l2).
Proof.
  induction l1 as [|i l1 IH]; intros l2 s; cbn; [reflexivity|].
  destruct (Play.frame s i); cbn; [apply IH|reflexivity].
Qed.

Lemma handle_event_keeps_enemies s ev s' :
  game_over s = false -> handle_event s ev = Ok s' -> enemies s' = enemies s.
Proof.
  unfold handle_event. intros -> H.
  destruct (negb _); [now injection H as <-|].
  destruct ev as [[| | | | | | |]|[| | | | | | |]|]; now injection H as <-.
Qed.

End GameSceneFacts.

(* ================================================================= *)
(** ** Scoring *)

(** With at most one bullet in flight a tick destroys at most one enemy. *)
Lemma handle_scoring_cases (s : GameScene.t) hits rest bs :
  Ship.one_shot (the_player s) ->
  groupcollide (enemies s) (Ship.bullets (the_player s)) = (hits, rest, bs) ->
  enemies (handle_scoring s) = rest /\
  ((hits = [] /\ score (handle_scoring s) = score s /\
    extra_life (handle_scoring s) = extra_life s /\
    lives (handle_scoring s) = lives s) \/
   (exists enemy, hits = [enemy] /\ bs = [] /\
      score (handle_scoring s) = score (score_hit s enemy) /\
      extra_life (handle_scoring s) = extra_life (score_hit s enemy) /\
      lives (handle_scoring s) = lives (score_hit s enemy))).
Proof.
  intros H1 E. unfold handle_scoring. rewrite E.
  pose proof (groupcollide_hits _ _ _ _ _ E) as Hlen.
  unfold Ship.one_shot in H1.
  destruct hits as [|enemy [|e2 more]]; cbn in Hlen; [| |lia].
  - cbn. split; [reflexivity|]. left. repeat split.
  - cbn [fold_left].
    match goal with |- context [score_hit ?a enemy] => set (s0 := a) end.
    destruct (score_hit_agree s0 s enemy eq_refl eq_refl eq_refl)
      as (A1 & A2 & A3 & A4 & A5).
    split; [rewrite A4; reflexivity|]. right. exists enemy.
    repeat split; auto. destruct bs; [reflexivity|cbn in Hlen; lia].
Qed.

(** C5.  While the score is below the extra-life threshold, as it is in
    every reachable scene: an enemy destroyed in formation is worth 50, an
    enemy destroyed while diving 150; when the new score reaches the
    threshold the lives grow by exactly 1 and the threshold by 10000, which
    puts it ahead of the score again, so that a crossing is rewarded once;
    otherwise lives and threshold are unchanged.  The scoring block of a
    tick in which the player's bullet hits [enemy] does exactly this, and
    removes the enemy. *)
Theorem scoring_rule (s : GameScene.t) (enemy : EnemyPath.t) :
  threshold_ahead s ->
  (EnemyPath.state enemy = EnemyPath.formation ->
   score (score_hit s enemy) = score s + 50) /\
  (EnemyPath.state enemy = EnemyPath.diving ->
   score (score_hit s enemy) = score s + 150) /\
  (extra_life s <= score (score_hit s enemy) ->
   lives (score_hit s enemy) = lives s + 1 /\
   extra_life (score_hit s enemy) = extra_life s + 10000) /\
  (score (score_hit s enemy) < extra_life s ->
   lives (score_hit s enemy) = lives s /\
   extra_life (score_hit s enemy) = extra_life s) /\
  threshold_ahead (score_hit s enemy) /\
  (forall rest bs,
     Ship.one_shot (the_player s) ->
     groupcollide (enemies s) (Ship.bullets (the_player s))
     = ([enemy], rest, bs) ->
     enemies (handle_scoring s) = rest /\
     score (handle_scoring s) = score (score_hit s enemy) /\
     extra_life (handle_scoring s) = extra_life (score_hit s enemy) /\
     lives (handle_scoring s) = lives (score_hit s enemy)).
Proof.
  intros H.
  destruct (score_hit_rule s enemy H) as (_ & R1 & R2 & R3 & R4 & R5).
  repeat (split; [assumption|]).
  intros rest bs Hp E.
  destruct (handle_scoring_cases s _ _ _ Hp E)
    as [He [[Hn _]|(e & Hh & _ & A1 & A2 & A3)]]; [discriminate|].
  injection Hh as <-. auto.
Qed.

(** C10.  While the score is below the extra-life threshold, an enemy
    destroyed in the entering state changes neither the score nor the
    threshold (nor the lives); the scoring block of such a tick removes the
    enemy and leaves score and threshold as they were. *)
Theorem entering_kill_scores_nothing (s : GameScene.t)
    (enemy : EnemyPath.t) :
  threshold_ahead s ->
  EnemyPath.state enemy = EnemyPath.entering ->
  (score (score_hit s enemy) = score s /\
   extra_life (score_hit s enemy) = extra_life s /\
   lives (score_hit s enemy) = lives s) /\
  (forall rest bs,
     Ship.one_shot (the_player s) ->
     groupcollide (enemies s) (Ship.bullets (the_player s))
     = ([enemy], rest, bs) ->
     enemies (handle_scoring s) = rest /\
     score (handle_scoring s) = score s /\
     extra_life (handle_scoring s) = extra_life s).
Proof.
  intros H Hst.
  destruct (score_hit_rule s enemy H) as (R0 & _ & _ & _ & R4 & _).
  specialize (R0 Hst). unfold threshold_ahead in H. rewrite R0 in R4.
  destruct (R4 H) as [L1 L2]. split; [auto|].
  intros rest bs Hp E.
  destruct (handle_scoring_cases s _ _ _ Hp E)
    as [He [[Hn _]|(e & Hh & _ & A1 & A2 & A3)]]; [discriminate|].
  injection Hh as <-. rewrite A1, A2. auto.
Qed.

(* ================================================================= *)
(** ** The single-shot rule *)

(** C6.  [shoot] on a ship that owns a bullet changes nothing; on a ship
    that owns none it creates exactly one; and in every scene the game can
    reach, every ship owns at most one bullet. *)
Theorem single_shot_rule {libm : Libm} :
  (forall sh, Ship.bullets sh <> [] -> Ship.shoot sh = sh) /\
  (forall sh, Ship.bullets sh = [] ->
              exists b, Ship.bullets (Ship.shoot sh) = [b]) /\
  (forall s, reachable s ->
             Forall (fun sh => (length (Ship.bullets sh) <= 1)%nat) (ships s)).
Proof.
  split; [exact shoot_loaded|]. split.
  - intros sh H. eexists. now apply shoot_empty.
  - intros s H. apply reachable_Inv in H. apply H.
Qed.


(* ================================================================= *)
(** ** Collisions with the player, respawns and level clears *)

Section RoundFacts.
Context {libm : Libm}.








(** *** Level clears and the wave that follows *)

(** The level-progression block when the wave is cleared. *)
Lemma level_clear s s' :
  intro_done s = true -> is_respawning s = false -> enemies s = [] ->
  level_progression s = Ok s' ->
  level s' = level s + 1 /\
  wave_size s' = Z.min (40 + (level s + 1) * 5) 80 /\
  (exists fl, float_of_int (level s + 1 - 1) = Ok fl /\
              speed_multiplier s' = fadd (lit 1 1) (fmul fl (lit 15 100))) /\
  is_respawning s' = true /\ respawn_timer s' = 120 /\ enemies s' = [].
Proof.
  unfold level_progression. intros -> -> He H. rewrite He in H.
  cbn [andb negb length Nat.eqb] in H. cbv zeta in H.
  apply bind_ok in H as (fl & Hfl & H). injection H as <-.
  unfold wave_size. cbn. repeat split; auto.
  exists fl. split; [exact Hfl|reflexivity].
Qed.

(** Whatever the speed multiplier of the scene, the wave spawned when a
    countdown expires is spawned by [spawn_wave()], with the default
    multiplier 1.0: its enemies have speed 4 * 1.0. *)
Lemma countdown_spawns_at_base_speed s s' :
  respawn_countdown s = Ok s' \/ respawn_player s = Ok s' ->
  speed_multiplier s' = speed_multiplier s /\
  exists wave,
    enemies s' = enemies s ++ wave /\
    Forall (fun e => EnemyPath.speed e = fmul (fz 4) (lit 1 1)) wave.
Proof.
  assert (Hsp : forall a b,
    (if respawn_timer a <=? 0
     then sp <- EnemySpawner.spawn_wave (enemy_spawner a) (lit 1 1) ;;
          Ok (set_enemy_spawner (set_is_respawning a false) sp)
     else Ok a) = Ok b ->
    speed_multiplier b = speed_multiplier a /\
    exists wave,
      enemies b = enemies a ++ wave /\
      Forall (fun e => EnemyPath.speed e = fmul (fz 4) (lit 1 1)) wave).
  { intros a b H. destruct (respawn_timer a <=? 0).
    - apply bind_ok in H as (sp & Hs & H). injection H as <-.
      apply spawn_wave_spec in Hs as (_ & wave & W1 & _ & W3).
      split; [reflexivity|]. exists wave. split; [exact W1|].
      eapply Forall_impl; [|exact W3]. now intros e [_ He].
    - injection H as <-. split; [reflexivity|]. exists [].
      now rewrite app_nil_r. }
  intros [H|H].
  - unfold respawn_countdown in H.
    destruct (is_respawning s).
    + cbv zeta in H. apply Hsp in H. exact H.
    + injection H as <-. split; [reflexivity|]. exists [].
      now rewrite app_nil_r.
  - unfold respawn_player in H.
    destruct (is_respawning s).
    + cbv zeta in H. apply bind_ok in H as (s1 & H1 & H).
      apply Hsp in H1. cbn in H. injection H as <-. exact H1.
    + injection H as <-. split; [reflexivity|]. exists [].
      now rewrite app_nil_r.
Qed.

End RoundFacts.

(* ================================================================= *)
(** ** Dives *)

Section DiveFacts.
Context {libm : Libm}.
Import Diving.

Lemma Forall2_same {A} (R : A -> A -> Prop) (l : list A) :
  (forall a, R a a) -> Forall2 R l l.
Proof. intros H. induction l; constructor; auto. Qed.

Lemma survivors_all {A} (R : A -> A -> Prop) l l' :
  Forall2 R l l' -> survivors R l l'.
Proof. induction 1; constructor; auto. Qed.

Lemma survivors_none {A} (R : A -> A -> Prop) l : survivors R l [].
Proof. induction l; constructor; auto. Qed.

Lemma survivors_trans {A} (R1 R2 R3 : A -> A -> Prop) :
  (forall a b c, R1 a b -> R2 b c -> R3 a c) ->
  forall l1 l2, survivors R1 l1 l2 ->
  forall l3, survivors R2 l2 l3 -> survivors R3 l1 l3.
Proof.
  intros Hc l1 l2 H12. induction H12 as [|a b l1 l2 Hab _ IH|a l1 l2 _ IH];
    intros l3 H23.
  - inversion H23; subst. constructor.
  - inversion H23 as [|? c ? l3' Hbc H23'|? ? ? H23']; subst.
    + apply survivors_keep; eauto.
    + apply survivors_drop. auto.
  - apply survivors_drop. auto.
Qed.

Lemma bind_ret {A} (c : result A) : bind c Ok = c.
Proof. now destruct c. Qed.

Lemma mapM_twice {A} (f : A -> result A) (l : list A) : forall l1 l2,
  mapM f l = Ok l1 -> mapM f l1 = Ok l2 ->
  mapM (fun a => bind (f a) f) l = Ok l2.
Proof.
  induction l as [|a l IH]; cbn; intros l1 l2 H1 H2.
  - injection H1 as <-. exact H2.
  - apply bind_ok in H1 as (b & Hb & H1). apply bind_ok in H1 as (bs & Hbs & H1).
    injection H1 as <-. cbn in H2.
    apply bind_ok in H2 as (c & Hc & H2). apply bind_ok in H2 as (cs & Hcs & H2).
    injection H2 as <-. rewrite Hb. cbn. rewrite Hc. cbn.
    now rewrite (IH bs cs Hbs Hcs).
Qed.

Lemma mapM_ext {A B} (f g : A -> result B) (l : list A) :
  (forall a, f a = g a) -> mapM f l = mapM g l.
Proof.
  intros E. induction l as [|a l IH]; cbn; [reflexivity|].
  now rewrite E, IH.
Qed.

(** The first block of [update_scene] updates every enemy twice, and not
    at all while the scene is respawning. *)
Lemma update_sprites_enemies s s' :
  update_sprites s = Ok s' ->
  (is_respawning s = true -> s' = s) /\
  (is_respawning s = false ->
   mapM (EnemyPath.updates 2) (enemies s) = Ok (enemies s')).
Proof.
  unfold update_sprites. intros H. split; intros Hr; rewrite Hr in H.
  - now injection H as <-.
  - apply bind_ok in H as (g & Hg & H). apply bind_ok in H as (sp & Hsp & H).
    injection H as <-. unfold EnemySpawner.update in Hsp.
    apply bind_ok in Hsp as (g2 & Hg2 & Hsp). injection Hsp as <-.
    cbn [EnemySpawner.set_enemy_group EnemySpawner.enemy_group] in Hg2.
    match goal with
    | |- _ = Ok ?x => change x with g2
    end.
    rewrite <- (mapM_twice _ _ _ _ Hg Hg2). apply mapM_ext.
    intros e. cbn [EnemyPath.updates].
    destruct (EnemyPath.update e) as [e1|]; [|reflexivity]. cbn [bind].
    apply bind_ret.
Qed.

Lemma update_sprites_ticked s s' p :
  update_sprites s = Ok s' ->
  Forall2 (ticked (if is_respawning s then 0 else 2) p)
          (enemies s) (enemies s').
Proof.
  intros H. apply update_sprites_enemies in H as [H1 H2].
  destruct (is_respawning s).
  - rewrite (H1 eq_refl). apply Forall2_same.
    intros e. exists e. split; [reflexivity|now left].
  - specialize (H2 eq_refl).
    apply (mapM_Forall2 _ (ticked 2 p)) in H2; [exact H2|].
    intros e e1 He. exists e1. split; [exact He|now left].
Qed.

Lemma intro_sequence_enemies s s' :
  intro_sequence s = Ok s' -> enemies s' = enemies s.
Proof.
  unfold intro_sequence. intros H.
  assert (H1 : enemies (intro_count s) = enemies s).
  { unfold intro_count. now destruct (intro_done s). }
  assert (H2 : forall a, enemies (intro_descent a) = enemies a).
  { intros a. unfold intro_descent. now destruct (_ && _). }
  assert (H3 : forall a, enemies (intro_start a) = enemies a).
  { intros a. unfold intro_start. cbv zeta. now destruct (_ =? _). }
  assert (H4 : forall a, enemies (intro_drift a) = enemies a).
  { intros a. unfold intro_drift. now destruct (_ && _). }
  assert (H5 : forall a, enemies (intro_floor a) = enemies a).
  { intros a. unfold intro_floor. now destruct (_ <=? _). }
  assert (H6 : forall a b, intro_travel a = Ok b -> enemies b = enemies a).
  { intros a b Hab. unfold intro_travel in Hab. repeat step_ok; reflexivity. }
  rewrite (H6 _ _ H), H5, H4, H3, H2, H1. reflexivity.
Qed.

(** The enemies that [groupcollide] leaves are those of the group, in
    order, without the enemies hit. *)
Lemma groupcollide_rest es : forall bs hits rest bs',
  groupcollide es bs = (hits, rest, bs') -> survivors eq es rest.
Proof.
  induction es as [|e es IH]; cbn; intros bs hits rest bs' H.
  - injection H as <- <- <-. constructor.
  - destruct (existsb _ bs).
    + destruct (groupcollide es _) as [[h r] b] eqn:E.
      injection H as <- <- <-. apply survivors_drop. eapply IH, E.
    + destruct (groupcollide es bs) as [[h r] b] eqn:E.
      injection H as <- <- <-. apply survivors_keep; [reflexivity|].
      eapply IH, E.
Qed.

Lemma fold_score_hit_enemies hits : forall s,
  enemies (fold_left score_hit hits s) = enemies s.
Proof.
  induction hits as [|e hits IH]; cbn; intros s; [reflexivity|].
  rewrite IH.
  now destruct (score_hit_agree s s e eq_refl eq_refl eq_refl)
    as (_ & _ & _ & -> & _).
Qed.

Lemma handle_scoring_enemies s :
  survivors eq (enemies s) (enemies (handle_scoring s)).
Proof.
  unfold handle_scoring.
  destruct (groupcollide _ _) as [[hits rest] bs] eqn:E.
  rewrite fold_score_hit_enemies. fields. eapply groupcollide_rest, E.
Qed.

Lemma modify_enemy_started g p : forall k,
  (exists e, nth_error g k = Some e /\
             EnemyPath.state e = EnemyPath.formation) ->
  Forall2 (fun e1 e' =>
             e' = e1 \/
             EnemyPath.state e1 = EnemyPath.formation /\
             e' = start_dive p e1)
          g (modify_enemy g k (start_dive p)).
Proof.
  induction g as [|e g IH]; intros [|k] (e0 & Hn & Hst); cbn in *;
    try discriminate.
  - injection Hn as ->. constructor; [now right|].
    apply Forall2_same. now left.
  - constructor; [now left|]. apply IH. eauto.
Qed.

Lemma trigger_dive_enemies s rnd pick s' :
  trigger_dive s rnd pick = Ok s' ->
  Forall2 (fun e1 e' =>
             e' = e1 \/
             EnemyPath.state e1 = EnemyPath.formation /\
             e' = start_dive (Rect.center (Ship.rect (the_player s))) e1)
          (enemies s) (enemies s').
Proof.
  intros H. apply trigger_dive_spec in H as [->|(k & Hk & ->)].
  - apply Forall2_same. now left.
  - apply formation_enemies_spec in Hk.
    change (enemies (set_enemies s ?g)) with g.
    now apply modify_enemy_started.
Qed.

(** Until the collision check, a tick removes the enemies hit by a bullet
    and updates the others. *)
Lemma before_collision_enemies s rnd pick s3 s4 :
  at_trigger s = Ok s3 ->
  trigger_dive s3 rnd pick = Ok s4 ->
  survivors (ticked (if is_respawning s then 0 else 2)
               (Rect.center (Ship.rect (the_player s3))))
            (enemies s) (enemies s4).
Proof.
  unfold at_trigger. intros H3 H4.
  apply bind_ok in H3 as (s1 & H1 & H3). apply bind_ok in H3 as (s2 & H2 & H3).
  injection H3 as <-.
  set (p := Rect.center (Ship.rect (the_player (handle_scoring s2)))) in *.
  pose proof (update_sprites_ticked s s1 p H1) as T1.
  pose proof (intro_sequence_enemies s1 s2 H2) as T2.
  pose proof (handle_scoring_enemies s2) as T3. rewrite T2 in T3.
  pose proof (trigger_dive_enemies _ _ _ _ H4) as T4. fold p in T4.
  apply survivors_all in T1, T4.
  assert (T13 : survivors
                  (ticked (if is_respawning s then 0 else 2) p)
                  (enemies s) (enemies (handle_scoring s2))).
  { eapply survivors_trans; [|exact T1|exact T3].
    intros a b c H <-. exact H. }
  eapply survivors_trans; [|exact T13|exact T4].
  intros a b c (e1 & Hu & [->|[Hf ->]]) [->|[Hf' ->]].
  - exists e1. split; [exact Hu|now left].
  - exists e1. split; [exact Hu|]. right. split; [exact Hf'|reflexivity].
  - exists e1. split; [exact Hu|]. right. split; [exact Hf|reflexivity].
  - exfalso. cbn in Hf'. discriminate Hf'.
Qed.

Lemma new_enemy_fresh sm pos e :
  EnemySpawner.new_enemy sm pos = Ok e -> fresh e.
Proof.
  unfold EnemySpawner.new_enemy, EnemyPath.init. intros H.
  apply bind_ok in H as (p & Hp & H). destruct p as [|p0 p]; [discriminate|].
  injection H as <-. repeat split.
Qed.

Lemma spawn_wave_fresh sp sm sp' :
  EnemySpawner.spawn_wave sp sm = Ok sp' ->
  exists wave,
    EnemySpawner.enemy_group sp' = EnemySpawner.enemy_group sp ++ wave /\
    Forall fresh wave.
Proof.
  unfold EnemySpawner.spawn_wave. intros H.
  apply bind_ok in H as (g & Hg & H). injection H as <-.
  apply spawn_rows_spec in Hg as (wave & -> & Hw).
  exists wave. split; [reflexivity|].
  apply (mapM_Forall2 _ (fun _ e => fresh e)) in Hw.
  - clear -Hw. induction Hw; constructor; auto.
  - intros pos e He. eapply new_enemy_fresh, He.
Qed.

Lemma countdown_enemies (a b : GameScene.t) :
  (if respawn_timer a <=? 0
   then sp <- EnemySpawner.spawn_wave (enemy_spawner a) (lit 1 1) ;;
        Ok (set_enemy_spawner (set_is_respawning a false) sp)
   else Ok a) = Ok b ->
  exists wave, enemies b = enemies a ++ wave /\ Forall fresh wave.
Proof.
  intros H. destruct (respawn_timer a <=? 0).
  - apply bind_ok in H as (sp & Hs & H). injection H as <-.
    apply spawn_wave_fresh in Hs as (wave & W1 & W2).
    exists wave. split; [exact W1|exact W2].
  - injection H as <-. exists []. split; [now rewrite app_nil_r|constructor].
Qed.

(** After the dive trigger a tick only removes and adds enemies: the
    collision block replaces them all by a new wave, and a countdown that
    expires adds a wave. *)
Lemma after_trigger_enemies s4 s' :
  (s5 <- check_collision s4 ;;
   s6 <- respawn_player s5 ;;
   s7 <- level_progression s6 ;;
   respawn_countdown s7) = Ok s' ->
  exists old wave,
    enemies s' = old ++ wave /\ Forall fresh wave /\
    (old = enemies s4 \/ old = []).
Proof.
  intros H. apply bind_ok in H as (s5 & H5 & H).
  apply bind_ok in H as (s6 & H6 & H). apply bind_ok in H as (s7 & H7 & H).
  assert (E5 : exists w, enemies s5 = w /\
                 (w = enemies s4 \/ Forall fresh w)).
  { unfold check_collision in H5. destruct (_ && _).
    - cbv zeta in H5. apply bind_ok in H5 as (sp & Hsp & H5).
      injection H5 as <-. apply spawn_wave_fresh in Hsp as (wave & W1 & W2).
      exists wave. split; [exact W1|now right].
    - injection H5 as <-. eauto. }
  assert (E6 : exists w, enemies s6 = enemies s5 ++ w /\ Forall fresh w).
  { unfold respawn_player in H6. destruct (is_respawning s5).
    - cbv zeta in H6. apply bind_ok in H6 as (s1 & H1 & H6).
      apply countdown_enemies in H1. cbn in H6. injection H6 as <-.
      exact H1.
    - injection H6 as <-. exists []. split; [now rewrite app_nil_r|constructor]. }
  assert (E7 : enemies s7 = enemies s6).
  { unfold level_progression in H7. destruct (_ && _ && _).
    - cbv zeta in H7. apply bind_ok in H7 as (fl & _ & H7).
      now injection H7 as <-.
    - now injection H7 as <-. }
  assert (E8 : exists w, enemies s' = enemies s7 ++ w /\ Forall fresh w).
  { unfold respawn_countdown in H. destruct (is_respawning s7).
    - cbv zeta in H. now apply countdown_enemies in H.
    - injection H as <-. exists []. split; [now rewrite app_nil_r|constructor]. }
  destruct E5 as (w5 & E5 & [->|F5]), E6 as (w6 & E6 & F6),
    E8 as (w8 & E8 & F8); rewrite E8, E7, E6, E5.
  - exists (enemies s4), (w6 ++ w8). rewrite app_assoc.
    split; [reflexivity|]. split; [now apply Forall_app|now left].
  - exists [], ((w5 ++ w6) ++ w8).
    split; [reflexivity|]. split; [|now right].
    apply Forall_app. split; [now apply Forall_app|exact F8].
Qed.

(** One tick of the game, seen from the enemies. *)
Lemma update_scene_enemies s rnd pick s' :
  update_scene s rnd pick = Ok s' ->
  exists s3 old wave,
    at_trigger s = Ok s3 /\
    enemies s' = old ++ wave /\
    survivors (ticked (if is_respawning s then 0 else 2)
                 (Rect.center (Ship.rect (the_player s3))))
              (enemies s) old /\
    Forall fresh wave.
Proof.
  unfold update_scene, before_collision. intros H.
  apply bind_ok in H as (s4 & H4 & H).
  apply bind_ok in H4 as (s1 & H1 & H4). apply bind_ok in H4 as (s2 & H2 & H4).
  assert (H3 : at_trigger s = Ok (handle_scoring s2)).
  { unfold at_trigger. rewrite H1. cbn [bind]. rewrite H2. reflexivity. }
  pose proof (before_collision_enemies s rnd pick _ s4 H3 H4) as T.
  apply after_trigger_enemies in H as (old & wave & E & F & [->| ->]).
  - exists (handle_scoring s2), (enemies s4), wave. auto.
  - exists (handle_scoring s2), [], wave.
    split; [exact H3|]. split; [exact E|]. split; [apply survivors_none|exact F].
Qed.

Lemma updates_keep_dive_path k : forall e e',
  EnemyPath.updates k e = Ok e' ->
  EnemyPath.dive_path e' = EnemyPath.dive_path e.
Proof.
  induction k as [|k IH]; cbn; intros e e' H.
  - now injection H as <-.
  - apply bind_ok in H as (e1 & H1 & H). rewrite (IH _ _ H).
    now apply update_keeps_dive_path.
Qed.

End DiveFacts.

(** C7.  [create_dive_path] returns the four points [m; p; m; f], where [m]
    is the (integer) midpoint of the start and of the player's position,
    200 further down.  A triggered dive stores that path, computed from the
    diver's position and from the player's position at that moment, in an
    enemy that was in formation, and leaves the other enemies alone.  The
    stored path is a value: no update of the enemy changes it, no input
    event, which sets the player's velocity, changes any enemy, and no
    tick of the game, which moves the player, changes it either.  Of the
    enemies a tick leaves in the game, each is a new enemy, or an enemy of
    before that has been updated and has kept its dive path, unless, being
    in formation after its updates, it has been sent on a new dive. *)
Theorem dive_path_is_snapshot {libm : Libm} :
  (forall start target end_,
      let m := ((fst start + fst target) / 2,
                (snd start + snd target) / 2 + 200) in
      create_dive_path start target end_ = [m; target; m; end_] /\
      2 * fst m <= fst start + fst target <= 2 * fst m + 1 /\
      2 * (snd m - 200) <= snd start + snd target <= 2 * (snd m - 200) + 1) /\
  (forall s rnd pick s' i e',
      trigger_dive s rnd pick = Ok s' ->
      nth_error (enemies s') i = Some e' ->
      nth_error (enemies s) i = Some e' \/
      exists e,
        nth_error (enemies s) i = Some e /\
        EnemyPath.state e = EnemyPath.formation /\
        EnemyPath.state e' = EnemyPath.diving /\
        EnemyPath.dive_point e' = 0%nat /\
        EnemyPath.dive_path e'
        = create_dive_path (Rect.center (EnemyPath.rect e))
            (Rect.center (Ship.rect (the_player s)))
            (EnemyPath.formation_pos e)) /\
  (forall e e', EnemyPath.update e = Ok e' ->
                EnemyPath.dive_path e' = EnemyPath.dive_path e) /\
  (forall s ev s', game_over s = false -> handle_event s ev = Ok s' ->
                   enemies s' = enemies s) /\
  (forall s rnd pick s',
      update_scene s rnd pick = Ok s' ->
      exists s3 old wave,
        Diving.at_trigger s = Ok s3 /\
        enemies s' = old ++ wave /\
        Forall Diving.fresh wave /\
        Diving.survivors
          (fun e e' =>
             Diving.ticked (if is_respawning s then 0 else 2)
               (Rect.center (Ship.rect (the_player s3))) e e' /\
             (EnemyPath.dive_path e' = EnemyPath.dive_path e \/
              exists e1,
                EnemyPath.updates (if is_respawning s then 0 else 2) e
                = Ok e1 /\
                EnemyPath.state e1 = EnemyPath.formation /\
                EnemyPath.state e' = EnemyPath.diving /\
                EnemyPath.dive_point e' = 0%nat /\
                EnemyPath.dive_path e'
                = create_dive_path (Rect.center (EnemyPath.rect e1))
                    (Rect.center (Ship.rect (the_player s3)))
                    (EnemyPath.formation_pos e1)))
          (enemies s) old).
Proof.
  split; [|split; [|split; [|split]]].
  - intros start target end_ m. split; [reflexivity|]. subst m. cbn [fst snd].
    pose proof (Z.div_mod (fst start + fst target) 2 ltac:(lia)).
    pose proof (Z.mod_pos_bound (fst start + fst target) 2 ltac:(lia)).
    pose proof (Z.div_mod (snd start + snd target) 2 ltac:(lia)).
    pose proof (Z.mod_pos_bound (snd start + snd target) 2 ltac:(lia)).
    lia.
  - intros s rnd pick s' i e' H Hn.
    apply trigger_dive_spec in H as [->|(k & Hk & ->)]; [now left|].
    apply formation_enemies_spec in Hk as (e & He & Hst).
    change (nth_error (modify_enemy (enemies s) k
              (start_dive (Rect.center (Ship.rect (the_player s))))) i
            = Some e') in Hn.
    rewrite modify_enemy_nth in Hn.
    destruct (Nat.eqb_spec i k) as [->|Hne]; [|now left].
    rewrite He in Hn. cbn in Hn. injection Hn as <-.
    right. exists e. repeat split; auto.
  - exact update_keeps_dive_path.
  - exact handle_event_keeps_enemies.
  - intros s rnd pick s' H.
    apply update_scene_enemies in H as (s3 & old & wave & H3 & E & T & F).
    exists s3, old, wave. split; [exact H3|]. split; [exact E|].
    split; [exact F|].
    eapply (survivors_trans _ eq); [|exact T|].
    + intros a b c Hab <-. split; [exact Hab|].
      destruct Hab as (e1 & Hu & [->|[Hf ->]]).
      * left. eapply updates_keep_dive_path, Hu.
      * right. exists e1. repeat split; auto.
    + apply survivors_all, Forall2_same. reflexivity.
Qed.

(* ================================================================= *)
(** ** The properties on a game that is played

    The scenes of [Scenario] are reached from [__init__] through the main
    loop, with the reference library. *)

Section Played.
Import Scenario.
#[local] Existing Instance Reference.libm.

Lemma opening_reachable : reachable opening.
Proof. apply reach_init. vm_compute. reflexivity. Qed.

Lemma formed_reachable : reachable formed.
Proof.
  apply (play_reachable (repeat idle 400) opening);
    [exact opening_reachable|exact formed_played].
Qed.


Lemma before_clear_reachable : reachable before_clear.
Proof.
  apply (play_reachable clear_trace formed); [exact formed_reachable|].
  vm_compute. reflexivity.
Qed.



(** C8.  The code at the failing input.  The scene [before_clear] is
    reached by the game at level 1 with one enemy left.  The next frame
    destroys it: the level becomes 2, the wave size 50 and the speed
    multiplier 1.0 + 1 * 0.15, and a countdown starts.  Sixty frames later
    the next wave is there, 20 enemies, and every one of them has speed
    4.0, not 4 * 1.15 = 4.6: the countdown calls [spawn_wave()] without the
    multiplier. *)
Theorem level_clear_ignores_multiplier :
  reachable before_clear /\
  level before_clear = 1 /\ length (enemies before_clear) = 1%nat /\
  Play.frame before_clear fire = Ok cleared /\
  enemies cleared = [] /\ level cleared = 2 /\ wave_size cleared = 50 /\
  speed_multiplier cleared = fadd (lit 1 1) (fmul (fz 1) (lit 15 100)) /\
  is_respawning cleared = true /\
  Play.play cleared (repeat idle 60) = Ok next_wave /\
  is_respawning next_wave = false /\
  speed_multiplier next_wave = speed_multiplier cleared /\
  map EnemyPath.speed (enemies next_wave) = repeat (fz 4) 20 /\
  fmul (fz 4) (speed_multiplier next_wave) = lit 46 10 /\
  lit 46 10 <> fz 4.
Proof.
  split; [exact before_clear_reachable|].
  split; [reflexivity|]. split; [reflexivity|].
  split; [vm_compute; reflexivity|].
  split; [reflexivity|]. split; [reflexivity|]. split; [reflexivity|].
  split; [vm_compute; reflexivity|]. split; [reflexivity|].
  split; [vm_compute; reflexivity|].
  split; [reflexivity|]. split; [reflexivity|].
  split; [vm_compute; reflexivity|].
  split; [vm_compute; reflexivity|].
  vm_compute. discriminate.
Qed.

Lemma scoring_rule_witness :
  threshold_ahead formation_kill /\
  EnemyPath.state formation_victim = EnemyPath.formation /\
  enemies (handle_scoring formation_kill) = formation_rest /\
  length formation_rest = 39%nat /\
  score (handle_scoring formation_kill) = score formation_kill + 50.
Proof.
  assert (H : threshold_ahead formation_kill) by (vm_compute; reflexivity).
  assert (Hs : Ship.one_shot (the_player formation_kill))
    by (vm_compute; repeat constructor).
  assert (Hg : groupcollide (enemies formation_kill)
                 (Ship.bullets (the_player formation_kill))
               = ([formation_victim], formation_rest, []))
    by (vm_compute; reflexivity).
  destruct (scoring_rule formation_kill formation_victim H)
    as (R1 & _ & _ & _ & _ & R6).
  destruct (R6 formation_rest [] Hs Hg) as (E1 & E2 & _).
  split; [exact H|]. split; [reflexivity|]. split; [exact E1|].
  split; [reflexivity|]. rewrite E2. apply R1. reflexivity.
Defined.

Lemma entering_kill_scores_nothing_witness :
  threshold_ahead entering_kill /\
  EnemyPath.state entering_victim = EnemyPath.entering /\
  enemies (handle_scoring entering_kill) = entering_rest /\
  length entering_rest = 39%nat /\
  score (handle_scoring entering_kill) = score entering_kill /\
  extra_life (handle_scoring entering_kill) = extra_life entering_kill.
Proof.
  assert (H : threshold_ahead entering_kill) by (vm_compute; reflexivity).
  assert (Hs : Ship.one_shot (the_player entering_kill))
    by (vm_compute; repeat constructor).
  assert (Hg : groupcollide (enemies entering_kill)
                 (Ship.bullets (the_player entering_kill))
               = ([entering_victim], entering_rest, []))
    by (vm_compute; reflexivity).
  destruct (entering_kill_scores_nothing entering_kill entering_victim H
              eq_refl) as (_ & R).
  destruct (R entering_rest [] Hs Hg) as (E1 & E2 & E3).
  split; [exact H|]. split; [reflexivity|]. split; [exact E1|].
  split; [reflexivity|]. split; [exact E2|exact E3].
Defined.

Lemma single_shot_rule_witness :
  Ship.bullets (the_player formation_kill) <> [] /\
  Ship.shoot (the_player formation_kill) = the_player formation_kill /\
  (exists b, Ship.bullets (Ship.shoot Ship.init) = [b]) /\
  Forall (fun sh => (length (Ship.bullets sh) <= 1)%nat) (ships formed).
Proof.
  destruct single_shot_rule as (A & B & C).
  assert (H : Ship.bullets (the_player formation_kill) <> [])
    by (vm_compute; discriminate).
  split; [exact H|]. split; [exact (A _ H)|].
  split; [apply B; reflexivity|]. apply C. exact formed_reachable.
Defined.

Lemma dive_path_is_snapshot_witness :
  create_dive_path (250, 100) (550, 1200) (250, 100)
  = [(400, 850); (550, 1200); (400, 850); (250, 100)] /\
  trigger_dive at_dive (fz 0) 0 = Ok after_dive /\
  Rect.center (Ship.rect (the_player at_dive)) = (550, 1200) /\
  (exists e e',
    nth_error (enemies at_dive) 0 = Some e /\
    nth_error (enemies after_dive) 0 = Some e' /\
    EnemyPath.state e' = EnemyPath.diving /\
    EnemyPath.dive_path e'
    = [(400, 850); (550, 1200); (400, 850); (250, 100)]) /\
  update_scene chased (lit 99 100) 0 = Ok escaped /\
  Rect.center (Ship.rect (the_player chased)) = (550, 1200) /\
  Rect.center (Ship.rect (the_player escaped)) = (540, 1200) /\
  map EnemyPath.dive_path (enemies escaped)
  = map EnemyPath.dive_path (enemies chased) /\
  exists s3 old wave,
    Diving.at_trigger chased = Ok s3 /\ enemies escaped = old ++ wave /\
    Forall Diving.fresh wave.
Proof.
  destruct dive_path_is_snapshot as (A & B & _ & _ & T).
  split; [exact (proj1 (A (250, 100) (550, 1200) (250, 100)))|].
  assert (Hu : update_scene chased (lit 99 100) 0 = Ok escaped)
    by (vm_compute; reflexivity).
  assert (Ht : exists s3 old wave,
             Diving.at_trigger chased = Ok s3 /\
             enemies escaped = old ++ wave /\ Forall Diving.fresh wave).
  { destruct (T chased (lit 99 100) 0%nat escaped Hu)
      as (s3 & old & wave & T1 & T2 & T3 & _).
    exists s3, old, wave. auto. }
  cut (trigger_dive at_dive (fz 0) 0 = Ok after_dive /\
       Rect.center (Ship.rect (the_player at_dive)) = (550, 1200) /\
       (exists e e',
           nth_error (enemies at_dive) 0 = Some e /\
           nth_error (enemies after_dive) 0 = Some e' /\
           EnemyPath.state e' = EnemyPath.diving /\
           EnemyPath.dive_path e'
           = [(400, 850); (550, 1200); (400, 850); (250, 100)])).
  { intros (C1 & C2 & C3). split; [exact C1|]. split; [exact C2|].
    split; [exact C3|]. split; [exact Hu|]. split; [reflexivity|].
    split; [reflexivity|]. split; [reflexivity|exact Ht]. }
  clear Hu Ht T.
  assert (H : trigger_dive at_dive (fz 0) 0 = Ok after_dive)
    by (vm_compute; reflexivity).
  split; [exact H|]. split; [reflexivity|].
  assert (Hn : exists e', nth_error (enemies after_dive) 0 = Some e' /\
                          EnemyPath.state e' = EnemyPath.diving).
  { eexists. split; reflexivity. }
  destruct Hn as (e' & Hn & Hd).
  destruct (B at_dive (fz 0) 0%nat after_dive 0%nat e' H Hn)
    as [Hsame|(e & He & _ & Hst & _ & Hp)].
  - exfalso. cbn in Hsame. injection Hsame as <-. discriminate Hd.
  - exists e, e'. split; [exact He|]. split; [exact Hn|].
    split; [exact Hst|]. rewrite Hp. cbn in He. injection He as <-.
    reflexivity.
Defined.

End Played.

(* ================================================================= *)
(** * Further properties *)

(** ** Errors of the enemy code *)

Lemma only_ok {A} (P : exn -> Prop) (a : A) : Raises.only P (Ok a).
Proof. intros e H. discriminate H. Qed.

Lemma only_bind {A B} (P : exn -> Prop) (c : result A) (k : A -> result B) :
  Raises.only P c -> (forall a, c = Ok a -> Raises.only P (k a)) ->
  Raises.only P (bind c k).
Proof.
  intros Hc Hk e. destruct c as [a|e0]; cbn.
  - now apply Hk.
  - intros H. apply Hc. injection H as ->. reflexivity.
Qed.

Lemma only_weaken {A} (P Q : exn -> Prop) (c : result A) :
  (forall e, P e -> Q e) -> Raises.only P c -> Raises.only Q c.
Proof. intros HPQ Hc e H. apply HPQ, Hc, H. Qed.

Lemma only_mapM {A B} (P : exn -> Prop) (f : A -> result B) (l : list A) :
  (forall a, In a l -> Raises.only P (f a)) -> Raises.only P (mapM f l).
Proof.
  induction l as [|a l IH]; cbn [mapM]; intros Hf; [apply only_ok|].
  apply only_bind; [apply Hf; now left|]. intros b _.
  apply only_bind; [apply IH; intros a' Ha'; apply Hf; now right|].
  intros bs _. apply only_ok.
Qed.

Section EnemyFacts.
Context {libm : Libm}.

Lemma numeric_float_of_int n : Raises.only Raises.numeric (float_of_int n).
Proof.
  unfold float_of_int. intros e.
  destruct (fz n); intros H; try discriminate H.
  injection H as <-. now left.
Qed.

Lemma numeric_int_of_float f : Raises.only Raises.numeric (int_of_float f).
Proof.
  intros e. destruct f; cbn; intros H; try discriminate H;
    injection H as <-; [now left|right; now left].
Qed.

Lemma numeric_of_float f : Raises.only Raises.numeric (Rect.of_float f).
Proof.
  intros e. unfold Rect.of_float.
  destruct (Rect.nearest f) as [n|]; [destruct (_ && _)|]; intros H;
    try discriminate H; injection H as <-; right; now right.
Qed.

Lemma numeric_int_truediv a b :
  b <> 0 -> Raises.only Raises.numeric (int_truediv a b).
Proof.
  intros Hb e. unfold int_truediv.
  destruct (Z.eqb_spec b 0) as [|_]; [contradiction|].
  destruct (a =? 0); [discriminate|].
  destruct (SFdiv_core_binary _ _ _ _ _ _) as [[q ex] l].
  destruct (binary_round_aux _ _ _ _ _ _); intros H; try discriminate H.
  injection H as <-. now left.
Qed.

Lemma numeric_pow_half n : Raises.only Raises.numeric (pow_half n).
Proof.
  unfold pow_half. apply only_bind; [apply numeric_float_of_int|].
  intros f _. destruct (feqb f (fz 0)); [apply only_ok|].
  destruct (feqb f (fz 1)); [apply only_ok|].
  intros e. destruct (pow f (lit 5 10)); intros H; try discriminate H.
  injection H as <-. now left.
Qed.

Lemma arithmetic_truediv a d : Raises.only Raises.arithmetic (float_truediv a d).
Proof.
  intros e. unfold float_truediv. destruct (feqb d (fz 0)); intros H;
    [|discriminate H].
  injection H as <-. now right.
Qed.

Lemma numeric_add_centerx r v : Raises.only Raises.numeric (Rect.add_centerx r v).
Proof.
  unfold Rect.add_centerx.
  apply only_bind; [apply numeric_float_of_int|]. intros c _.
  apply only_bind; [apply numeric_of_float|]. intros n _. apply only_ok.
Qed.

Lemma numeric_add_centery r v : Raises.only Raises.numeric (Rect.add_centery r v).
Proof.
  unfold Rect.add_centery.
  apply only_bind; [apply numeric_float_of_int|]. intros c _.
  apply only_bind; [apply numeric_of_float|]. intros n _. apply only_ok.
Qed.

Lemma numeric_arithmetic {A} (c : result A) :
  Raises.only Raises.numeric c -> Raises.only Raises.arithmetic c.
Proof. apply only_weaken. intros e H. now left. Qed.

Lemma arithmetic_follow r target speed :
  Raises.only Raises.arithmetic (EnemyPath.follow r target speed).
Proof.
  unfold EnemyPath.follow, EnemyPath.distance_to.
  apply only_bind; [apply numeric_arithmetic, numeric_pow_half|]. intros d _.
  destruct (flt d speed); [apply only_ok|].
  apply only_bind; [apply numeric_arithmetic, numeric_float_of_int|].
  intros fdx _.
  apply only_bind; [apply arithmetic_truediv|]. intros qx _.
  apply only_bind; [apply numeric_arithmetic, numeric_add_centerx|].
  intros r1 _.
  apply only_bind; [apply numeric_arithmetic, numeric_float_of_int|].
  intros fdy _.
  apply only_bind; [apply arithmetic_truediv|]. intros qy _.
  apply only_bind; [apply numeric_arithmetic, numeric_add_centery|].
  intros r2 _. apply only_ok.
Qed.

Lemma arithmetic_update e : Raises.only Raises.arithmetic (EnemyPath.update e).
Proof.
  unfold EnemyPath.update. destruct (EnemyPath.state e).
  - destruct (Z.ltb_spec (Z.of_nat (EnemyPath.current_point e))
                (Z.of_nat (length (EnemyPath.path e)) - 1)) as [Hlt|_];
      [|apply only_ok].
    destruct (nth_error (EnemyPath.path e) (EnemyPath.current_point e))
      as [target|] eqn:En.
    + apply only_bind; [apply arithmetic_follow|].
      intros [r [|]] _; apply only_ok.
    + apply nth_error_None in En. lia.
  - apply only_ok.
  - destruct (Z.ltb_spec (Z.of_nat (EnemyPath.dive_point e))
                (Z.of_nat (length (EnemyPath.dive_path e)))) as [Hlt|_];
      [|apply only_ok].
    destruct (nth_error (EnemyPath.dive_path e) (EnemyPath.dive_point e))
      as [target|] eqn:En.
    + apply only_bind; [apply arithmetic_follow|].
      intros [r [|]] _; apply only_ok.
    + apply nth_error_None in En. lia.
Qed.

(** X1.  [EnemyPath.update] never indexes a path out of bounds: the guards
    [current_point < len(path) - 1] and [dive_point < len(dive_path)] keep
    both list accesses inside the list, for every enemy, whatever its
    paths and indices. *)
Theorem update_index_in_bounds (e : EnemyPath.t) :
  EnemyPath.update e <> Raise IndexError.
Proof.
  intros H. apply arithmetic_update in H as [[H|[H|H]]|H]; discriminate H.
Qed.

Lemma numeric_spiral_point cx cy flip i :
  Raises.only Raises.numeric (EnemyPath.spiral_point cx cy flip 60 i).
Proof.
  unfold EnemyPath.spiral_point.
  apply only_bind; [apply numeric_int_truediv; discriminate|]. intros q _.
  apply only_bind; [apply numeric_int_truediv; discriminate|]. intros r _.
  apply only_bind; [apply numeric_float_of_int|]. intros fx _.
  apply only_bind; [apply numeric_float_of_int|]. intros fy _.
  apply only_bind; [apply numeric_int_truediv; discriminate|]. intros d _.
  apply only_bind; [apply numeric_int_of_float|]. intros xi _.
  apply only_bind; [apply numeric_int_of_float|]. intros yi _.
  apply only_ok.
Qed.

Lemma numeric_approach_point fx fy dx dy i :
  Raises.only Raises.numeric (EnemyPath.approach_point fx fy dx dy i).
Proof.
  unfold EnemyPath.approach_point.
  apply only_bind; [apply numeric_float_of_int|]. intros fi _.
  apply only_bind; [apply numeric_float_of_int|]. intros f1 _.
  apply only_bind; [apply numeric_int_of_float|]. intros xi _.
  apply only_bind; [apply numeric_float_of_int|]. intros f2 _.
  apply only_bind; [apply numeric_int_of_float|]. intros yi _.
  apply only_ok.
Qed.

Lemma numeric_create_arc_path sx sy flip pos :
  Raises.only Raises.numeric (EnemyPath.create_arc_path sx sy flip pos).
Proof.
  unfold EnemyPath.create_arc_path.
  change (int_of_float (fmul (lit 15 10) (fz EnemyPath.points_per_loop)))
    with (@Ok Z 60).
  cbn [bind].
  apply only_bind; [apply only_mapM; intros; apply numeric_spiral_point|].
  intros spiral Hsp. apply mapM_length in Hsp.
  destruct (rev spiral) as [|[final_x final_y] r] eqn:Er.
  - apply (f_equal (@length _)) in Er. rewrite length_rev, Hsp in Er.
    discriminate Er.
  - apply only_bind; [apply numeric_int_truediv; discriminate|]. intros dx _.
    apply only_bind; [apply numeric_int_truediv; discriminate|]. intros dy _.
    apply only_bind; [apply only_mapM; intros; apply numeric_approach_point|].
    intros tail _. apply only_ok.
Qed.

Lemma numeric_init sx sy flip pos sm :
  Raises.only Raises.numeric (EnemyPath.init sx sy flip pos sm).
Proof.
  unfold EnemyPath.init.
  apply only_bind; [apply numeric_create_arc_path|]. intros p Hp.
  destruct p as [|p0 p]; [|apply only_ok].
  apply create_arc_path_shape in Hp
    as (spiral & tail & fx & fy & dx & dy & Hp & Hs & _).
  destruct spiral; discriminate.
Qed.

Lemma numeric_new_enemy sm pos :
  Raises.only Raises.numeric (EnemySpawner.new_enemy sm pos).
Proof. unfold EnemySpawner.new_enemy. apply numeric_init. Qed.

Lemma numeric_spawn_cols ws sm sx row cols : forall g c,
  Raises.only Raises.numeric (EnemySpawner.spawn_cols ws sm sx row cols g c).
Proof.
  induction cols as [|col cols IH]; intros g c; cbn [EnemySpawner.spawn_cols];
    [apply only_ok|].
  destruct (ws <=? c); [apply only_ok|].
  refine (only_bind _ _ _ (numeric_new_enemy _ _) _). intros e _. apply IH.
Qed.

Lemma numeric_spawn_rows ws sm sx cols rws : forall g c,
  Raises.only Raises.numeric (EnemySpawner.spawn_rows ws sm sx cols rws g c).
Proof.
  induction rws as [|row rws IH]; intros g c; cbn [EnemySpawner.spawn_rows];
    [apply only_ok|].
  apply only_bind; [apply numeric_spawn_cols|]. intros [g' c'] _. apply IH.
Qed.

Lemma numeric_spawn_wave sp sm :
  Raises.only Raises.numeric (EnemySpawner.spawn_wave sp sm).
Proof.
  unfold EnemySpawner.spawn_wave.
  apply only_bind; [apply numeric_spawn_rows|]. intros g _. apply only_ok.
Qed.

(** X2.  Whatever the mathematical library and the arguments, creating an
    enemy ([create_arc_path], [EnemyPath.__init__]), spawning a wave and
    creating the game scene never fail with an [IndexError] ([path[-1]] and
    [path[0]] are taken from lists of 60 and 100 points) nor with a
    [ZeroDivisionError] (the divisors are the constants 40 and 60). *)
Theorem creation_raises_no_index_or_division_error :
  (forall sx sy flip pos,
      EnemyPath.create_arc_path sx sy flip pos <> Raise IndexError /\
      EnemyPath.create_arc_path sx sy flip pos <> Raise ZeroDivisionError) /\
  (forall sx sy flip pos sm,
      EnemyPath.init sx sy flip pos sm <> Raise IndexError /\
      EnemyPath.init sx sy flip pos sm <> Raise ZeroDivisionError) /\
  (forall sp sm,
      EnemySpawner.spawn_wave sp sm <> Raise IndexError /\
      EnemySpawner.spawn_wave sp sm <> Raise ZeroDivisionError) /\
  GameScene.init <> Raise IndexError /\
  GameScene.init <> Raise ZeroDivisionError.
Proof.
  assert (N : forall A (c : result A), Raises.only Raises.numeric c ->
              c <> Raise IndexError /\ c <> Raise ZeroDivisionError).
  { intros A c Hc.
    split; intros H; apply Hc in H as [H|[H|H]]; discriminate H. }
  split; [intros; apply N, numeric_create_arc_path|].
  split; [intros; apply N, numeric_init|].
  split; [intros; apply N, numeric_spawn_wave|].
  apply N. unfold GameScene.init.
  apply only_bind; [apply numeric_spawn_wave|]. intros sp _. apply only_ok.
Qed.

(* ================================================================= *)
(** ** The state machine of an enemy *)

(** What one update can change, in any state. *)
Lemma update_step e e' :
  EnemyPath.update e = Ok e' ->
  EnemyPath.path e' = EnemyPath.path e /\
  EnemyPath.formation_pos e' = EnemyPath.formation_pos e /\
  EnemyPath.speed e' = EnemyPath.speed e /\
  Rect.w (EnemyPath.rect e') = Rect.w (EnemyPath.rect e) /\
  Rect.h (EnemyPath.rect e') = Rect.h (EnemyPath.rect e) /\
  (EnemyPath.current_point e <= EnemyPath.current_point e'
   <= S (EnemyPath.current_point e))%nat /\
  (EnemyPath.dive_point e <= EnemyPath.dive_point e'
   <= S (EnemyPath.dive_point e))%nat /\
  (EnemyPath.state e' = EnemyPath.state e \/ EnemyPath.settled e').
Proof.
  assert (F : forall r target speed r' arrived,
             EnemyPath.follow r target speed = Ok (r', arrived) ->
             Rect.w r' = Rect.w r /\ Rect.h r' = Rect.h r).
  { unfold EnemyPath.follow. intros r target speed r' arrived H.
    apply bind_ok in H as (d & _ & H).
    destruct (flt d speed); [injection H as <- <-; now split|].
    apply bind_ok in H as (fdx & _ & H). apply bind_ok in H as (qx & _ & H).
    apply bind_ok in H as (r1 & H1 & H).
    apply bind_ok in H as (fdy & _ & H). apply bind_ok in H as (qy & _ & H).
    apply bind_ok in H as (r2 & H2 & H). injection H as <- <-.
    unfold Rect.add_centerx in H1. apply bind_ok in H1 as (c1 & _ & H1).
    apply bind_ok in H1 as (n1 & _ & H1). injection H1 as <-.
    unfold Rect.add_centery in H2. apply bind_ok in H2 as (c2 & _ & H2).
    apply bind_ok in H2 as (n2 & _ & H2). injection H2 as <-.
    now split. }
  unfold EnemyPath.update, EnemyPath.settled. intros H.
  destruct (EnemyPath.state e) eqn:Est.
  - destruct (_ <? _).
    + destruct (nth_error _ _) as [target|]; [|discriminate H].
      destruct (EnemyPath.follow _ _ _) as [[r arrived]|] eqn:Ef;
        [|discriminate H].
      apply F in Ef as [Fw Fh]. cbn in H.
      destruct arrived; injection H as <-; cbn;
        repeat split; auto; try lia.
    + injection H as <-. cbn. repeat split; auto; try lia.
      right. split; [reflexivity|apply center_set_center].
  - injection H as <-. cbn. repeat split; auto; try lia.
  - destruct (_ <? _).
    + destruct (nth_error _ _) as [target|]; [|discriminate H].
      destruct (EnemyPath.follow _ _ _) as [[r arrived]|] eqn:Ef;
        [|discriminate H].
      apply F in Ef as [Fw Fh]. cbn in H.
      destruct arrived; injection H as <-; cbn;
        repeat split; auto; try lia.
    + injection H as <-. cbn. repeat split; auto; try lia.
      right. split; [reflexivity|apply center_set_center].
Qed.

(** X3.  One update of an enemy keeps its entrance path, its formation
    slot, its speed and the size of its rectangle; it advances each of the
    two path indices by at most one and never moves one back; and it leaves
    the state as it is or puts the enemy in formation exactly on its slot:
    no update makes an enemy enter or dive. *)
Theorem update_transitions (e e' : EnemyPath.t) :
  EnemyPath.update e = Ok e' ->
  EnemyPath.path e' = EnemyPath.path e /\
  EnemyPath.formation_pos e' = EnemyPath.formation_pos e /\
  EnemyPath.speed e' = EnemyPath.speed e /\
  Rect.w (EnemyPath.rect e') = Rect.w (EnemyPath.rect e) /\
  Rect.h (EnemyPath.rect e') = Rect.h (EnemyPath.rect e) /\
  (EnemyPath.current_point e <= EnemyPath.current_point e'
   <= S (EnemyPath.current_point e))%nat /\
  (EnemyPath.dive_point e <= EnemyPath.dive_point e'
   <= S (EnemyPath.dive_point e))%nat /\
  (EnemyPath.state e' = EnemyPath.state e \/
   EnemyPath.state e' = EnemyPath.formation /\
   Rect.center (EnemyPath.rect e') = EnemyPath.formation_pos e').
Proof. exact (update_step e e'). Qed.

(** *** The end of a dive *)

Lemma update_diving e e' :
  EnemyPath.state e = EnemyPath.diving -> EnemyPath.update e = Ok e' ->
  EnemyPath.dive_path e' = EnemyPath.dive_path e /\
  EnemyPath.formation_pos e' = EnemyPath.formation_pos e /\
  ((length (EnemyPath.dive_path e) <= EnemyPath.dive_point e)%nat ->
   EnemyPath.settled e' /\ EnemyPath.dive_point e' = EnemyPath.dive_point e) /\
  ((EnemyPath.dive_point e < length (EnemyPath.dive_path e))%nat ->
   EnemyPath.state e' = EnemyPath.diving).
Proof.
  intros Hst Hup. unfold EnemyPath.update in Hup. rewrite Hst in Hup.
  destruct (Z.ltb_spec (Z.of_nat (EnemyPath.dive_point e))
              (Z.of_nat (length (EnemyPath.dive_path e)))) as [Hlt|Hge].
  - destruct (nth_error _ _) as [target|]; [|discriminate Hup].
    destruct (EnemyPath.follow _ _ _) as [[r arrived]|]; [|discriminate Hup].
    cbn in Hup.
    destruct arrived; injection Hup as <-; cbn; repeat split; auto; lia.
  - injection Hup as <-. cbn. repeat split; auto; try lia.
    apply center_set_center.
Qed.

Lemma update_on_dive e0 e e' :
  Diving.on_dive e0 e -> EnemyPath.update e = Ok e' -> Diving.on_dive e0 e'.
Proof.
  intros (Hp & Hf & [Hst|[[Hst Hc] Hd]]) Hup.
  - destruct (update_diving e e' Hst Hup) as (Hp' & Hf' & Hdone & Hgo).
    unfold Diving.on_dive. rewrite Hp', Hf', Hp, Hf. repeat split; auto.
    destruct (Nat.le_gt_cases (length (EnemyPath.dive_path e))
                (EnemyPath.dive_point e)) as [H|H].
    + right. destruct (Hdone H) as [Hs Hd]. split; [exact Hs|].
      rewrite <- Hp, Hd. exact H.
    + left. now apply Hgo.
  - rewrite (update_formation e Hst) in Hup. injection Hup as <-.
    unfold Diving.on_dive, EnemyPath.settled in *. cbn. repeat split; auto.
    right. repeat split; auto. apply center_set_center.
Qed.

Lemma updates_on_dive n : forall e0 e e',
  Diving.on_dive e0 e -> EnemyPath.updates n e = Ok e' -> Diving.on_dive e0 e'.
Proof.
  induction n as [|n IH]; cbn; intros e0 e e' Ht Hup.
  - now injection Hup as <-.
  - destruct (EnemyPath.update e) as [e1|] eqn:E; [|discriminate]. cbn in Hup.
    eapply IH; [|exact Hup]. eapply update_on_dive; eauto.
Qed.

Lemma dive_run (e : EnemyPath.t) (n : nat) (e' : EnemyPath.t) :
  EnemyPath.state e = EnemyPath.diving ->
  EnemyPath.updates n e = Ok e' ->
  EnemyPath.dive_path e' = EnemyPath.dive_path e /\
  ((EnemyPath.dive_point e' < length (EnemyPath.dive_path e'))%nat ->
   EnemyPath.state e' = EnemyPath.diving) /\
  ((length (EnemyPath.dive_path e') <= EnemyPath.dive_point e')%nat ->
   forall m, exists e'',
     EnemyPath.updates (n + S m) e = Ok e'' /\ EnemyPath.settled e'' /\
     EnemyPath.formation_pos e'' = EnemyPath.formation_pos e).
Proof.
  intros Hst Hup.
  assert (H0 : Diving.on_dive e e) by (unfold Diving.on_dive; auto).
  pose proof (updates_on_dive n e e e' H0 Hup) as (Hp & Hf & Hor).
  split; [exact Hp|]. split.
  - intros Hlt. destruct Hor as [H|[_ H]]; [exact H|lia].
  - intros Hd m. rewrite updates_add, Hup. cbn [bind].
    assert (exists e1, EnemyPath.update e' = Ok e1 /\ EnemyPath.settled e1 /\
                       EnemyPath.formation_pos e1 = EnemyPath.formation_pos e)
      as (e1 & H1 & H2 & H3).
    { destruct Hor as [H|[[H H'] _]].
      - unfold EnemyPath.update. rewrite H.
        destruct (Z.ltb_spec (Z.of_nat (EnemyPath.dive_point e'))
                    (Z.of_nat (length (EnemyPath.dive_path e')))); [lia|].
        eexists; split; [reflexivity|].
        split; [split; [reflexivity|apply center_set_center]|exact Hf].
      - rewrite (update_formation e' H). eexists; split; [reflexivity|].
        split; [split; [exact H|apply center_set_center]|exact Hf]. }
    cbn [EnemyPath.updates]. rewrite H1. cbn [bind].
    destruct (updates_settled m e1 H2) as (e2 & Ha & Hb & Hc').
    exists e2. repeat split; try apply Hb; auto. congruence.
Qed.

(** X4.  A diving enemy: the dive path is kept by every update; as long as
    the dive index is inside the dive path the enemy is still diving; and
    once the index has run past the last waypoint, every further update
    succeeds and finds the enemy in formation, exactly on its slot. *)
Theorem dive_returns_to_formation (e : EnemyPath.t) (n : nat)
    (e' : EnemyPath.t) :
  EnemyPath.state e = EnemyPath.diving ->
  EnemyPath.updates n e = Ok e' ->
  EnemyPath.dive_path e' = EnemyPath.dive_path e /\
  ((EnemyPath.dive_point e' < length (EnemyPath.dive_path e'))%nat ->
   EnemyPath.state e' = EnemyPath.diving) /\
  ((length (EnemyPath.dive_path e') <= EnemyPath.dive_point e')%nat ->
   forall m, exists e'',
     EnemyPath.updates (n + S m) e = Ok e'' /\
     EnemyPath.state e'' = EnemyPath.formation /\
     Rect.center (EnemyPath.rect e'') = EnemyPath.formation_pos e'' /\
     EnemyPath.formation_pos e'' = EnemyPath.formation_pos e).
Proof.
  intros Hst Hup. destruct (dive_run e n e' Hst Hup) as (H1 & H2 & H3).
  split; [exact H1|]. split; [exact H2|].
  intros Hd m. destruct (H3 Hd m) as (e'' & Ha & [Hb Hc] & He).
  exists e''. auto.
Qed.

End EnemyFacts.

Section EnemyExamples.
#[local] Existing Instance Reference.libm.

Lemma update_transitions_witness :
  EnemyPath.update Scenario.usual_enemy = Ok Examples.stepped_enemy /\
  EnemyPath.path Examples.stepped_enemy = Scenario.first_path /\
  EnemyPath.current_point Examples.stepped_enemy = 1%nat /\
  EnemyPath.state Examples.stepped_enemy = EnemyPath.entering.
Proof.
  assert (H : EnemyPath.update Scenario.usual_enemy
              = Ok Examples.stepped_enemy) by (vm_compute; reflexivity).
  split; [exact H|].
  destruct (update_transitions _ _ H) as (Hp & _ & _ & _ & _ & _ & _ & _).
  split; [rewrite Hp; reflexivity|]. split; reflexivity.
Defined.

Lemma dive_returns_to_formation_witness :
  exists e'',
    EnemyPath.updates 1 Examples.returning_enemy = Ok e'' /\
    EnemyPath.state e'' = EnemyPath.formation /\
    Rect.center (EnemyPath.rect e'') = (250, 100).
Proof.
  destruct (dive_returns_to_formation Examples.returning_enemy 0
              Examples.returning_enemy eq_refl eq_refl) as (_ & _ & H).
  destruct (H ltac:(cbn; lia) 0%nat) as (e'' & Ha & Hb & Hc & Hd).
  exists e''. split; [exact Ha|]. split; [exact Hb|].
  rewrite Hc, Hd. reflexivity.
Defined.

End EnemyExamples.

(* ================================================================= *)
(** ** The size of a wave *)

Lemma range_length (n : Z) : length (range n) = Z.to_nat n.
Proof. unfold range. now rewrite length_map, length_seq. Qed.

Lemma grid_length (cols : Z) :
  length (EnemySpawner.grid cols) = (4 * Z.to_nat cols)%nat.
Proof.
  unfold EnemySpawner.grid.
  change (range EnemySpawner.rows) with [0; 1; 2; 3].
  cbn [flat_map]. rewrite !length_app, !length_map, range_length.
  cbn [length]. lia.
Qed.

(** The number of cells of the grid that [spawn_wave] fills. *)
Lemma wave_cells (ws : Z) :
  length (firstn (Z.to_nat ws) (EnemySpawner.grid (EnemySpawner.cols_of ws)))
  = Z.to_nat (Z.min ws 20).
Proof.
  rewrite length_firstn, grid_length.
  unfold EnemySpawner.cols_of, EnemySpawner.max_cols, EnemySpawner.rows.
  replace (ws + 4 - 1) with (ws + 3) by lia.
  pose proof (Z.div_mod (ws + 3) 4 ltac:(lia)) as Hd.
  pose proof (Z.mod_pos_bound (ws + 3) 4 ltac:(lia)) as Hm.
  lia.
Qed.

(** X5.  The number of enemies [spawn_wave] adds to the group is
    [min(wave_size, 20)], and none for a wave size of zero or less: the
    grid of at most 5 columns and 4 rows is the only bound besides
    [wave_size], and the enemies already in the group are kept in place. *)
Theorem spawn_wave_count {libm : Libm} (sp sp' : EnemySpawner.t)
    (sm : float) :
  EnemySpawner.spawn_wave sp sm = Ok sp' ->
  length (EnemySpawner.enemy_group sp')
  = (length (EnemySpawner.enemy_group sp)
     + Z.to_nat (Z.min (EnemySpawner.wave_size sp) 20))%nat /\
  firstn (length (EnemySpawner.enemy_group sp)) (EnemySpawner.enemy_group sp')
  = EnemySpawner.enemy_group sp /\
  (EnemySpawner.wave_size sp <= 0 ->
   EnemySpawner.enemy_group sp' = EnemySpawner.enemy_group sp).
Proof.
  intros H. apply spawn_wave_spec in H as (_ & wave & Hg & Hs & _).
  assert (Hl : length wave = Z.to_nat (Z.min (EnemySpawner.wave_size sp) 20)).
  { rewrite <- (length_map EnemyPath.formation_pos), Hs. apply wave_cells. }
  rewrite Hg. split; [now rewrite length_app, Hl|]. split.
  - rewrite firstn_app, Nat.sub_diag, firstn_all. cbn. apply app_nil_r.
  - intros Hle. destruct wave as [|e wave]; [apply app_nil_r|].
    cbn [length] in Hl. lia.
Qed.

Lemma spawn_wave_count_witness :
  @EnemySpawner.spawn_wave Reference.libm Examples.small_spawner (lit 1 1)
  = Ok Examples.small_wave /\
  length (EnemySpawner.enemy_group Examples.small_wave) = 3%nat.
Proof.
  assert (H : @EnemySpawner.spawn_wave Reference.libm Examples.small_spawner
                (lit 1 1) = Ok Examples.small_wave)
    by (vm_compute; reflexivity).
  split; [exact H|].
  destruct (spawn_wave_count _ _ _ H) as (Hc & _ & _).
  rewrite Hc. reflexivity.
Defined.

(* ================================================================= *)
(** ** The ship and its bullet *)

(** X6.  [Ship.update] keeps the ship inside the playfield horizontally,
    whatever its velocity: its left edge ends between 0 and 1100 minus its
    width.  Vertically the ship is only moved, never clamped.  Velocities,
    speed and size are kept, no bullet is created and no bullet is kept at
    or above the top edge. *)
Theorem ship_update_keeps_ship_inside (s : Ship.t) :
  Rect.w (Ship.rect s) <= 1100 ->
  0 <= Rect.x (Ship.rect (Ship.update s)) <= 1100 - Rect.w (Ship.rect s) /\
  Rect.y (Ship.rect (Ship.update s)) = Rect.y (Ship.rect s) + Ship.vel_y s /\
  Rect.w (Ship.rect (Ship.update s)) = Rect.w (Ship.rect s) /\
  Rect.h (Ship.rect (Ship.update s)) = Rect.h (Ship.rect s) /\
  Ship.vel_x (Ship.update s) = Ship.vel_x s /\
  Ship.vel_y (Ship.update s) = Ship.vel_y s /\
  Ship.speed (Ship.update s) = Ship.speed s /\
  (length (Ship.bullets (Ship.update s)) <= length (Ship.bullets s))%nat /\
  Forall (fun b => 0 < Rect.y (Bullet.rect b)) (Ship.bullets (Ship.update s)).
Proof.
  intros Hw. unfold Ship.update. cbn [Ship.rect Ship.bullets Ship.vel_x
    Ship.vel_y Ship.speed].
  set (r0 := Rect.set_x (Ship.rect s) (Rect.x (Ship.rect s) + Ship.vel_x s)).
  assert (Hw0 : Rect.w r0 = Rect.w (Ship.rect s)) by reflexivity.
  assert (Hh0 : Rect.h r0 = Rect.h (Ship.rect s)) by reflexivity.
  assert (Hy0 : Rect.y r0 = Rect.y (Ship.rect s)) by reflexivity.
  destruct (Z.ltb_spec (Rect.x r0) 0) as [H1|H1];
    [|destruct (Z.leb_spec (1100 - Rect.w r0) (Rect.x r0)) as [H2|H2]];
    cbn [Rect.set_y Rect.set_x Rect.x Rect.y Rect.w Rect.h];
    rewrite ?Hw0, ?Hh0, ?Hy0 in *;
    (repeat (split; [first [reflexivity | lia]|]));
    (split;
     [etransitivity; [apply filter_length_le|]; now rewrite length_map
     |apply Forall_forall; intros b Hb; apply filter_In in Hb as [_ Hb];
      apply negb_true_iff, Z.leb_gt in Hb; exact Hb]).
Qed.

Lemma ship_update_keeps_ship_inside_witness :
  Rect.x (Ship.rect Examples.edge_ship) + Ship.vel_x Examples.edge_ship
  = 1033 /\
  0 <= Rect.x (Ship.rect (Ship.update Examples.edge_ship)) <= 1030.
Proof.
  split; [reflexivity|].
  apply (ship_update_keeps_ship_inside Examples.edge_ship).
  vm_compute. discriminate.
Defined.

(** The bullets after an update depend on the bullets only. *)
Lemma update_bullets (s : Ship.t) :
  Ship.bullets (Ship.update s)
  = filter (fun b => negb (Rect.y (Bullet.rect b) <=? 0))
           (map Bullet.update (Ship.bullets s)).
Proof. reflexivity. Qed.

Lemma bullet_after (s : Ship.t) (n : nat) :
  Ship.bullets s = [] -> 0 < Rect.y (Ship.rect s) ->
  Ship.bullets (Nat.iter n Ship.update (Ship.shoot s))
  = if 8 * Z.of_nat n <? Rect.y (Ship.rect s)
    then [Bullet.mk
            (Rect.mk (Rect.x (Ship.rect s) + Rect.w (Ship.rect s) / 2 - 3)
                     (Rect.y (Ship.rect s) - 8 * Z.of_nat n) 4 4)
            0 (-8)]
    else [].
Proof.
  intros Hb Hy. induction n as [|n IH].
  - change (Nat.iter 0 Ship.update (Ship.shoot s)) with (Ship.shoot s).
    unfold Ship.shoot. rewrite Hb. cbn.
    destruct (Z.ltb_spec 0 (Rect.y (Ship.rect s))); [|lia].
    now rewrite Z.sub_0_r.
  - rewrite Nat.iter_succ, update_bullets, IH.
    destruct (Z.ltb_spec (8 * Z.of_nat n) (Rect.y (Ship.rect s))) as [H1|H1];
      destruct (Z.ltb_spec (8 * Z.of_nat (S n)) (Rect.y (Ship.rect s)))
        as [H2|H2]; try lia; try reflexivity;
      cbn [map]; unfold Bullet.update;
      cbn [map filter Bullet.update Bullet.rect Bullet.vel_x Bullet.vel_y
           Rect.set_x Rect.set_y Rect.x Rect.y Rect.w Rect.h];
      destruct (Z.leb_spec (Rect.y (Ship.rect s) - 8 * Z.of_nat n + -8) 0);
      try lia; cbn [negb]; [|reflexivity].
    unfold Rect.set_y, Rect.set_x. cbn [Rect.x Rect.y Rect.w Rect.h].
    do 2 f_equal. f_equal; lia.
Qed.

(** X7.  The flight of a bullet.  A ship without a bullet, below the top
    edge, shoots; after [n] further calls of [Ship.update] its bullet is 8
    pixels higher per call, in the column where it was fired (it does not
    follow the ship), as long as that is below the top edge; from then on
    the ship has no bullet, so that [shoot] fires again. *)
Theorem bullet_flight (s : Ship.t) (n : nat) :
  Ship.bullets s = [] -> 0 < Rect.y (Ship.rect s) ->
  Ship.bullets (Nat.iter n Ship.update (Ship.shoot s))
  = (if 8 * Z.of_nat n <? Rect.y (Ship.rect s)
     then [Bullet.mk
             (Rect.mk (Rect.x (Ship.rect s) + Rect.w (Ship.rect s) / 2 - 3)
                      (Rect.y (Ship.rect s) - 8 * Z.of_nat n) 4 4)
             0 (-8)]
     else []) /\
  (Rect.y (Ship.rect s) <= 8 * Z.of_nat n ->
   exists b,
     Ship.bullets (Ship.shoot (Nat.iter n Ship.update (Ship.shoot s))) = [b]).
Proof.
  intros Hb Hy. split; [now apply bullet_after|].
  intros Hn. eexists. apply shoot_empty.
  rewrite (bullet_after s n Hb Hy).
  destruct (Z.ltb_spec (8 * Z.of_nat n) (Rect.y (Ship.rect s))); [lia|].
  reflexivity.
Qed.

Lemma bullet_flight_witness :
  Ship.bullets (Nat.iter 10 Ship.update (Ship.shoot Ship.init))
  = [Bullet.mk (Rect.mk 582 1150 4 4) 0 (-8)].
Proof.
  destruct (bullet_flight Ship.init 10 eq_refl ltac:(vm_compute; reflexivity))
    as [H _].
  rewrite H. reflexivity.
Defined.

(* ================================================================= *)
(** ** One tick of the sprites *)

Section SpriteFacts.
Context {libm : Libm}.

Lemma modify_length h : forall i f, length (Store.modify h i f) = length h.
Proof.
  induction h as [|s h IH]; intros [|i] f; cbn; auto.
Qed.

Lemma modify_get h : forall i j f,
  (i < length h)%nat ->
  Store.get (Store.modify h j f) i
  = if (i =? j)%nat then f (Store.get h i) else Store.get h i.
Proof.
  unfold Store.get.
  induction h as [|s h IH]; intros [|i] [|j] f Hi; cbn in *;
    try lia; try reflexivity.
  apply IH. lia.
Qed.

Lemma update_group_length g : forall h,
  length (Store.update_group g h) = length h.
Proof.
  unfold Store.update_group.
  induction g as [|j g IH]; intros h; cbn; [reflexivity|].
  now rewrite IH, modify_length.
Qed.

Lemma iter_shift {A} (f : A -> A) (n : nat) (x : A) :
  Nat.iter n f (f x) = f (Nat.iter n f x).
Proof. now rewrite <- Nat.iter_succ_r, Nat.iter_succ. Qed.

(** [Group.update()]: a ship is updated once for each occurrence in the
    group. *)
Lemma update_group_get g : forall h i,
  (i < length h)%nat ->
  Store.get (Store.update_group g h) i
  = Nat.iter (count_occ Nat.eq_dec g i) Ship.update (Store.get h i).
Proof.
  unfold Store.update_group.
  induction g as [|j g IH]; intros h i Hi; [reflexivity|].
  cbn [fold_left count_occ].
  rewrite IH by now rewrite modify_length.
  rewrite modify_get by exact Hi.
  destruct (Nat.eq_dec j i) as [->|Hne].
  - rewrite Nat.eqb_refl, Nat.iter_succ. apply iter_shift.
  - destruct (Nat.eqb_spec i j) as [->|_]; [contradiction|reflexivity].
Qed.

Lemma iter_add {A} (f : A -> A) (n m : nat) (x : A) :
  Nat.iter m f (Nat.iter n f x) = Nat.iter (n + m) f x.
Proof. rewrite Nat.add_comm. symmetry. apply Nat.iter_add. Qed.

Lemma update_sprites_ships s s' :
  update_sprites s = Ok s' -> is_respawning s = false ->
  ships s'
  = Store.modify
      (Store.update_group (intro_ships s)
         (Store.update_group (lives_group s)
            (Store.update_group (sprite_group s) (ships s))))
      (player s)
      (fun p => Ship.set_bullets p (map Bullet.update (Ship.bullets p))) /\
  lives_group s' = lives_group s /\ sprite_group s' = sprite_group s /\
  intro_ships s' = intro_ships s /\ player s' = player s.
Proof.
  unfold update_sprites. intros H Hr. rewrite Hr in H.
  apply bind_ok in H as (g & _ & H). apply bind_ok in H as (sp & _ & H).
  injection H as <-. repeat split.
Qed.

(** X8.  The ship objects are shared between the sprite groups, and every
    group that holds a ship updates it: in a tick that is not respawning, a
    ship is updated once for each of [sprite_group], [lives_group] and
    [intro_ships] it belongs to, and the bullets of the player are moved
    once more by [self.player.bullets.update()]. *)
Theorem ship_updated_once_per_group (s s' : GameScene.t) (i : nat) :
  update_sprites s = Ok s' -> is_respawning s = false ->
  (i < length (ships s))%nat ->
  let times := (count_occ Nat.eq_dec (sprite_group s) i
                + count_occ Nat.eq_dec (lives_group s) i
                + count_occ Nat.eq_dec (intro_ships s) i)%nat in
  let sh := Nat.iter times Ship.update (Store.get (ships s) i) in
  Store.get (ships s') i
  = if (i =? player s)%nat
    then Ship.set_bullets sh (map Bullet.update (Ship.bullets sh))
    else sh.
Proof.
  intros H Hr Hi times sh.
  destruct (update_sprites_ships s s' H Hr) as (-> & _).
  rewrite modify_get by now rewrite !update_group_length.
  rewrite !update_group_get by now rewrite ?update_group_length.
  subst sh times. rewrite !iter_add, Nat.add_assoc. reflexivity.
Qed.

(** *** The enemies *)

(** X9.  [update_scene] updates the enemies twice per tick, once through
    [enemy_group.update()] and once through [enemy_spawner.update()]: after
    the first block every enemy has made two steps of [EnemyPath.update],
    and none while the scene is respawning, when the block changes
    nothing. *)
Theorem enemies_step_twice_per_tick (s s' : GameScene.t) :
  update_sprites s = Ok s' ->
  (is_respawning s = true -> s' = s) /\
  (is_respawning s = false ->
   mapM (EnemyPath.updates 2) (enemies s) = Ok (enemies s') /\
   length (enemies s') = length (enemies s)).
Proof.
  intros H. apply update_sprites_enemies in H as [H1 H2].
  split; [exact H1|]. intros Hr. specialize (H2 Hr).
  split; [exact H2|]. eapply mapM_length, H2.
Qed.

End SpriteFacts.

Section SpriteExamples.
#[local] Existing Instance Reference.libm.

Lemma ship_updated_once_per_group_witness :
  update_sprites Examples.formed_left = Ok Examples.formed_left_moved /\
  Ship.vel_x (the_player Examples.formed_left) = -5 /\
  Rect.x (Ship.rect (the_player Examples.formed_left_moved))
  = Rect.x (Ship.rect (the_player Examples.formed_left)) - 10.
Proof.
  assert (H : update_sprites Examples.formed_left
              = Ok Examples.formed_left_moved) by (vm_compute; reflexivity).
  split; [exact H|]. split; [reflexivity|].
  unfold the_player.
  change (player Examples.formed_left_moved) with 0%nat.
  rewrite (ship_updated_once_per_group Examples.formed_left
             Examples.formed_left_moved 0 H eq_refl
             ltac:(vm_compute; lia)).
  reflexivity.
Defined.

Lemma enemies_step_twice_per_tick_witness :
  update_sprites Scenario.formed = Ok Examples.formed_moved /\
  mapM (EnemyPath.updates 2) (enemies Scenario.formed)
  = Ok (enemies Examples.formed_moved).
Proof.
  assert (H : update_sprites Scenario.formed = Ok Examples.formed_moved)
    by (vm_compute; reflexivity).
  split; [exact H|].
  apply (enemies_step_twice_per_tick _ _ H). reflexivity.
Defined.

End SpriteExamples.

(* ================================================================= *)
(** ** The tally of every scene the game can reach *)

Ltac kept_fields :=
  unfold Tally.kept, wave_size; repeat split;
  first [reflexivity
        | let K := fresh in intros K; first [exact K | reflexivity]].

Section TallyFacts.
Context {libm : Libm}.

Lemma ok_inj {A} (a b : A) : Ok a = Ok b -> a = b.
Proof. intros H. now injection H. Qed.

Lemma kept_refl s : Tally.kept s s.
Proof. kept_fields. Qed.

Lemma kept_trans s1 s2 s3 :
  Tally.kept s1 s2 -> Tally.kept s2 s3 -> Tally.kept s1 s3.
Proof. unfold Tally.kept. intuition congruence. Qed.

Lemma Inv_kept s s' : Tally.kept s s' -> Tally.Inv s -> Tally.Inv s'.
Proof.
  unfold Tally.kept, Tally.Inv.
  intros (K1 & K2 & K3 & K4 & K5) (I1 & I2 & I3 & I4 & I5 & I6).
  rewrite K2, K3, K4, K5. auto 10.
Qed.

Lemma update_sprites_kept s s' : update_sprites s = Ok s' -> Tally.kept s s'.
Proof.
  unfold update_sprites. intros H.
  destruct (is_respawning s); [injection H as <-; apply kept_refl|].
  apply bind_ok in H as (g & _ & H). apply bind_ok in H as (sp & Hsp & H).
  unfold EnemySpawner.update in Hsp. apply bind_ok in Hsp as (g' & _ & Hsp).
  injection Hsp as <-. injection H as <-. kept_fields.
Qed.

Lemma intro_sequence_kept s s' : intro_sequence s = Ok s' -> Tally.kept s s'.
Proof.
  unfold intro_sequence. intros H.
  assert (H1 : Tally.kept s (intro_count s)).
  { unfold intro_count. destruct (intro_done s); kept_fields. }
  assert (H2 : forall a, Tally.kept a (intro_descent a)).
  { intros a. unfold intro_descent. destruct (_ && _); kept_fields. }
  assert (H3 : forall a, Tally.kept a (intro_start a)).
  { intros a. unfold intro_start. cbv zeta. destruct (_ =? _); kept_fields. }
  assert (H4 : forall a, Tally.kept a (intro_drift a)).
  { intros a. unfold intro_drift. destruct (_ && _); kept_fields. }
  assert (H5 : forall a, Tally.kept a (intro_floor a)).
  { intros a. unfold intro_floor. destruct (_ <=? _); kept_fields. }
  assert (H6 : forall a b, intro_travel a = Ok b -> Tally.kept a b).
  { intros a b Hab. unfold intro_travel in Hab. repeat step_ok; kept_fields. }
  eapply kept_trans; [exact H1|].
  eapply kept_trans; [apply H2|].
  eapply kept_trans; [apply H3|].
  eapply kept_trans; [apply H4|].
  eapply kept_trans; [apply H5|].
  apply H6. exact H.
Qed.

Lemma trigger_dive_kept s rnd pick s' :
  trigger_dive s rnd pick = Ok s' -> Tally.kept s s'.
Proof.
  intros H. apply trigger_dive_spec in H as [->|(k & _ & ->)]; kept_fields.
Qed.

(** *** Scoring keeps the threshold one step ahead *)

Lemma score_hit_tally s e : Tally.Inv s -> Tally.Inv (score_hit s e).
Proof.
  unfold Tally.Inv, score_hit, wave_size.
  intros (I1 & I2 & I3 & I4 & I5 & I6).
  destruct (EnemyPath.state e); fields;
    match goal with
    | |- context [if ?a <=? ?b then _ else _] => destruct (Z.leb_spec a b) as [E|E]
    end;
    fields;
    (split; [exact I1|]); (split; [exact I2|]); (split; [exact I3|]);
    rewrite I6 in *; clear I1 I2 I3 I6;
    Z.div_mod_to_equations; lia.
Qed.

Lemma handle_scoring_tally s : Tally.Inv s -> Tally.Inv (handle_scoring s).
Proof.
  unfold handle_scoring. intros Hi.
  destruct (groupcollide _ _) as [[hits rest] bs].
  match goal with
  | |- Tally.Inv (fold_left _ _ ?a) =>
      assert (H : Tally.Inv a)
        by (revert Hi; apply Inv_kept; kept_fields);
      revert H; generalize a
  end.
  induction hits as [|e hits IH]; cbn; intros a H; [exact H|].
  apply IH. now apply score_hit_tally.
Qed.

(** *** The blocks that end a round *)

Lemma check_collision_tally s s' :
  check_collision s = Ok s' -> Tally.Inv s -> Tally.Inv s'.
Proof.
  unfold check_collision. destruct (_ && _); [|now intros [= <-]].
  destruct s as [lv lg rt ir it sd itp im pce es sc le sm el go ish idn ils
                 pl sg sh].
  unfold Tally.Inv, player_death, wave_size. cbv zeta.
  fields. destruct (rev lg); fields; destruct (0 <? lv - 1); fields;
    intros H (I1 & I2 & I3 & I4 & I5 & I6);
    apply bind_ok in H as (sp & Hsp & H); injection H as <-;
    apply spawn_wave_spec in Hsp as [Hws _]; fields;
    rewrite Hws; fields; repeat split; auto; lia.
Qed.

Lemma countdown_kept (a b : GameScene.t) :
  (if respawn_timer a <=? 0
   then sp <- EnemySpawner.spawn_wave (enemy_spawner a) (lit 1 1) ;;
        Ok (set_enemy_spawner (set_is_respawning a false) sp)
   else Ok a) = Ok b ->
  Tally.kept a b.
Proof.
  intros H. destruct (respawn_timer a <=? 0).
  - apply bind_ok in H as (sp & Hs & H). injection H as <-.
    apply spawn_wave_spec in Hs as [Hws _].
    unfold Tally.kept, wave_size. fields. rewrite Hws. auto.
  - injection H as <-. apply kept_refl.
Qed.

Lemma respawn_player_kept s s' : respawn_player s = Ok s' -> Tally.kept s s'.
Proof.
  unfold respawn_player. intros H.
  destruct (is_respawning s); [|injection H as <-; apply kept_refl].
  cbv zeta in H. apply bind_ok in H as (s1 & H1 & H).
  apply countdown_kept in H1.
  cbn in H. injection H as <-.
  eapply kept_trans; [|eapply kept_trans; [exact H1|]]; kept_fields.
Qed.

Lemma respawn_countdown_kept s s' :
  respawn_countdown s = Ok s' -> Tally.kept s s'.
Proof.
  unfold respawn_countdown. intros H.
  destruct (is_respawning s); [|injection H as <-; apply kept_refl].
  cbv zeta in H. apply countdown_kept in H.
  eapply kept_trans; [|exact H]. kept_fields.
Qed.

Lemma level_progression_tally s s' :
  level_progression s = Ok s' -> Tally.Inv s -> Tally.Inv s'.
Proof.
  unfold level_progression. destruct (_ && _); [|now intros [= <-]].
  cbv zeta. intros H (I1 & I2 & I3 & I4 & I5 & I6).
  apply bind_ok in H as (fl & _ & H). apply ok_inj in H. subst s'.
  unfold Tally.Inv, wave_size. fields. repeat split; auto; lia.
Qed.

Lemma update_scene_tally s rnd pick s' :
  update_scene s rnd pick = Ok s' -> Tally.Inv s -> Tally.Inv s'.
Proof.
  unfold update_scene, before_collision. intros H Hi.
  apply bind_ok in H as (s4 & H4 & H).
  apply bind_ok in H4 as (s1 & H1 & H4). apply bind_ok in H4 as (s2 & H2 & H4).
  apply bind_ok in H as (s5 & H5 & H). apply bind_ok in H as (s6 & H6 & H).
  apply bind_ok in H as (s7 & H7 & H).
  eapply Inv_kept; [eapply respawn_countdown_kept; exact H|].
  eapply level_progression_tally; [exact H7|].
  eapply Inv_kept; [eapply respawn_player_kept; exact H6|].
  eapply check_collision_tally; [exact H5|].
  eapply Inv_kept; [eapply trigger_dive_kept; exact H4|].
  apply handle_scoring_tally.
  eapply Inv_kept; [eapply intro_sequence_kept; exact H2|].
  eapply Inv_kept; [eapply update_sprites_kept; exact H1|].
  exact Hi.
Qed.

Lemma init_tally s : init = Ok s -> Tally.Inv s.
Proof.
  unfold init. intros H. apply bind_ok in H as (sp & Hsp & H).
  injection H as <-. apply spawn_wave_spec in Hsp as [Hws _].
  unfold Tally.Inv, wave_size. fields. rewrite Hws. cbn. repeat split; lia.
Qed.

Lemma handle_event_tally s ev s' :
  handle_event s ev = Ok s' -> Tally.Inv s -> Tally.Inv s'.
Proof.
  unfold handle_event. intros H Hi.
  destruct (game_over s).
  - destruct ev as [[| | | | | | |]| |]; try (now injection H as <-).
    now apply init_tally.
  - destruct (negb _); [now injection H as <-|].
    destruct ev as [[| | | | | | |]|[| | | | | | |]|]; injection H as <-; auto;
      (eapply Inv_kept; [|exact Hi]); kept_fields.
Qed.

Lemma reachable_tally s : reachable s -> Tally.Inv s.
Proof.
  induction 1 as [s H|s rnd pick s' _ IH H|s ev s' _ IH H].
  - now apply init_tally.
  - eapply update_scene_tally; eauto.
  - eapply handle_event_tally; eauto.
Qed.

(** X10.  [player_control_enable] is [True] in every scene the game can
    reach: no statement ever sets it to [False].  So the guard of
    [handle_event] never holds input back: while the game is not over, a
    key press is obeyed during the intro and during a respawn as well. *)
Theorem control_is_never_disabled (s : GameScene.t) :
  reachable s ->
  player_control_enable s = true /\
  (game_over s = false ->
   handle_event s (KEYDOWN K_SPACE) = Ok (modify_ship s (player s) Ship.shoot) /\
   handle_event s (KEYDOWN K_LEFT)
   = Ok (modify_ship s (player s)
           (fun sh => Ship.set_vel_x sh (- Ship.speed sh))) /\
   handle_event s (KEYDOWN K_RIGHT)
   = Ok (modify_ship s (player s)
           (fun sh => Ship.set_vel_x sh (Ship.speed sh)))).
Proof.
  intros H. apply reachable_tally in H as (H & _).
  split; [exact H|]. intros Hg. unfold handle_event. rewrite Hg, H.
  repeat split.
Qed.

(** X11.  In every scene the game can reach the level is at least 1 and
    [wave_size] lies between 40 and 80: the collision block and the level
    block only raise it, up to 80.  The grid of [spawn_wave] holds 20
    enemies, so every wave the scene spawns has exactly 20 enemies,
    whatever the level. *)
Theorem wave_size_stays_in_range (s : GameScene.t) :
  reachable s ->
  1 <= level s /\ 40 <= wave_size s <= 80 /\
  (forall sm sp',
      EnemySpawner.spawn_wave (enemy_spawner s) sm = Ok sp' ->
      length (EnemySpawner.enemy_group sp') = (length (enemies s) + 20)%nat).
Proof.
  intros H. apply reachable_tally in H as (_ & H1 & H2 & _).
  split; [exact H1|]. split; [exact H2|].
  intros sm sp' Hsp. apply spawn_wave_spec in Hsp as (_ & wave & Hg & Hs & _).
  rewrite Hg, length_app. f_equal.
  rewrite <- (length_map EnemyPath.formation_pos), Hs.
  apply full_grid. unfold wave_size in H2. lia.
Qed.

(** X12.  In every scene the game can reach the score is a non-negative
    multiple of 50 and the extra-life threshold is the first multiple of
    10000 above the score: [extra_life = 10000 * (score // 10000 + 1)]. *)
Theorem threshold_follows_score (s : GameScene.t) :
  reachable s ->
  0 <= score s /\ score s mod 50 = 0 /\
  extra_life s = 10000 * (score s / 10000 + 1).
Proof.
  intros H. apply reachable_tally in H as (_ & _ & _ & H). exact H.
Qed.

End TallyFacts.

Lemma control_is_never_disabled_witness :
  intro_done Scenario.opening = false /\
  is_respawning Scenario.opening = true /\
  player_control_enable Scenario.opening = true /\
  @handle_event Reference.libm Scenario.opening (KEYDOWN K_SPACE)
  = Ok (modify_ship Scenario.opening (player Scenario.opening) Ship.shoot).
Proof.
  split; [reflexivity|]. split; [reflexivity|].
  destruct (control_is_never_disabled Scenario.opening opening_reachable)
    as [H1 H2].
  split; [exact H1|]. apply H2. reflexivity.
Defined.

Lemma wave_size_stays_in_range_witness :
  level Scenario.before_clear = 1 /\
  40 <= wave_size Scenario.before_clear <= 80.
Proof.
  destruct (wave_size_stays_in_range Scenario.before_clear
              before_clear_reachable) as (_ & H & _).
  split; [reflexivity|exact H].
Defined.

Lemma threshold_follows_score_witness :
  score Scenario.before_clear = 1950 /\
  extra_life Scenario.before_clear = 10000 * (1950 / 10000 + 1).
Proof.
  split; [reflexivity|].
  destruct (threshold_follows_score Scenario.before_clear
              before_clear_reachable) as (_ & _ & H).
  exact H.
Defined.

(* ================================================================= *)
(** ** The title scene *)

Lemma title_update_timer (s : TitleScene.t) (d : Background.draws) :
  TitleScene.blinker_timer (TitleScene.update_scene s d)
  = (if 30 <=? TitleScene.blinker_timer s + 1
     then 0 else TitleScene.blinker_timer s + 1) /\
  TitleScene.blink_visible (TitleScene.update_scene s d)
  = (if 30 <=? TitleScene.blinker_timer s + 1
     then negb (TitleScene.blink_visible s) else TitleScene.blink_visible s).
Proof.
  unfold TitleScene.update_scene. cbv zeta.
  destruct (30 <=? TitleScene.blinker_timer s + 1); split; reflexivity.
Qed.

Lemma title_blink_run (ds : list Background.draws) : forall s : TitleScene.t,
  0 <= TitleScene.blinker_timer s < 30 ->
  TitleScene.blinker_timer (TitleScene.updates s ds)
  = (TitleScene.blinker_timer s + Z.of_nat (length ds)) mod 30 /\
  TitleScene.blink_visible (TitleScene.updates s ds)
  = xorb (TitleScene.blink_visible s)
         (Z.odd ((TitleScene.blinker_timer s + Z.of_nat (length ds)) / 30)).
Proof.
  induction ds as [|d ds IH]; intros s Ht.
  - cbn [TitleScene.updates length Z.of_nat]. rewrite Z.add_0_r.
    rewrite Z.mod_small, Z.div_small by lia. cbn [Z.odd].
    now rewrite xorb_false_r.
  - cbn [TitleScene.updates length].
    destruct (title_update_timer s d) as [Et Ev].
    destruct (Z.leb_spec 30 (TitleScene.blinker_timer s + 1)) as [H30|H30].
    + destruct (IH (TitleScene.update_scene s d)) as [It Iv];
        [rewrite Et; lia|].
      rewrite It, Iv, Et, Ev.
      replace (TitleScene.blinker_timer s + Z.of_nat (S (length ds)))
        with (0 + Z.of_nat (length ds) + 1 * 30) by lia.
      rewrite Z.mod_add, Z.div_add by lia.
      split; [reflexivity|].
      rewrite Z.add_1_r, Z.odd_succ, <- Z.negb_odd.
      match goal with
      | |- context [negb (Z.odd ?q)] =>
          destruct (TitleScene.blink_visible s), (Z.odd q); reflexivity
      end.
    + destruct (IH (TitleScene.update_scene s d)) as [It Iv];
        [rewrite Et; lia|].
      rewrite It, Iv, Et, Ev.
      replace (TitleScene.blinker_timer s + Z.of_nat (S (length ds)))
        with (TitleScene.blinker_timer s + 1 + Z.of_nat (length ds)) by lia.
      split; reflexivity.
Qed.

(** X13.  The blinking arrow of the title scene.  After [n] calls of
    [update_scene] the timer is the number of calls made, counted modulo
    30, and the arrow has been toggled once per full period of 30 calls:
    it is shown for 30 frames and hidden for 30 frames.  The timer stays
    between 0 and 29. *)
Theorem title_arrow_blinks_every_30_frames (s : TitleScene.t)
    (ds : list Background.draws) :
  0 <= TitleScene.blinker_timer s < 30 ->
  TitleScene.blinker_timer (TitleScene.updates s ds)
  = (TitleScene.blinker_timer s + Z.of_nat (length ds)) mod 30 /\
  TitleScene.blink_visible (TitleScene.updates s ds)
  = xorb (TitleScene.blink_visible s)
         (Z.odd ((TitleScene.blinker_timer s + Z.of_nat (length ds)) / 30)) /\
  0 <= TitleScene.blinker_timer (TitleScene.updates s ds) < 30.
Proof.
  intros Ht. destruct (title_blink_run ds s Ht) as [H1 H2].
  split; [exact H1|]. split; [exact H2|].
  rewrite H1. apply Z.mod_pos_bound. lia.
Qed.

Lemma title_arrow_blinks_every_30_frames_witness :
  TitleScene.blinker_timer
    (TitleScene.updates (TitleScene.init 3) (repeat Examples.calm 45)) = 15 /\
  TitleScene.blink_visible
    (TitleScene.updates (TitleScene.init 3) (repeat Examples.calm 45)) = false.
Proof.
  destruct (title_arrow_blinks_every_30_frames (TitleScene.init 3)
              (repeat Examples.calm 45) ltac:(cbn; lia)) as (H1 & H2 & _).
  rewrite H1, H2. split; reflexivity.
Defined.

(* ================================================================= *)
(** ** The star background *)

Lemma lit_update (b : Background.t) (d : Background.draws) :
  Background.in_range d -> Sky.lit b -> Sky.lit (Background.update b d).
Proof.
  intros ((_ & _ & Hf) & Hn) (Ht & st & Hin & Hv & Hy).
  unfold Sky.lit, Background.update. cbv zeta.
  destruct (Z.eqb_spec (Background.timer b) 0) as [E|E];
    cbn [Background.timer Background.stars].
  - split; [lia|]. exists (Star.init (Background.star d)).
    split; [apply in_or_app; right; now left|].
    unfold Star.init, Rect.set_x.
    cbn [Star.vel_y Star.rect Rect.y]. lia.
  - split; [lia|]. exists (Star.update st). split.
    + apply in_map, filter_In. split; [exact Hin|].
      apply negb_true_iff, Z.leb_gt. lia.
    + unfold Star.update, Rect.set_x, Rect.set_y.
      cbn [Star.vel_y Star.rect Rect.y]. lia.
Qed.

Lemma lit_updates (ds : list Background.draws) : forall b,
  Forall Background.in_range ds -> Sky.lit b ->
  Sky.lit (Background.updates b ds).
Proof.
  induction ds as [|d ds IH]; intros b Hd Hl; [exact Hl|].
  cbn [Background.updates]. inversion Hd as [|? ? Hd1 Hd2]; subst.
  apply IH; [exact Hd2|]. now apply lit_update.
Qed.

(** Until the first star is out the timer counts down. *)
Lemma countdown_or_lit (ds : list Background.draws) : forall b,
  Forall Background.in_range ds -> 0 <= Background.timer b ->
  Sky.lit (Background.updates b ds) \/
  (Background.timer (Background.updates b ds)
   = Background.timer b - Z.of_nat (length ds) /\
   Z.of_nat (length ds) <= Background.timer b).
Proof.
  induction ds as [|d ds IH]; intros b Hd Ht.
  - right. cbn. lia.
  - cbn [Background.updates]. inversion Hd as [|? ? Hd1 Hd2]; subst.
    destruct (Z.eqb_spec (Background.timer b) 0) as [E|E].
    + left. apply lit_updates; [exact Hd2|].
      destruct Hd1 as ((_ & _ & Hf) & Hn).
      unfold Sky.lit, Background.update. cbv zeta.
      destruct (Z.eqb_spec (Background.timer b) 0) as [_|]; [|contradiction].
      cbn [Background.timer Background.stars].
      split; [lia|]. exists (Star.init (Background.star d)).
      split; [apply in_or_app; right; now left|].
      unfold Star.init, Rect.set_x.
      cbn [Star.vel_y Star.rect Rect.y]. lia.
    + assert (Et : Background.timer (Background.update b d)
                   = Background.timer b - 1).
      { unfold Background.update. cbv zeta.
        destruct (Z.eqb_spec (Background.timer b) 0); [contradiction|].
        reflexivity. }
      destruct (IH (Background.update b d) Hd2) as [H|[H1 H2]];
        [rewrite Et; lia|now left|].
      right. rewrite H1, Et. cbn [length]. lia.
Qed.

(** X14.  The stars keep coming.  With the timer in the range of
    [randrange(1, 10)] and draws in the ranges of [randrange], the
    background owns at least one star after any ten or more updates, and
    its timer is then between 0 and 8: it never becomes negative, so the
    test [timer == 0] is never missed. *)
Theorem sky_is_never_empty (b : Background.t) (ds : list Background.draws) :
  0 <= Background.timer b <= 9 ->
  Forall Background.in_range ds -> (10 <= length ds)%nat ->
  Background.stars (Background.updates b ds) <> [] /\
  0 <= Background.timer (Background.updates b ds) <= 8.
Proof.
  intros Ht Hd Hl.
  destruct (countdown_or_lit ds b Hd ltac:(lia)) as [H|[_ H]]; [|lia].
  destruct H as (H1 & st & Hin & _). split; [|exact H1].
  intros E. rewrite E in Hin. exact Hin.
Qed.

Lemma calm_in_range : Background.in_range Examples.calm.
Proof. unfold Background.in_range, Star.in_range. cbn. lia. Qed.

Lemma sky_is_never_empty_witness :
  Background.stars
    (Background.updates (Background.init 9) (repeat Examples.calm 10)) <> [].
Proof.
  apply (sky_is_never_empty (Background.init 9) (repeat Examples.calm 10)).
  - cbn. lia.
  - apply Forall_forall. intros d Hd. apply repeat_spec in Hd. subst d.
    exact calm_in_range.
  - cbn. lia.
Defined.

Lemma tidy_update (b : Background.t) (d : Background.draws) :
  Background.in_range d -> Sky.tidy b -> Sky.tidy (Background.update b d).
Proof.
  intros ((Hw & Hx & Hf) & Hn). unfold Sky.tidy, Background.update.
  intros Hb. cbv zeta.
  assert (Hm : Forall Sky.tidy_star
                 (map Star.update
                    (filter (fun s => negb (1300 <=? Rect.y (Star.rect s)))
                       (Background.stars b)))).
  { apply Forall_forall. intros st' Hin. apply in_map_iff in Hin
      as (st & <- & Hin). apply filter_In in Hin as [Hin Hy].
    apply negb_true_iff, Z.leb_gt in Hy.
    rewrite Forall_forall in Hb. specialize (Hb st Hin).
    destruct Hb as (T1 & T2 & T3 & T4 & T5 & T6).
    unfold Sky.tidy_star, Star.update, Rect.set_x, Rect.set_y.
    cbn [Star.vel_x Star.vel_y Star.rect Rect.x Rect.y Rect.w Rect.h].
    rewrite T1. repeat split; lia. }
  destruct (Background.timer b =? 0); cbn [Background.stars]; [|exact Hm].
  apply Forall_app. split; [exact Hm|]. constructor; [|constructor].
  unfold Sky.tidy_star, Star.init, Rect.set_x.
  cbn [Star.vel_x Star.vel_y Star.rect Rect.x Rect.y Rect.w Rect.h].
  repeat split; lia.
Qed.

(** X15.  The stars stay tidy.  With draws in the ranges of [randrange],
    every star of the background falls straight down at 1 to 19 pixels per
    update, inside the width of the playfield, and is dropped by the first
    update that finds it at or below the bottom edge: no star is ever more
    than one step below it. *)
Theorem stars_are_dropped_below_the_playfield (b : Background.t)
    (ds : list Background.draws) :
  Forall Background.in_range ds -> Sky.tidy b ->
  Forall (fun st => Star.vel_x st = 0 /\ 1 <= Star.vel_y st < 20 /\
                    0 <= Rect.x (Star.rect st) < 1100 /\
                    0 <= Rect.y (Star.rect st) < 1300 + Star.vel_y st)
         (Background.stars (Background.updates b ds)) /\
  (length (Background.stars (Background.updates b ds))
   <= length (Background.stars b) + length ds)%nat.
Proof.
  revert b. induction ds as [|d ds IH]; intros b Hd Hb.
  - cbn [Background.updates]. split; [|lia].
    eapply Forall_impl; [|exact Hb].
    intros st (T1 & T2 & T3 & T4 & _). auto.
  - cbn [Background.updates]. inversion Hd as [|? ? Hd1 Hd2]; subst.
    destruct (IH (Background.update b d) Hd2 (tidy_update b d Hd1 Hb))
      as [H1 H2].
    split; [exact H1|]. etransitivity; [exact H2|]. cbn [length].
    assert (length (Background.stars (Background.update b d))
            <= S (length (Background.stars b)))%nat; [|lia].
    unfold Background.update. cbv zeta.
    pose proof (filter_length_le
                  (fun s => negb (1300 <=? Rect.y (Star.rect s)))
                  (Background.stars b)) as Hf.
    destruct (Background.timer b =? 0); cbn [Background.stars];
      rewrite ?length_app, length_map; cbn [length]; lia.
Qed.

Lemma stars_are_dropped_below_the_playfield_witness :
  map (fun st => Rect.y (Star.rect st))
      (Background.stars
         (Background.updates (Background.init 1) (repeat Examples.calm 5)))
  = [21; 0] /\
  Forall (fun st => 0 <= Rect.y (Star.rect st) < 1300 + Star.vel_y st)
         (Background.stars
            (Background.updates (Background.init 1) (repeat Examples.calm 5))).
Proof.
  split; [reflexivity|].
  destruct (stars_are_dropped_below_the_playfield (Background.init 1)
              (repeat Examples.calm 5)) as [H _].
  - apply Forall_forall. intros d Hd. apply repeat_spec in Hd. subst d.
    exact calm_in_range.
  - constructor.
  - eapply Forall_impl; [|exact H]. intros st (_ & _ & _ & Hy). exact Hy.
Defined.

(* ================================================================= *)
(** ** The validity of a scene *)

Lemma process_event_valid (s : Scene.t) (e : Pygame.Event) :
  Scene.is_valid (Scene.process_event s e)
  = Scene.is_valid s
    && negb match e with
            | Pygame.QUIT | Pygame.KEYDOWN Pygame.K_ESCAPE => true
            | _ => false
            end /\
  Scene.frame_rate (Scene.process_event s e) = Scene.frame_rate s.
Proof.
  unfold Scene.process_event.
  destruct e as [|[]|[]|]; cbn; rewrite ?andb_true_r, ?andb_false_r; auto.
Qed.

Lemma press_any_key_valid (s : Scene.t) (e : Pygame.Event) :
  Scene.is_valid (PressAnyKeyToExitScene.process_event s e)
  = Scene.is_valid s
    && negb match e with
            | Pygame.QUIT | Pygame.KEYDOWN _ => true
            | _ => false
            end /\
  Scene.frame_rate (PressAnyKeyToExitScene.process_event s e)
  = Scene.frame_rate s.
Proof.
  unfold PressAnyKeyToExitScene.process_event, Scene.process_event.
  destruct e as [|[]|[]|]; cbn; rewrite ?andb_true_r, ?andb_false_r; auto.
Qed.

(** X16.  A scene stays valid exactly as long as it has seen neither a
    [QUIT] event nor a press of the Escape key (for
    [PressAnyKeyToExitScene]: nor a press of any key); once invalid, no
    event makes it valid again.  The frame rate is 60 and is never
    changed. *)
Theorem scene_validity_is_lost_for_good (s : Scene.t)
    (evs : list Pygame.Event) :
  Scene.is_valid (fold_left Scene.process_event evs s)
  = Scene.is_valid s
    && negb (existsb (fun e => match e with
                               | Pygame.QUIT
                               | Pygame.KEYDOWN Pygame.K_ESCAPE => true
                               | _ => false
                               end) evs) /\
  Scene.is_valid (fold_left PressAnyKeyToExitScene.process_event evs s)
  = Scene.is_valid s
    && negb (existsb (fun e => match e with
                               | Pygame.QUIT | Pygame.KEYDOWN _ => true
                               | _ => false
                               end) evs) /\
  Scene.frame_rate (fold_left Scene.process_event evs s) = Scene.frame_rate s /\
  Scene.frame_rate (fold_left PressAnyKeyToExitScene.process_event evs s)
  = Scene.frame_rate s /\
  Scene.frame_rate Scene.init = 60 /\ Scene.is_valid Scene.init = true.
Proof.
  revert s. induction evs as [|e evs IH]; intros s.
  - cbn. rewrite andb_true_r. auto 10.
  - cbn [fold_left existsb].
    destruct (IH (Scene.process_event s e)) as (H1 & _ & H3 & _).
    destruct (IH (PressAnyKeyToExitScene.process_event s e))
      as (_ & H2 & _ & H4 & _).
    destruct (process_event_valid s e) as [P1 P2].
    destruct (press_any_key_valid s e) as [Q1 Q2].
    rewrite H1, H2, H3, H4, P1, P2, Q1, Q2, !negb_orb, !andb_assoc.
    auto 10.
Qed.

(* ================================================================= *)
(** ** The main loop *)

Lemma poll_quit (evs : list Pygame.Event) : forall ev,
  VideoGame.poll evs ev = VideoGame.Stopped VideoGame.sys_exit
  <-> In Pygame.QUIT evs.
Proof.
  induction evs as [|e evs IH]; intros ev; cbn [VideoGame.poll In].
  - split; [discriminate|contradiction].
  - destruct e as [|k|k|]; try (rewrite IH; split;
      [now right|intros [H|H]; [discriminate H|exact H]]).
    split; [now left|reflexivity].
Qed.

Lemma last_nonempty {A} (l : list A) : forall a d d',
  last (a :: l) d = last (a :: l) d'.
Proof.
  induction l as [|b l IH]; intros a d d'; [reflexivity|].
  change (last (b :: l) d = last (b :: l) d'). apply IH.
Qed.

(** Without a [QUIT] the loop leaves the last event in the variable, or
    the variable as it was when there is no event. *)
Lemma poll_last (evs : list Pygame.Event) : forall ev,
  ~ In Pygame.QUIT evs ->
  VideoGame.poll evs ev = VideoGame.Running (last (map Some evs) ev).
Proof.
  induction evs as [|e evs IH]; intros ev Hq; [reflexivity|].
  assert (Hq' : ~ In Pygame.QUIT evs) by (intros H; apply Hq; now right).
  assert (He : e <> Pygame.QUIT) by (intros ->; apply Hq; now left).
  cbn [VideoGame.poll map].
  replace (last (Some e :: map Some evs) ev)
    with (last (map Some evs) (Some e))
    by (destruct evs as [|e0 evs]; [reflexivity|];
        cbn [map];
        change (last (Some e :: Some e0 :: map Some evs) ev)
          with (last (Some e0 :: map Some evs) ev);
        apply last_nonempty).
  destruct e as [|k|k|]; [contradiction| | |]; apply IH; exact Hq'.
Qed.

(** The variable is unbound after the loop only if it was unbound before
    and no event arrived. *)
Lemma poll_unbound (evs : list Pygame.Event) : forall ev,
  VideoGame.poll evs ev = VideoGame.Running None -> evs = [] /\ ev = None.
Proof.
  induction evs as [|e evs IH]; intros ev; cbn [VideoGame.poll].
  - intros [= ->]. split; reflexivity.
  - destruct e as [|k|k|]; [discriminate| | |];
      intros H; apply IH in H as [_ H]; discriminate H.
Qed.

Lemma poll_stops (evs : list Pygame.Event) (ev : option Pygame.Event)
    (why : VideoGame.stop) :
  VideoGame.poll evs ev = VideoGame.Stopped why -> why = VideoGame.sys_exit.
Proof.
  revert ev. induction evs as [|e evs IH]; intros ev; cbn [VideoGame.poll].
  - discriminate.
  - destruct e as [|k|k|]; try apply IH. now intros [= <-].
Qed.

Section MainLoop.
Context {libm : Libm}.

Lemma handle_stops sc ev loads why :
  VideoGame.handle sc ev loads = VideoGame.Stopped why ->
  (why = VideoGame.broken /\ loads = false /\ VideoGame.starts sc ev) \/
  (exists e, why = VideoGame.SceneError e).
Proof.
  unfold VideoGame.handle, VideoGame.lift, VideoGame.start_scene, VideoGame.starts.
  destruct sc as [ts|g].
  - destruct (TitleScene.handle_event ts ev) as [[]|] eqn:Eh; [|discriminate].
    destruct GameScene.init as [g|e]; [|intros [= <-]; eauto].
    destruct loads; [discriminate|]. intros [= <-]. left.
    split; [reflexivity|]. split; [reflexivity|]. exists ts, g. auto.
  - destruct (bind _ _) as [a|e]; [discriminate|]. intros [= <-]. eauto.
Qed.

Lemma handle_broken sc ev :
  VideoGame.starts sc ev ->
  VideoGame.handle sc ev false = VideoGame.Stopped VideoGame.broken.
Proof.
  intros (ts & g & -> & Hs & Hi). unfold VideoGame.handle.
  rewrite Hs, Hi. reflexivity.
Qed.

Lemma update_stops sc i why :
  VideoGame.update sc i = VideoGame.Stopped why ->
  exists e, why = VideoGame.SceneError e.
Proof.
  unfold VideoGame.update, VideoGame.lift.
  destruct sc as [ts|g]; [discriminate|].
  destruct (bind _ _) as [a|e]; [discriminate|]. intros [= <-]. eauto.
Qed.

(** How a frame can stop. *)
Lemma frame_stops st i why :
  VideoGame.frame st i = VideoGame.Stopped why ->
  (why = VideoGame.sys_exit /\ In Pygame.QUIT (VideoGame.events i)) \/
  (why = VideoGame.UnboundLocalError /\
   VideoGame.events i = [] /\ VideoGame.event st = None) \/
  (why = VideoGame.broken /\ ~ In Pygame.QUIT (VideoGame.events i) /\
   VideoGame.music i = false /\
   exists ev,
     last (map Some (VideoGame.events i)) (VideoGame.event st) = Some ev /\
     VideoGame.starts (VideoGame.scene st) ev) \/
  (exists e, why = VideoGame.SceneError e).
Proof.
  unfold VideoGame.frame.
  destruct (VideoGame.poll (VideoGame.events i) (VideoGame.event st))
    as [[ev|]|w] eqn:Ep.
  - assert (Hq : ~ In Pygame.QUIT (VideoGame.events i)).
    { intros Hq. apply poll_quit with (ev := VideoGame.event st) in Hq.
      rewrite Hq in Ep. discriminate Ep. }
    rewrite (poll_last _ _ Hq) in Ep. injection Ep as Ep.
    destruct (VideoGame.handle (VideoGame.scene st) ev (VideoGame.music i))
      as [sc|w] eqn:Eh.
    + destruct (VideoGame.update sc i) as [sc'|w] eqn:Eu; [discriminate|].
      intros [= <-]. right. right. right. eapply update_stops, Eu.
    + intros [= <-]. apply handle_stops in Eh as [(-> & Hm & Hs)|He].
      * right. right. left. split; [reflexivity|]. split; [exact Hq|].
        split; [exact Hm|]. exists ev. auto.
      * right. right. right. exact He.
  - intros [= <-]. right. left. split; [reflexivity|].
    apply poll_unbound in Ep. exact Ep.
  - intros [= <-]. left. apply poll_stops in Ep as Hw. subst w.
    split; [reflexivity|]. eapply poll_quit, Ep.
Qed.

(** X17.  The ways out of the game.  An iteration of the main loop ends
    with [sys.exit()] if and only if [pygame.event.get()] returned a
    [QUIT] event, wherever it stands among the events of the frame,
    whatever the scene and the other events.  The only other [SystemExit]
    is the one of [start_scene], ["broken!!"]: an iteration ends with it if
    and only if there is no [QUIT] event, the event handled makes the
    title scene start the game, and the soundtrack of the game scene
    cannot be loaded.  So no key press ends the game scene, Escape
    included, and none ends the title scene while the soundtrack can be
    loaded. *)
Theorem quit_event_exits :
  (forall st i,
      VideoGame.frame st i = VideoGame.Stopped VideoGame.sys_exit
      <-> In Pygame.QUIT (VideoGame.events i)) /\
  (forall st i,
      VideoGame.frame st i = VideoGame.Stopped VideoGame.broken
      <-> ~ In Pygame.QUIT (VideoGame.events i) /\
          VideoGame.music i = false /\
          exists ev ts g,
            last (map Some (VideoGame.events i)) (VideoGame.event st)
            = Some ev /\
            VideoGame.scene st = VideoGame.Title ts /\
            TitleScene.handle_event ts ev = Some TitleScene.START_1P /\
            GameScene.init = Ok g) /\
  (forall st i arg,
      VideoGame.frame st i = VideoGame.Stopped (VideoGame.SystemExit arg) ->
      In Pygame.QUIT (VideoGame.events i) \/
      VideoGame.in_game st = false /\ VideoGame.music i = false) /\
  (forall l st arg,
      VideoGame.run st l = VideoGame.Stopped (VideoGame.SystemExit arg) ->
      exists i, In i l /\
        (In Pygame.QUIT (VideoGame.events i) \/ VideoGame.music i = false)).
Proof.
  assert (F : forall st i arg,
             VideoGame.frame st i
             = VideoGame.Stopped (VideoGame.SystemExit arg) ->
             In Pygame.QUIT (VideoGame.events i) \/
             VideoGame.in_game st = false /\ VideoGame.music i = false).
  { intros st i arg H.
    apply frame_stops in H as [[_ H]|[[H _]|[(_ & _ & Hm & ev & _ & Hs)|[e H]]]];
      [now left|discriminate H| |discriminate H].
    right. split; [|exact Hm]. destruct Hs as (ts & g & Hs & _).
    unfold VideoGame.in_game. now rewrite Hs. }
  split; [|split; [|split; [exact F|]]].
  - intros st i. split.
    + intros H.
      apply frame_stops in H as [[_ H]|[[H _]|[[H _]|[e H]]]];
        [exact H|discriminate H|discriminate H|discriminate H].
    + intros H. unfold VideoGame.frame.
      apply poll_quit with (ev := VideoGame.event st) in H. now rewrite H.
  - intros st i. split.
    + intros H.
      apply frame_stops in H
        as [[H _]|[[H _]|[(_ & Hq & Hm & ev & Hl & ts & g & Hs)|[e H]]]];
        [discriminate H|discriminate H| |discriminate H].
      split; [exact Hq|]. split; [exact Hm|]. exists ev, ts, g. tauto.
    + intros (Hq & Hm & ev & ts & g & Hl & Hs & Hh & Hi).
      unfold VideoGame.frame. rewrite (poll_last _ _ Hq), Hl, Hm.
      rewrite handle_broken; [reflexivity|]. exists ts, g. auto.
  - induction l as [|i l IH]; intros st arg; cbn [VideoGame.run];
      [discriminate|].
    destruct (VideoGame.frame st i) as [st'|w] eqn:E.
    + intros H. apply IH in H as (j & Hj & Hq). exists j.
      split; [now right|exact Hq].
    + intros [= ->]. exists i. split; [now left|].
      apply F in E as [E|[_ E]]; auto.
Qed.

(** X18.  The main loop hands the scene one event per frame: the last one
    returned by [pygame.event.get()], the earlier events of the frame
    being dropped; and when no event arrived, the event of an earlier
    frame once more.  For the game scene a frame is [handle_event] on that
    event followed by [update_scene]. *)
Theorem only_the_last_event_is_handled :
  (forall st i,
      ~ In Pygame.QUIT (VideoGame.events i) ->
      VideoGame.frame st i
      = VideoGame.frame
          (VideoGame.mk (VideoGame.scene st)
             (last (map Some (VideoGame.events i)) (VideoGame.event st)))
          (VideoGame.mk_input [] (VideoGame.rnd i) (VideoGame.pick i)
             (VideoGame.sky i) (VideoGame.music i))) /\
  (forall g e i,
      VideoGame.events i = [] ->
      VideoGame.frame (VideoGame.mk (VideoGame.Game g) (Some e)) i
      = match Play.frame g
                (Play.mk_input (Pygame.game_event e) (VideoGame.rnd i)
                   (VideoGame.pick i)) with
        | Ok g' =>
            VideoGame.Running (VideoGame.mk (VideoGame.Game g') (Some e))
        | Raise x => VideoGame.Stopped (VideoGame.SceneError x)
        end).
Proof.
  split.
  - intros st i Hq. unfold VideoGame.frame.
    rewrite (poll_last _ _ Hq).
    cbn [VideoGame.events VideoGame.event VideoGame.scene VideoGame.poll].
    destruct (last _ _) as [ev|]; [|reflexivity].
    destruct (VideoGame.handle _ _ _) as [sc|w]; reflexivity.
  - intros g e i Hi. unfold VideoGame.frame. rewrite Hi.
    cbn [VideoGame.poll VideoGame.event VideoGame.scene VideoGame.handle].
    unfold Play.frame. cbn [Play.event Play.rnd Play.pick].
    destruct (handle_event g (Pygame.game_event e)) as [g1|x];
      cbn [bind VideoGame.lift VideoGame.update]; [|reflexivity].
    destruct (update_scene g1 (VideoGame.rnd i) (VideoGame.pick i))
      as [g2|x]; reflexivity.
Qed.

(** X19.  The variable [event] of the main loop is unbound until an event
    has arrived: an iteration ends with an [UnboundLocalError] if and only
    if no event has arrived yet, in this frame or before.  After an
    iteration that did not stop the variable is bound, so the error can
    only be the first thing that happens. *)
Theorem first_frame_needs_an_event :
  (forall st i,
      VideoGame.frame st i = VideoGame.Stopped VideoGame.UnboundLocalError
      <-> VideoGame.events i = [] /\ VideoGame.event st = None) /\
  (forall st i st',
      VideoGame.frame st i = VideoGame.Running st' ->
      VideoGame.event st' <> None) /\
  (forall l st i st',
      VideoGame.frame st i = VideoGame.Running st' ->
      VideoGame.run st' l <> VideoGame.Stopped VideoGame.UnboundLocalError).
Proof.
  assert (B : forall st i st',
             VideoGame.frame st i = VideoGame.Running st' ->
             VideoGame.event st' <> None).
  { intros st i st'. unfold VideoGame.frame.
    destruct (VideoGame.poll _ _) as [[ev|]|w]; try discriminate.
    destruct (VideoGame.handle _ _ _) as [sc|w]; [|discriminate].
    destruct (VideoGame.update _ _) as [sc'|w]; [|discriminate].
    intros [= <-]. discriminate. }
  split; [|split; [exact B|]].
  - intros st i. split.
    + intros H. apply frame_stops in H as [[H _]|[[_ H]|[[H _]|[e H]]]];
        [discriminate H|exact H|discriminate H|discriminate H].
    + intros [H1 H2]. unfold VideoGame.frame. now rewrite H1, H2.
  - induction l as [|j l IH]; intros st i st' H; cbn [VideoGame.run];
      [discriminate|].
    destruct (VideoGame.frame st' j) as [st''|w] eqn:E.
    + eapply IH. exact E.
    + intros [= ->].
      apply frame_stops in E as [[E _]|[[_ [_ E]]|[[E _]|[e E]]]];
        [discriminate E| |discriminate E|discriminate E].
      apply (B _ _ _ H). exact E.
Qed.

(** X20.  From the title to the game, and never back.  A frame of the
    title scene that does not stop ends in the game scene exactly when the
    event handled is a press of [1], keypad [1] or Return; the game scene
    is then a new [GameScene] that has been updated once in the same
    frame.  Otherwise the title scene is updated.  Once the game scene is
    shown every later frame shows a game scene. *)
Theorem title_starts_the_game_for_good :
  (forall ts ev i st',
      VideoGame.frame (VideoGame.mk (VideoGame.Title ts) ev) i
      = VideoGame.Running st' ->
      exists e,
        VideoGame.event st' = Some e /\
        (TitleScene.handle_event ts e = Some TitleScene.START_1P ->
         exists g0 g,
           GameScene.init = Ok g0 /\
           update_scene g0 (VideoGame.rnd i) (VideoGame.pick i) = Ok g /\
           VideoGame.scene st' = VideoGame.Game g) /\
        (TitleScene.handle_event ts e = None ->
         VideoGame.scene st'
         = VideoGame.Title (TitleScene.update_scene ts (VideoGame.sky i))) /\
        (VideoGame.in_game st' = true <->
         e = Pygame.KEYDOWN Pygame.K_1 \/ e = Pygame.KEYDOWN Pygame.K_KP1 \/
         e = Pygame.KEYDOWN Pygame.K_RETURN)) /\
  (forall l st st',
      VideoGame.in_game st = true ->
      VideoGame.run st l = VideoGame.Running st' ->
      VideoGame.in_game st' = true).
Proof.
  split.
  - intros ts ev i st'. unfold VideoGame.frame.
    cbn [VideoGame.event VideoGame.scene].
    destruct (VideoGame.poll _ _) as [[e|]|w]; try discriminate.
    unfold VideoGame.handle.
    destruct (TitleScene.handle_event ts e) as [[]|] eqn:Eh.
    + destruct GameScene.init as [g0|x] eqn:E0; [|discriminate].
      destruct (VideoGame.start_scene _) as [u|w]; [|discriminate].
      cbn [bind VideoGame.lift VideoGame.update].
      destruct (update_scene g0 _ _) as [g|x] eqn:Eu; [|discriminate].
      cbn [bind VideoGame.lift]. intros [= <-].
      exists e. rewrite Eh. split; [reflexivity|].
      split; [intros _; exists g0, g; repeat split; assumption|].
      split; [discriminate|].
      split; [intros _|reflexivity].
      unfold TitleScene.handle_event in Eh.
      destruct e as [|[]|[]|]; try discriminate Eh; auto.
    + cbn [VideoGame.update]. intros [= <-].
      exists e. rewrite Eh. split; [reflexivity|].
      split; [discriminate|]. split; [reflexivity|].
      split; [discriminate|].
      unfold TitleScene.handle_event in Eh.
      intros [K|[K|K]]; rewrite K in Eh; discriminate Eh.
  - induction l as [|i l IH]; intros st st' Hg; cbn [VideoGame.run].
    + now intros [= <-].
    + destruct (VideoGame.frame st i) as [st1|w] eqn:E; [|discriminate].
      apply IH. revert E. unfold VideoGame.frame, VideoGame.in_game in *.
      destruct (VideoGame.poll _ _) as [[e|]|w]; try discriminate.
      destruct (VideoGame.scene st) as [ts|g]; [discriminate Hg|].
      unfold VideoGame.handle.
      destruct (handle_event g (Pygame.game_event e)) as [g1|x];
        cbn [bind VideoGame.lift]; [|discriminate].
      unfold VideoGame.update.
      destruct (update_scene g1 (VideoGame.rnd i) (VideoGame.pick i))
        as [g2|x]; cbn [bind VideoGame.lift]; [|discriminate].
      now intros [= <-].
Qed.

End MainLoop.

Lemma only_the_last_event_is_handled_witness :
  @VideoGame.frame Reference.libm
    (VideoGame.mk (VideoGame.Game Scenario.formed)
       (Some (Pygame.KEYDOWN Pygame.K_SPACE)))
    (Examples.still [])
  = VideoGame.Running
      (VideoGame.mk (VideoGame.Game Examples.formed_fired)
         (Some (Pygame.KEYDOWN Pygame.K_SPACE))) /\
  length (Ship.bullets (the_player Examples.formed_fired)) = 1%nat.
Proof.
  split; [|reflexivity].
  destruct (@only_the_last_event_is_handled Reference.libm) as [_ H].
  rewrite (H Scenario.formed (Pygame.KEYDOWN Pygame.K_SPACE)
             (Examples.still []) eq_refl).
  vm_compute. reflexivity.
Defined.

Lemma first_frame_needs_an_event_witness :
  VideoGame.init 3 true = VideoGame.Running Examples.fresh /\
  @VideoGame.frame Reference.libm Examples.fresh (Examples.still [])
  = VideoGame.Stopped VideoGame.UnboundLocalError.
Proof.
  split; [reflexivity|].
  destruct (@first_frame_needs_an_event Reference.libm) as [H _].
  apply H. split; reflexivity.
Defined.

Lemma quit_event_exits_witness :
  @VideoGame.frame Reference.libm Examples.fresh
    (Examples.still [Pygame.KEYDOWN Pygame.K_RETURN; Pygame.QUIT])
  = VideoGame.Stopped VideoGame.sys_exit /\
  @VideoGame.frame Reference.libm Examples.fresh
    (Examples.silent [Pygame.KEYDOWN Pygame.K_RETURN])
  = VideoGame.Stopped VideoGame.broken /\
  (In Pygame.QUIT [Pygame.KEYDOWN Pygame.K_RETURN] \/
   VideoGame.in_game Examples.fresh = false /\
   VideoGame.music (Examples.silent [Pygame.KEYDOWN Pygame.K_RETURN])
   = false).
Proof.
  destruct (@quit_event_exits Reference.libm) as (Hq & Hb & Hs & _).
  assert (B : @VideoGame.frame Reference.libm Examples.fresh
                (Examples.silent [Pygame.KEYDOWN Pygame.K_RETURN])
              = VideoGame.Stopped VideoGame.broken).
  { apply Hb. split; [intros [H|[]]; discriminate H|].
    split; [reflexivity|].
    exists (Pygame.KEYDOWN Pygame.K_RETURN), (TitleScene.init 3),
      Scenario.opening.
    split; [reflexivity|]. split; [reflexivity|]. split; [reflexivity|].
    vm_compute. reflexivity. }
  split; [apply Hq; right; now left|].
  split; [exact B|].
  exact (Hs _ _ _ B).
Defined.

Lemma title_starts_the_game_for_good_witness :
  VideoGame.in_game Examples.started = true /\
  exists g,
    @update_scene Reference.libm Scenario.opening (lit 99 100) 0 = Ok g /\
    VideoGame.scene Examples.started = VideoGame.Game g.
Proof.
  assert (E : @VideoGame.frame Reference.libm Examples.fresh
                (Examples.still [Pygame.KEYDOWN Pygame.K_RETURN])
              = VideoGame.Running Examples.started)
    by (vm_compute; reflexivity).
  split; [reflexivity|].
  destruct (@title_starts_the_game_for_good Reference.libm) as [H _].
  destruct (H _ _ _ _ E) as (e & He & Hs & _).
  injection He as <-.
  destruct (Hs eq_refl) as (g0 & g & H0 & Hu & Hg).
  exists g. split; [|exact Hg].
  assert (E0 : @GameScene.init Reference.libm = Ok Scenario.opening)
    by (vm_compute; reflexivity).
  rewrite E0 in H0. injection H0 as <-. exact Hu.
Defined.
